(** * The SAL client data model (clients/cppsal/include/sal_data.h)

    A shallow embedding of the attribute hierarchy of the C++ client of the
    Simple Access Layer: the type registry, [Atomic<T>], the strided
    [Array<T>], [Dictionary], and the decode dispatcher, together with the
    part of the Poco JSON interface these functions call.

    Conventions of the embedding.
    - C++ integers are mathematical integers ([Z]) with the wrap-around of
      the declared type written out ([uint8], [int16], [uint64]).
    - [float] and [double] values are carried as their IEEE-754 bit pattern;
      the functions below only store and copy them.
    - A call either returns, throws, runs into undefined behaviour (an
      out-of-range [std::vector::operator[]]), never returns (a loop whose
      8-bit counter wraps before the bound is reached) or ends the process
      ([std::terminate], for an exception that leaves a function declared
      [throw()]): type [Outcome].
    - Memory is not a resource of the model: an allocation returns, so the
      [std::length_error] and [std::bad_alloc] of a [std::vector::resize]
      that asks for more than the machine has are not among the outcomes.
    - [std::map] and [Poco::JSON::Object] are finite maps ([gmap]).
    - [Poco::SharedPtr] is [option]; dereferencing the null pointer throws
      Poco's [NullPointerException]. *)

From Stdlib Require Import ZArith Lia.
From stdpp Require Import base option list strings gmap fin_maps.

#[local] Set Warnings "-register-all".
#[local] Open Scope Z_scope.
#[local] Open Scope string_scope.
#[local] Open Scope list_scope.

(** ** Exceptions and outcomes of a call *)

(** Modelled from the spec: the class [SALException] is declared in
    [sal_exception.h], which is not among the sources; it is the error kind
    that the decoders and the usage checks raise, taken to be a
    [std::exception] carrying the message it is built from.  The other
    exceptions are those of the libraries: [Poco::Exception], whose
    [what()] is the name of the exception class, and [std::out_of_range]. *)
Inductive exception :=
| SALException (msg : string)
| Poco_Exception (name : string)
| std_out_of_range (msg : string).

Definition NullPointerException : exception := Poco_Exception "Null pointer".
Definition InvalidAccessException : exception := Poco_Exception "Invalid access".

Definition what (e : exception) : string :=
  match e with
  | SALException msg => msg
  | Poco_Exception name => name
  | std_out_of_range msg => msg
  end.

Definition is_SALException (e : exception) : bool :=
  match e with SALException _ => true | _ => false end.

Inductive Outcome (A : Type) :=
| Return (a : A)
| Throw (e : exception)
| Undefined
| Diverge
| Terminate.
Arguments Return {A} a.
Arguments Throw {A} e.
Arguments Undefined {A}.
Arguments Diverge {A}.
Arguments Terminate {A}.

#[global] Instance Outcome_ret : MRet Outcome := fun A a => Return a.
#[global] Instance Outcome_bind : MBind Outcome := fun A B f c =>
  match c with
  | Return a => f a
  | Throw e => Throw e
  | Undefined => Undefined
  | Diverge => Diverge
  | Terminate => Terminate
  end.
#[global] Instance Outcome_fmap : FMap Outcome := fun A B f c =>
  match c with
  | Return a => Return (f a)
  | Throw e => Throw e
  | Undefined => Undefined
  | Diverge => Diverge
  | Terminate => Terminate
  end.

(** [try { c } catch (std::exception& e) { h e }]; every exception of the
    model is a [std::exception], so [catch (...)] is the same handler. *)
Definition try_catch {A} (c : Outcome A) (h : exception -> Outcome A) : Outcome A :=
  match c with
  | Throw e => h e
  | _ => c
  end.

(** A function declared [throw()]: an exception that leaves its body does
    not reach the caller, [std::unexpected] is called, which calls
    [std::terminate] (since C++17 directly, the specification being that
    of [noexcept]). *)
Definition throw_none {A} (c : Outcome A) : Outcome A :=
  match c with
  | Throw _ => Terminate
  | _ => c
  end.

(** The result of a library call that returns or throws. *)
Definition lift {A} (r : exception + A) : Outcome A :=
  match r with
  | inl e => Throw e
  | inr a => Return a
  end.

(** [Poco::SharedPtr::operator->] *)
Definition deref {A} (p : option A) : Outcome A :=
  match p with
  | Some a => Return a
  | None => Throw NullPointerException
  end.

(** ** Machine integers *)

Definition uint8 (z : Z) : Z := z mod 2 ^ 8.
Definition uint64 (z : Z) : Z := z mod 2 ^ 64.
Definition int16 (z : Z) : Z := (z + 2 ^ 15) mod 2 ^ 16 - 2 ^ 15.
Definition int32 (z : Z) : Z := (z + 2 ^ 31) mod 2 ^ 32 - 2 ^ 31.
Definition int64 (z : Z) : Z := (z + 2 ^ 63) mod 2 ^ 64 - 2 ^ 63.

(** ** std::vector *)

(** [v[i]]: the index is converted to [size_t]; outside the vector the
    behaviour is undefined. *)
Definition vec_get {A} (v : list A) (i : Z) : Outcome A :=
  if decide (uint64 i < Z.of_nat (length v))
  then match v !! Z.to_nat (uint64 i) with
       | Some x => Return x
       | None => Undefined
       end
  else Undefined.

Definition vec_set {A} (v : list A) (i : Z) (x : A) : Outcome (list A) :=
  if decide (uint64 i < Z.of_nat (length v))
  then Return (<[Z.to_nat (uint64 i) := x]> v)
  else Undefined.

(** [v.resize(n)] on a vector of value-initialised elements. *)
Definition resize {A} (n : Z) (d : A) (v : list A) : list A :=
  take (Z.to_nat n) v ++ replicate (Z.to_nat n - length v) d.

(** [for (uint64_t i = 0; i < n; i++) s = body(i, s)] *)
Fixpoint for_loop {S} (k : nat) (i : Z) (body : Z -> S -> Outcome S) (s : S) : Outcome S :=
  match k with
  | O => Return s
  | Datatypes.S k' => s' ← body i s; for_loop k' (i + 1) body s'
  end.

Definition for_uint64 {S} (n : Z) (body : Z -> S -> Outcome S) (s : S) : Outcome S :=
  for_loop (Z.to_nat n) 0 body s.

(** [for (uint8_t i = 0; i < n; i++) s = body(i, s)] with [n] a [size_t]:
    for [n > 255] the counter wraps to 0 after 255 and the loop is never
    left (unless the body fails first). *)
Definition for_uint8 {S} (n : Z) (body : Z -> S -> Outcome S) (s : S) : Outcome S :=
  if decide (n <= 255)
  then for_loop (Z.to_nat n) 0 body s
  else (_ ← for_loop 256 0 body s; Diverge).

(** ** Type registry *)

Inductive AttributeType :=
| ATTR_NULL
| ATTR_SCALAR
| ATTR_INT8
| ATTR_INT16
| ATTR_INT32
| ATTR_INT64
| ATTR_UINT8
| ATTR_UINT16
| ATTR_UINT32
| ATTR_UINT64
| ATTR_FLOAT32
| ATTR_FLOAT64
| ATTR_BOOL
| ATTR_STRING
| ATTR_ARRAY
| ATTR_DICTIONARY
| ATTR_DATA_OBJECT.

#[global] Instance AttributeType_eq_dec : EqDecision AttributeType.
Proof. solve_decision. Defined.

Definition TYPE_NAME_INT8 : string := "int8".
Definition TYPE_NAME_INT16 : string := "int16".
Definition TYPE_NAME_INT32 : string := "int32".
Definition TYPE_NAME_INT64 : string := "int64".
Definition TYPE_NAME_UINT8 : string := "uint8".
Definition TYPE_NAME_UINT16 : string := "uint16".
Definition TYPE_NAME_UINT32 : string := "uint32".
Definition TYPE_NAME_UINT64 : string := "uint64".
Definition TYPE_NAME_FLOAT32 : string := "float32".
Definition TYPE_NAME_FLOAT64 : string := "float64".
Definition TYPE_NAME_BOOL : string := "bool".
Definition TYPE_NAME_STRING : string := "string".
Definition TYPE_NAME_ARRAY : string := "array".
Definition TYPE_NAME_DICTIONARY : string := "dictionary".

Definition dtype_map : gmap string AttributeType :=
  list_to_map
    [ ("int64", ATTR_INT64); ("int32", ATTR_INT32); ("int16", ATTR_INT16); ("int8", ATTR_INT8);
      ("uint64", ATTR_UINT64); ("uint32", ATTR_UINT32); ("uint16", ATTR_UINT16); ("uint8", ATTR_UINT8);
      ("float64", ATTR_FLOAT64); ("float32", ATTR_FLOAT32); ("bool", ATTR_BOOL); ("string", ATTR_STRING) ].

(** The native types an [Atomic<T>] or an array element can have. *)
Inductive NativeType :=
| int8_t
| int16_t
| int32_t
| int64_t
| uint8_t
| uint16_t
| uint32_t
| uint64_t
| float
| double
| cpp_bool
| std_string.

#[global] Instance NativeType_eq_dec : EqDecision NativeType.
Proof. solve_decision. Defined.

(** The template arguments [to_dtype] and [to_dtype_name] tell apart. *)
Inductive CppType :=
| Native (T : NativeType)
| cpp_Dictionary
| cpp_IArray_derived
| cpp_Null
| cpp_other.

Definition to_dtype (DT : CppType) : Outcome AttributeType :=
  match DT with
  | Native int64_t => Return ATTR_INT64
  | Native int32_t => Return ATTR_INT32
  | Native int16_t => Return ATTR_INT16
  | Native int8_t => Return ATTR_INT8
  | Native uint64_t => Return ATTR_UINT64
  | Native uint32_t => Return ATTR_UINT32
  | Native uint16_t => Return ATTR_UINT16
  | Native uint8_t => Return ATTR_UINT8
  | Native float => Return ATTR_FLOAT32
  | Native double => Return ATTR_FLOAT64
  | Native cpp_bool => Return ATTR_BOOL
  | Native std_string => Return ATTR_STRING
  | cpp_Dictionary => Return ATTR_DICTIONARY
  | cpp_IArray_derived => Return ATTR_ARRAY
  | cpp_Null => Return ATTR_NULL
  | cpp_other => Throw (SALException "type is not a derived from Attribute base class")
  end.

Definition to_dtype_name (DT : CppType) : Outcome string :=
  match DT with
  | Native int64_t => Return "int64"
  | Native int32_t => Return "int32"
  | Native int16_t => Return "int16"
  | Native int8_t => Return "int8"
  | Native uint64_t => Return "uint64"
  | Native uint32_t => Return "uint32"
  | Native uint16_t => Return "uint16"
  | Native uint8_t => Return "uint8"
  | Native float => Return "float32"
  | Native double => Return "float64"
  | Native cpp_bool => Return "bool"
  | Native std_string => Return "string"
  | _ => Throw (SALException "data type valid as Array element or Atomic value")
  end.

(** The C++ representation of a native type: integers as [Z], [float] and
    [double] as their bit pattern. *)
Definition native (T : NativeType) : Type :=
  match T with
  | cpp_bool => bool
  | std_string => string
  | _ => Z
  end.

(** [T()] *)
Definition default_value (T : NativeType) : native T :=
  match T with
  | cpp_bool => false
  | std_string => ""
  | _ => 0
  end.

(** [sizeof(T)]; [sizeof(std::string)] is that of the usual 64-bit ABI. *)
Definition sizeof (T : NativeType) : Z :=
  match T with
  | int8_t | uint8_t | cpp_bool => 1
  | int16_t | uint16_t => 2
  | int32_t | uint32_t | float => 4
  | int64_t | uint64_t | double => 8
  | std_string => 32
  end.

Definition is_signed (T : NativeType) : bool :=
  match T with
  | int8_t | int16_t | int32_t | int64_t => true
  | _ => false
  end.

(** ** The JSON tree (Poco::Dynamic::Var, Poco::JSON::Object, Poco::JSON::Array) *)

(** A [Var] is empty (JSON null), holds a native value, or holds a pointer to
    an object or to an array. *)
Inductive Var :=
| Var_empty
| Var_hold (T : NativeType) (x : native T)
| Var_object (o : gmap string Var)
| Var_array (a : list Var).

Abbreviation Object := (gmap string Var).
Abbreviation JSON_Array := (list Var).

(** The services of the JSON library and of the base64 codec that the data
    model consumes without fixing them: the printer of an object, the codec,
    and the conversion of a [Var] to a type other than the one it holds. *)
Class Services := {
  stringify : Object -> Z -> string;
  base64_encode : list Byte.byte -> string;
  base64_decode : string -> list Byte.byte;
  holder_convert : forall T : NativeType, Var -> exception + native T;
}.

Definition endl : string := String (Ascii.ascii_of_nat 10) EmptyString.

Module JSON.

(** [Object::set]: insert or replace. *)
Definition set (json : Object) (key : string) (value : Var) : Object :=
  <[key := value]> json.

(** [Object::get]: the empty [Var] for a missing key. *)
Definition get (json : Object) (key : string) : Var :=
  default Var_empty (json !! key).

Definition has (json : Object) (key : string) : bool :=
  bool_decide (is_Some (json !! key)).

Definition isNull (json : Object) (key : string) : bool :=
  match json !! key with
  | None | Some Var_empty => true
  | _ => false
  end.

Definition isObject (json : Object) (key : string) : bool :=
  match json !! key with
  | Some (Var_object _) => true
  | _ => false
  end.

Definition isArray (json : Object) (key : string) : bool :=
  match json !! key with
  | Some (Var_array _) => true
  | _ => false
  end.

(** [Object::getObject]: the null pointer unless the key holds an object. *)
Definition getObject (json : Object) (key : string) : option Object :=
  match json !! key with
  | Some (Var_object o) => Some o
  | _ => None
  end.

Definition getArray (json : Object) (key : string) : option JSON_Array :=
  match json !! key with
  | Some (Var_array a) => Some a
  | _ => None
  end.

(** [Var::convert<T>]: an empty [Var] cannot be converted, a [Var] holding
    a [T] is extracted, any other is left to its holder. *)
Definition convert `{Services} (T : NativeType) (v : Var) : Outcome (native T) :=
  match v with
  | Var_empty => Throw InvalidAccessException
  | Var_hold T' x =>
      match decide (T' = T) with
      | left e => Return (eq_rect T' native x T e)
      | right _ => lift (holder_convert T v)
      end
  | _ => lift (holder_convert T v)
  end.

(** [Object::getValue<T>] *)
Definition getValue `{Services} (T : NativeType) (json : Object) (key : string) : Outcome (native T) :=
  convert T (get json key).

(** [Array::get]: the empty [Var] outside the array. *)
Definition Array_get (a : JSON_Array) (i : Z) : Var :=
  if decide (0 <= i) then default Var_empty (a !! Z.to_nat i) else Var_empty.

(** [Array::getElement<T>] *)
Definition getElement `{Services} (T : NativeType) (a : JSON_Array) (i : Z) : Outcome (native T) :=
  convert T (Array_get a i).

(** [Array::getArray] *)
Definition Array_getArray (a : JSON_Array) (i : Z) : option JSON_Array :=
  match Array_get a i with
  | Var_array b => Some b
  | _ => None
  end.

(** [Array::add] *)
Definition add (a : JSON_Array) (v : Var) : JSON_Array := a ++ [v].

End JSON.

(** [SAL_REPORT_DECODE_ERROR(e, json)] expanded in function [func]. *)
Definition SAL_REPORT_DECODE_ERROR `{Services} {A} (func : string) (e : exception) (json : Object) : Outcome A :=
  Throw (SALException
           ("JSON object does not define a valid SAL object in function: " +:+ func +:+ endl
            +:+ what e +:+ endl
            +:+ " json object: " +:+ endl
            +:+ stringify json 2)).

(** ** Attribute *)

(** The members of the base class [Attribute]. *)
Record Attribute_base := {
  m_type : AttributeType;
  m_type_name : string;
  m_group_name : string;
  m_is_summary : bool;
  m_description : string;
}.

Definition Attribute_ctor (_type : AttributeType) (_type_name : string) : Attribute_base :=
  {| m_type := _type; m_type_name := _type_name; m_group_name := "core";
     m_is_summary := false; m_description := "" |}.

Definition set_is_summary (b : bool) (a : Attribute_base) : Attribute_base :=
  {| m_type := m_type a; m_type_name := m_type_name a; m_group_name := m_group_name a;
     m_is_summary := b; m_description := m_description a |}.

Definition is_null (a : Attribute_base) : bool := bool_decide (m_type a = ATTR_NULL).
Definition is_boolean (a : Attribute_base) : bool := bool_decide (m_type a = ATTR_BOOL).
Definition is_array (a : Attribute_base) : bool := bool_decide (m_type a = ATTR_ARRAY).
Definition is_string (a : Attribute_base) : bool := bool_decide (m_type a = ATTR_STRING).
Definition is_object (a : Attribute_base) : bool := bool_decide (m_type a = ATTR_DICTIONARY).
Definition is_data_object (a : Attribute_base) : bool := bool_decide (m_type a = ATTR_DATA_OBJECT).
Definition is_number (a : Attribute_base) : bool :=
  negb (is_array a || is_string a || is_boolean a || is_null a || is_object a || is_data_object a).
Definition is_atomic (a : Attribute_base) : bool :=
  negb (is_array a || is_object a || is_null a).

(** [Attribute::encode_summary], the version of the base class: [encode]
    is the virtual [encode()] of the instance. *)
Definition Attribute_encode_summary (a : Attribute_base) (encode : Outcome Object) : Outcome Object :=
  let json := JSON.set ∅ "type" (Var_hold std_string (m_type_name a)) in
  if is_atomic a
  then j ← encode; Return (JSON.set json "value" (JSON.get j "value"))
  else Return json.

(** ** Null *)

Definition Null_ctor : Attribute_base := Attribute_ctor ATTR_NULL "null".

Definition Null_encode (a : Attribute_base) : Object :=
  let json := JSON.set ∅ "type" (Var_hold std_string (m_type_name a)) in
  JSON.set json "value" Var_empty.

(** ** Atomic<T> *)

Record Atomic (T : NativeType) := {
  atomic_base : Attribute_base;
  m_value : native T;
}.
Arguments atomic_base {T} _.
Arguments m_value {T} _.

Definition Atomic_ctor (T : NativeType) (_value : native T) : Outcome (Atomic T) :=
  ty ← to_dtype (Native T);
  name ← to_dtype_name (Native T);
  Return {| atomic_base := Attribute_ctor ty name; m_value := _value |}.

Definition value {T} (a : Atomic T) : native T := m_value a.

Definition Atomic_encode {T} (a : Atomic T) : Object :=
  let json := JSON.set ∅ "type" (Var_hold std_string (m_type_name (atomic_base a))) in
  JSON.set json "value" (Var_hold T (m_value a)).

(** [Atomic<T>::decode]: the statements of its [try] block, and the
    function with its [catch (...)]. *)
Definition Atomic_decode_try `{Services} (T : NativeType) (json : Object) : Outcome (Atomic T) :=
  ty ← JSON.getValue std_string json "type";
  name ← to_dtype_name (Native T);
  if decide (ty ≠ name)
  then Throw (SALException "type name in json does not match template datatype")
  else v ← JSON.getValue T json "value"; Atomic_ctor T v.

Definition Atomic_decode `{Services} (T : NativeType) (json : Object) : Outcome (Atomic T) :=
  try_catch
    (Atomic_decode_try T json)
    (fun _ =>
       Throw (SALException
                ("JSON object does not define a valid SAL scalar/atomic attribute. json obejct is "
                 +:+ endl +:+ stringify json 2))).

(** ** IArray and Array<T> *)

Abbreviation ShapeType := (list Z).

Record IArray := {
  array_base : Attribute_base;
  m_dimension : Z;
  m_shape : ShapeType;
  m_strides : ShapeType;
}.

(** The loop [while (i >= 0) { m_strides[i] = m_strides[i + 1] * m_shape[i + 1]; i--; }]
    with [k = i + 1] iterations left. *)
Fixpoint strides_loop (k : nat) (m_shape m_strides : ShapeType) : Outcome ShapeType :=
  match k with
  | O => Return m_strides
  | S k' =>
      let i := Z.of_nat k' in
      s ← vec_get m_strides (i + 1);
      d ← vec_get m_shape (i + 1);
      m_strides' ← vec_set m_strides i (uint64 (s * d));
      strides_loop k' m_shape m_strides'
  end.

Definition IArray_ctor (_shape : ShapeType) : Outcome IArray :=
  let m_dimension := uint8 (Z.of_nat (length _shape)) in
  let m_shape := _shape in
  let m_strides := resize m_dimension 0 [] in
  let i := int16 (m_dimension - 1) in
  m_strides ← vec_set m_strides i 1;
  let i := int16 (i - 1) in
  m_strides ← strides_loop (Z.to_nat (i + 1)) m_shape m_strides;
  Return {| array_base := Attribute_ctor ATTR_ARRAY TYPE_NAME_ARRAY;
            m_dimension := m_dimension; m_shape := m_shape; m_strides := m_strides |}.

Record Array (T : NativeType) := {
  iarray : IArray;
  m_element_type : AttributeType;
  m_element_type_name : string;
  data : list (native T);
}.
Arguments iarray {T} _.
Arguments m_element_type {T} _.
Arguments m_element_type_name {T} _.
Arguments data {T} _.

Definition set_data {T} (d : list (native T)) (a : Array T) : Array T :=
  {| iarray := iarray a; m_element_type := m_element_type a;
     m_element_type_name := m_element_type_name a; data := d |}.

Definition Array_set_is_summary {T} (b : bool) (a : Array T) : Array T :=
  {| iarray := {| array_base := set_is_summary b (array_base (iarray a));
                  m_dimension := m_dimension (iarray a); m_shape := m_shape (iarray a);
                  m_strides := m_strides (iarray a) |};
     m_element_type := m_element_type a;
     m_element_type_name := m_element_type_name a; data := data a |}.

(** [Array(ShapeType _shape, AttributeType _type, const std::string _type_name)].
    [data.resize(element_size)] is taken to return: the [std::length_error]
    or [std::bad_alloc] it throws when the buffer asked for exceeds what
    the machine can give is outside the model, so a statement that the
    constructor returns is about buffers the machine can hold. *)
Definition Array_ctor3 (T : NativeType) (_shape : ShapeType) (_type : AttributeType)
    (_type_name : string) : Outcome (Array T) :=
  base ← IArray_ctor _shape;
  let element_size := foldl (fun acc d => uint64 (acc * d)) 1 (m_shape base) in
  Return {| iarray := base; m_element_type := _type; m_element_type_name := _type_name;
            data := resize element_size (default_value T) [] |}.

(** [Array(ShapeType _shape)] *)
Definition Array_ctor (T : NativeType) (_shape : ShapeType) : Outcome (Array T) :=
  ty ← to_dtype (Native T);
  name ← to_dtype_name (Native T);
  Array_ctor3 T _shape ty name.

(** [class BoolArray : public Array<uint8_t>] *)
Definition BoolArray_ctor (_shape : ShapeType) : Outcome (Array uint8_t) :=
  Array_ctor3 uint8_t _shape ATTR_BOOL "bool".

Definition shape {T} (a : Array T) : ShapeType := m_shape (iarray a).
Definition dimension {T} (a : Array T) : Z := Z.of_nat (length (m_shape (iarray a))).
Definition strides {T} (a : Array T) : ShapeType := m_strides (iarray a).
Definition element_type_name {T} (a : Array T) : string := m_element_type_name a.
Definition size {T} (a : Array T) : Z := Z.of_nat (length (data a)).
Definition is_summary {T} (a : Array T) : bool := m_is_summary (array_base (iarray a)).
Definition type_name {T} (a : Array T) : string := m_type_name (array_base (iarray a)).

(** [data_pointer()]: the buffer, refused for the string element type. *)
Definition data_pointer {T} (a : Array T) : Outcome (list (native T)) :=
  if decide (element_type_name a ≠ "string")
  then Return (data a)
  else Throw (SALException "Should not use Array<String>::data_pointer()").

(** [operator[]] *)
Definition subscript {T} (a : Array T) (index : Z) : Outcome (native T) :=
  vec_get (data a) index.

(** [a[index] = x] *)
Definition subscript_assign {T} (a : Array T) (index : Z) (x : native T) : Outcome (Array T) :=
  d ← vec_set (data a) index x;
  Return (set_data d a).

(** [operator()(row, column)]: the flattened index, then the element. *)
Definition call_index {T} (a : Array T) (row column : Z) : Outcome Z :=
  s ← vec_get (m_strides (iarray a)) 0;
  Return (uint64 (row * s + column)).

Definition call {T} (a : Array T) (row column : Z) : Outcome (native T) :=
  index ← call_index a row column;
  vec_get (data a) index.

(** The values that the parameters of [at(int i0, int64_t i1, ...)]
    receive for the arguments of a call: the first argument is converted
    to [int], the others to [int64_t] (a value outside the type wraps,
    modulo 2^32 and 2^64). *)
Definition at_arguments (supplied : list Z) : list Z :=
  match supplied with
  | [] => []
  | i0 :: rest => int32 i0 :: (int64 <$> rest)
  end.

(** The array [dim_index] of [at]: the parameters as received, those
    without an argument at their default -1. *)
Definition dim_index_of (supplied : list Z) : list Z :=
  take 10 (at_arguments supplied ++ replicate 10 (-1)).

(** The body of [at(i0, ..., i9)] up to the computation of
    [element_index]. *)
Definition at_body {T} (a : Array T) (supplied : list Z) : Outcome Z :=
  if decide (m_dimension (iarray a) > 10)
  then Throw (std_out_of_range "The at() method can only be used with arrays of 10 dimensions of less.")
  else
    let dim_index := dim_index_of supplied in
    for_loop (Z.to_nat (m_dimension (iarray a))) 0
      (fun i element_index =>
         ix ← vec_get dim_index i;
         if decide (ix < 0)
         then Throw (std_out_of_range "An array index is missing or is out of bounds.")
         else
           d ← vec_get (m_shape (iarray a)) i;
           if decide (uint64 ix > uint64 (d - 1))
           then Throw (std_out_of_range "An array index is missing or is out of bounds.")
           else
             s ← vec_get (m_strides (iarray a)) i;
             Return (uint64 (element_index + ix * s)))
      0.

(** [at] is declared [throw()]: the [std::out_of_range] of its body ends
    in [std::terminate].  [at_index] is the element index the call
    computes, [at_] the call; the access to the buffer that follows the
    computation throws nothing. *)
Definition at_index {T} (a : Array T) (supplied : list Z) : Outcome Z :=
  throw_none (at_body a supplied).

Definition at_ {T} (a : Array T) (supplied : list Z) : Outcome (native T) :=
  throw_none
    (element_index ← at_body a supplied;
     vec_get (data a) element_index).

(** *** Encoding *)

Definition encode_shape {T} (a : Array T) : Outcome JSON_Array :=
  for_uint8 (Z.of_nat (length (m_shape (iarray a))))
    (fun i shape => d ← vec_get (m_shape (iarray a)) i; Return (JSON.add shape (Var_hold uint64_t d)))
    [].

Definition Array_encode_summary {T} (a : Array T) : Outcome Object :=
  s ← encode_shape a;
  Return (JSON.set ∅ "shape" (Var_array s)).

Definition encoding {T} (a : Array T) : string :=
  if decide (element_type_name a = "string") then "list" else "base64".

Definition byte_of_Z (z : Z) : Byte.byte :=
  default Byte.x00 (Byte.of_N (Z.to_N (z mod 256))).
Definition Z_of_byte (b : Byte.byte) : Z := Z.of_N (Byte.to_N b).

(** The object representation of an element: little-endian, [sizeof T]
    bytes.  That of a [std::string] object is not modelled (the string
    element type never takes the binary path of [encode] and [decode]). *)
Definition pack (T : NativeType) : native T -> list Byte.byte :=
  match T return native T -> list Byte.byte with
  | cpp_bool => fun b => [byte_of_Z (if b then 1 else 0)]
  | std_string => fun _ => []
  | T' => fun z : Z => (fun k => byte_of_Z (z / 2 ^ (8 * Z.of_nat k))) <$> seq 0 (Z.to_nat (sizeof T'))
  end.

Definition le_value (bytes : list Byte.byte) : Z :=
  foldr (fun b acc => Z_of_byte b + 256 * acc) 0 bytes.

Definition unpack (T : NativeType) (bytes : list Byte.byte) : native T :=
  match T return native T with
  | cpp_bool => negb (Z.eqb (le_value bytes) 0)
  | std_string => ""
  | T' =>
      let u := le_value bytes in
      if is_signed T' && Z.leb (2 ^ (8 * sizeof T' - 1)) u then u - 2 ^ (8 * sizeof T') else u
  end.

(** The bytes of the buffer, and the buffer of [count] elements that a byte
    image holds. *)
Definition buffer_bytes {T} (d : list (native T)) : list Byte.byte :=
  d ≫= pack T.

Definition buffer_of_bytes (T : NativeType) (count : nat) (bytes : list Byte.byte) : list (native T) :=
  (fun k => unpack T (take (Z.to_nat (sizeof T)) (drop (k * Z.to_nat (sizeof T)) bytes))) <$> seq 0 count.

(** [encode_data]: the base64 text of the buffer bytes. *)
Definition encode_data `{Services} {T} (a : Array T) : string :=
  base64_encode (buffer_bytes (data a)).

(** [encode_data_to_json_array(dimension, offset)].  [dimension] is an 8-bit
    counter: if 256 nested calls do not reach [m_dimension - 1], none does. *)
Fixpoint encode_data_to_json_array_rec {T} (fuel : nat) (a : Array T) (dimension offset : Z)
    : Outcome JSON_Array :=
  match fuel with
  | O => Diverge
  | S fuel' =>
      if decide (dimension = m_dimension (iarray a) - 1)
      then
        n ← vec_get (shape a) dimension;
        for_uint64 n
          (fun i json => x ← vec_get (data a) (offset + i); Return (JSON.add json (Var_hold T x)))
          []
      else
        n ← vec_get (shape a) dimension;
        for_uint64 n
          (fun i json =>
             s ← vec_get (m_strides (iarray a)) dimension;
             sub ← encode_data_to_json_array_rec fuel' a (uint8 (dimension + 1)) (uint64 (offset + i * s));
             Return (JSON.add json (Var_array sub)))
          []
  end.

Definition encode_data_to_json_array {T} (a : Array T) (dimension offset : Z) : Outcome JSON_Array :=
  encode_data_to_json_array_rec 256 a dimension offset.

Definition Array_encode `{Services} {T} (a : Array T) : Outcome Object :=
  sh ← encode_shape a;
  let array_definition := JSON.set ∅ "type" (Var_hold std_string (m_element_type_name a)) in
  let array_definition := JSON.set array_definition "shape" (Var_array sh) in
  let array_definition := JSON.set array_definition "encoding" (Var_hold std_string (encoding a)) in
  if is_summary a
  then Throw (SALException "this is an summary without data")
  else
    array_definition ←
      (if decide (element_type_name a = "string")
       then d ← encode_data_to_json_array a 0 0;
            Return (JSON.set array_definition "data" (Var_array d))
       else Return (JSON.set array_definition "data" (Var_hold std_string (encode_data a))));
    let json_obj := JSON.set ∅ "type" (Var_hold std_string (type_name a)) in
    Return (JSON.set json_obj "value" (Var_object array_definition)).

(** *** Decoding *)

Definition decode_shape `{Services} (encoded : option JSON_Array) : Outcome ShapeType :=
  e ← deref encoded;
  let n := Z.of_nat (length e) in
  for_uint8 n
    (fun i shape => x ← JSON.getElement uint64_t e i; vec_set shape i (x : Z))
    (resize n 0 []).

(** [decode_data]: [decoder.read] stores the bytes it gets, at most
    [size() * sizeof(T)], at the start of the buffer and leaves the rest. *)
Definition decode_data `{Services} {T} (arr : Array T) (b64 : string) : Outcome (Array T) :=
  _ ← data_pointer arr;
  let old := buffer_bytes (data arr) in
  let got := take (Z.to_nat (uint64 (size arr * sizeof T))) (base64_decode b64) in
  let bytes := got ++ drop (length got) old in
  Return (set_data (buffer_of_bytes T (length (data arr)) bytes) arr).

(** [decode_data_from_json_array(array, json, dimension, offset)]; the
    diagnostic line it prints is left out.  [dimension] is an 8-bit counter,
    as in [encode_data_to_json_array]. *)
Fixpoint decode_data_from_json_array_rec `{Services} {T} (fuel : nat) (array : Array T)
    (json : option JSON_Array) (dimension offset : Z) : Outcome (Array T) :=
  match fuel with
  | O => Diverge
  | S fuel' =>
      if decide (dimension = uint64 (Z.of_nat (length (shape array)) - 1))
      then
        n ← vec_get (shape array) dimension;
        for_uint64 n
          (fun i array =>
             j ← deref json;
             x ← JSON.getElement T j i;
             d ← vec_set (data array) (offset + i) x;
             Return (set_data d array))
          array
      else
        n ← vec_get (shape array) dimension;
        for_uint64 n
          (fun i array =>
             j ← deref json;
             s ← vec_get (strides array) dimension;
             decode_data_from_json_array_rec fuel' array (JSON.Array_getArray j i)
               (uint8 (dimension + 1)) (uint64 (offset + i * s)))
          array
  end.

Definition decode_data_from_json_array `{Services} {T} (array : Array T) (json : option JSON_Array)
    (dimension offset : Z) : Outcome (Array T) :=
  decode_data_from_json_array_rec 256 array json dimension offset.

(** [Array<T>::decode].  [arr] is the shared pointer the function starts
    from, null until [new Array<T>(shape)] is assigned to it. *)
Definition Array_decode `{Services} (T : NativeType) (json : Object) : Outcome (Array T) :=
  let arr : option (Array T) := None in
  ty ← JSON.getValue std_string json "type";
  if decide (ty ≠ TYPE_NAME_ARRAY)
  then Throw (SALException "type does not match, `array` is expected here")
  else
    if negb (JSON.has json "value")
    then
      a ← deref arr;
      let arr := Some (Array_set_is_summary true a) in
      if negb (JSON.isArray json "shape")
      then Throw (SALException "decoded shape is not an array")
      else
        shape ← decode_shape (JSON.getArray json "shape");
        a ← Array_ctor T shape;
        Return (set_data (resize 0 (default_value T) (data a)) a)
    else
      let array_definition := JSON.getObject json "value" in
      ad ← deref array_definition;
      input_type ← JSON.getValue std_string ad "type";
      name ← to_dtype_name (Native T);
      if decide (input_type ≠ "bool" ∧ input_type ≠ name)
      then Throw (SALException "internal element type and input json data type does not match")
      else
        _encoding ← JSON.getValue std_string ad "encoding";
        if negb (bool_decide (_encoding = "base64") || bool_decide (_encoding = "list"))
        then Throw (SALException "encoding is not supported")
        else
          shape ← decode_shape (JSON.getArray ad "shape");
          a ← Array_ctor T shape;
          let a := Array_set_is_summary false a in
          if decide (element_type_name a = "string")
          then decode_data_from_json_array a (JSON.getArray ad "data") 0 0
          else
            data_str ← JSON.getValue std_string ad "data";
            decode_data a data_str.

(** An [IArray::Ptr]: an array of some element type. *)
Abbreviation IArray_Ptr := (sigT Array).

Definition as_IArray (T : NativeType) (c : Outcome (Array T)) : Outcome IArray_Ptr :=
  existT T <$> c.

(** [decode_array]: [BoolArray::decode] is the inherited [Array<uint8_t>::decode]. *)
Definition decode_array `{Services} (json : Object) : Outcome IArray_Ptr :=
  el_type_name ←
    try_catch
      (let array_definition := JSON.getObject json "value" in
       ad ← deref array_definition;
       JSON.getValue std_string ad "type")
      (fun e => SAL_REPORT_DECODE_ERROR "decode_array" e json);
  if decide (el_type_name = TYPE_NAME_INT8) then as_IArray int8_t (Array_decode int8_t json)
  else if decide (el_type_name = TYPE_NAME_INT16) then as_IArray int16_t (Array_decode int16_t json)
  else if decide (el_type_name = TYPE_NAME_INT32) then as_IArray int32_t (Array_decode int32_t json)
  else if decide (el_type_name = TYPE_NAME_INT64) then as_IArray int64_t (Array_decode int64_t json)
  else if decide (el_type_name = TYPE_NAME_UINT8) then as_IArray uint8_t (Array_decode uint8_t json)
  else if decide (el_type_name = TYPE_NAME_UINT16) then as_IArray uint16_t (Array_decode uint16_t json)
  else if decide (el_type_name = TYPE_NAME_UINT32) then as_IArray uint32_t (Array_decode uint32_t json)
  else if decide (el_type_name = TYPE_NAME_UINT64) then as_IArray uint64_t (Array_decode uint64_t json)
  else if decide (el_type_name = TYPE_NAME_FLOAT32) then as_IArray float (Array_decode float json)
  else if decide (el_type_name = TYPE_NAME_FLOAT64) then as_IArray double (Array_decode double json)
  else if decide (el_type_name = TYPE_NAME_BOOL) then as_IArray uint8_t (Array_decode uint8_t json)
  else if decide (el_type_name = TYPE_NAME_STRING) then as_IArray std_string (Array_decode std_string json)
  else Throw (SALException ("data type string `" +:+ el_type_name +:+ "` is not supported")).

(** ** Dictionary and the attribute hierarchy *)

(** An [Attribute::Ptr] points to an instance of one of the classes. *)
Inductive Attribute :=
| A_Null (base : Attribute_base)
| A_Atomic (T : NativeType) (a : Atomic T)
| A_Array (T : NativeType) (a : Array T)
| A_Dictionary (base : Attribute_base) (attributes : gmap string Attribute).

Record Dictionary := {
  dictionary_base : Attribute_base;
  attributes : gmap string Attribute;
}.

Definition as_Attribute (d : Dictionary) : Attribute :=
  A_Dictionary (dictionary_base d) (attributes d).

Definition Dictionary_ctor : Dictionary :=
  {| dictionary_base := Attribute_ctor ATTR_DICTIONARY TYPE_NAME_DICTIONARY; attributes := ∅ |}.

Module Dict.

(** [std::map::at] throws for a missing key. *)
Definition get (d : Dictionary) (key : string) : Outcome Attribute :=
  match attributes d !! key with
  | Some a => Return a
  | None => Throw (std_out_of_range "map::at")
  end.

Definition set (d : Dictionary) (key : string) (attribute : Attribute) : Dictionary :=
  {| dictionary_base := dictionary_base d; attributes := <[key := attribute]> (attributes d) |}.

Definition has (d : Dictionary) (key : string) : bool :=
  bool_decide (is_Some (attributes d !! key)).

Definition remove (d : Dictionary) (key : string) : Dictionary :=
  {| dictionary_base := dictionary_base d; attributes := delete key (attributes d) |}.

Definition set_is_summary (b : bool) (d : Dictionary) : Dictionary :=
  {| dictionary_base := set_is_summary b (dictionary_base d); attributes := attributes d |}.

Definition is_summary (d : Dictionary) : bool := m_is_summary (dictionary_base d).

End Dict.

Definition Dictionary_encode_summary (d : Dictionary) : Object := ∅.

(** [Dictionary::decode_items]; [decode] is the dispatcher declared ahead of
    the class.  The loop visits the keys that [getNames] lists. *)
Definition decode_items `{Services} (decode : Object -> Outcome Attribute) (json : Object)
    (container : Dictionary) : Outcome Dictionary :=
  let contents := JSON.getObject json "items" in
  c ← deref contents;
  map_fold
    (fun key _ acc =>
       container ← acc;
       if JSON.isNull c key then Return container
       else if negb (JSON.isObject c key)
       then Throw (SALException "all valid attributes definitions must be JSON objects")
       else
         child ← deref (JSON.getObject c key);
         a ← decode child;
         Return (Dict.set container key a))
    (Return container) c.

(** [Dictionary::decode]: the statements of its [try] block, and the
    function with its [catch (std::exception& e)]. *)
Definition Dictionary_decode_try `{Services} (decode : Object -> Outcome Attribute) (json : Object)
    : Outcome Dictionary :=
  ty ← JSON.getValue std_string json "type";
  if decide (ty ≠ TYPE_NAME_DICTIONARY)
  then Throw (SALException "data type does not match")
  else
    let container := Dictionary_ctor in
    if JSON.has json "items"
    then
      container ← decode_items decode json container;
      Return (Dict.set_is_summary false container)
    else Return (Dict.set_is_summary true container).

Definition Dictionary_decode_with `{Services} (decode : Object -> Outcome Attribute) (json : Object)
    : Outcome Dictionary :=
  try_catch
    (Dictionary_decode_try decode json)
    (fun e => SAL_REPORT_DECODE_ERROR "decode" e json).

(** The body of the dispatcher [decode], with the decoder used for the
    children of a dictionary as a parameter. *)
Definition decode_body `{Services} (decode : Object -> Outcome Attribute) (json : Object)
    : Outcome Attribute :=
  id ← try_catch (JSON.getValue std_string json "type")
         (fun _ => Throw (SALException "JSON object does not define a valid SAL attribute."));
  if decide (id = TYPE_NAME_DICTIONARY) then as_Attribute <$> Dictionary_decode_with decode json
  else if decide (id = TYPE_NAME_ARRAY)
  then (fun p : IArray_Ptr => A_Array (projT1 p) (projT2 p)) <$> decode_array json
  else if decide (id = TYPE_NAME_INT8) then A_Atomic int8_t <$> Atomic_decode int8_t json
  else if decide (id = TYPE_NAME_INT16) then A_Atomic int16_t <$> Atomic_decode int16_t json
  else if decide (id = TYPE_NAME_INT32) then A_Atomic int32_t <$> Atomic_decode int32_t json
  else if decide (id = TYPE_NAME_INT64) then A_Atomic int64_t <$> Atomic_decode int64_t json
  else if decide (id = TYPE_NAME_UINT8) then A_Atomic uint8_t <$> Atomic_decode uint8_t json
  else if decide (id = TYPE_NAME_UINT16) then A_Atomic uint16_t <$> Atomic_decode uint16_t json
  else if decide (id = TYPE_NAME_UINT32) then A_Atomic uint32_t <$> Atomic_decode uint32_t json
  else if decide (id = TYPE_NAME_UINT64) then A_Atomic uint64_t <$> Atomic_decode uint64_t json
  else if decide (id = TYPE_NAME_FLOAT32) then A_Atomic float <$> Atomic_decode float json
  else if decide (id = TYPE_NAME_FLOAT64) then A_Atomic double <$> Atomic_decode double json
  else if decide (id = TYPE_NAME_BOOL) then A_Atomic cpp_bool <$> Atomic_decode cpp_bool json
  else if decide (id = TYPE_NAME_STRING) then A_Atomic std_string <$> Atomic_decode std_string json
  else Throw (SALException "JSON object does not define a valid SAL attribute.").

(** The number of objects nested in one another. *)
Fixpoint nesting (v : Var) : nat :=
  match v with
  | Var_object o => S (map_fold (fun _ x acc => Nat.max (nesting x) acc) O o)
  | _ => O
  end.

(** [decode] calls itself on the children of a dictionary; [n] bounds the
    depth of these calls. *)
Fixpoint decode_fuel `{Services} (n : nat) (json : Object) : Outcome Attribute :=
  match n with
  | O => Diverge
  | S n' => decode_body (decode_fuel n') json
  end.

(** [sal::object::decode]: the nesting of the object is a bound on the
    depth of the recursion (see [decode_unfold]). *)
Definition decode `{Services} (json : Object) : Outcome Attribute :=
  decode_fuel (nesting (Var_object json)) json.

Definition Dictionary_decode `{Services} (json : Object) : Outcome Dictionary :=
  Dictionary_decode_with decode json.

(** The virtual [encode()] and [encode_summary()]. *)
Fixpoint encode `{Services} (a : Attribute) : Outcome Object :=
  match a with
  | A_Null b => Return (Null_encode b)
  | A_Atomic T x => Return (Atomic_encode x)
  | A_Array T x => Array_encode x
  | A_Dictionary b attrs =>
      value ← map_fold
                (fun key child acc =>
                   value ← acc;
                   j ← encode child;
                   Return (JSON.set value key (Var_object j)))
                (Return ∅) attrs;
      let json := JSON.set ∅ "type" (Var_hold std_string (m_type_name b)) in
      Return (JSON.set json "items" (Var_object value))
  end.

Definition encode_summary `{Services} (a : Attribute) : Outcome Object :=
  match a with
  | A_Null b => Attribute_encode_summary b (encode a)
  | A_Atomic T x => Attribute_encode_summary (atomic_base x) (encode a)
  | A_Array T x => Array_encode_summary x
  | A_Dictionary b attrs =>
      Return (Dictionary_encode_summary {| dictionary_base := b; attributes := attrs |})
  end.

(** ** Reference definitions for the statements *)

(** The strides of a shape in row-major order, as equations: the last
    stride is 1 and [stride[i] = stride[i+1] * shape[i+1]] in 64 bits. *)
Fixpoint row_major (shape : ShapeType) : ShapeType :=
  match shape with
  | [] => []
  | _ :: rest =>
      let tail := row_major rest in
      match head rest, head tail with
      | Some d, Some s => uint64 (s * d)
      | _, _ => 1
      end :: tail
  end.

(** An extent as [encode_shape] stores it: a [Var] holding a [uint64_t]. *)
Definition extent (d : Z) : Var := Var_hold uint64_t d.

(** The messages of the two wrappers. *)
Definition atomic_decode_message `{Services} (json : Object) : string :=
  "JSON object does not define a valid SAL scalar/atomic attribute. json obejct is "
  +:+ endl +:+ stringify json 2.

Definition decode_error_message `{Services} (func : string) (cause : exception) (json : Object) : string :=
  "JSON object does not define a valid SAL object in function: " +:+ func +:+ endl
  +:+ what cause +:+ endl +:+ " json object: " +:+ endl +:+ stringify json 2.

(** An instance of the services for the examples: a holder of a number
    converts to every number type without a check (and to no string), the
    printer and the codec write the bytes as they are. *)
Definition number_of (v : Var) : option Z :=
  match v with
  | Var_hold T x =>
      match T return native T -> option Z with
      | cpp_bool => fun b : bool => Some (if b then 1 else 0)
      | std_string => fun _ => None
      | _ => fun z : Z => Some z
      end x
  | _ => None
  end.

Definition coerce (T : NativeType) (v : Var) : exception + native T :=
  match T return exception + native T with
  | std_string => inl (Poco_Exception "Bad cast")
  | cpp_bool =>
      match number_of v with
      | Some z => inr (negb (Z.eqb z 0))
      | None => inl (Poco_Exception "Bad cast")
      end
  | _ =>
      match number_of v with
      | Some z => inr z
      | None => inl (Poco_Exception "Bad cast")
      end
  end.

Definition coercing_services : Services :=
  {| stringify := fun _ _ => "{...}";
     base64_encode := String.string_of_list_byte;
     base64_decode := String.list_byte_of_string;
     holder_convert := coerce |}.

(** Wire objects of the examples. *)
Definition wire (fields : list (string * Var)) : Object := list_to_map fields.
Definition str (s : string) : Var := Var_hold std_string s.

Definition float32_scalar : Object :=
  wire [("type", str "float32"); ("value", Var_hold float 1069547520)].

Definition array_summary_3_4 : Object :=
  wire [("type", str "array"); ("shape", Var_array [Var_hold uint64_t 3; Var_hold uint64_t 4])].

Definition array_without_encoding : Object :=
  wire [("type", str "array");
        ("value", Var_object (wire [("type", str "int32");
                                    ("shape", Var_array [Var_hold uint64_t 2]);
                                    ("data", str "")]))].

Definition empty_shape_wire : Object :=
  wire [("type", str "array");
        ("value", Var_object (wire [("type", str "int32");
                                    ("shape", Var_array []);
                                    ("encoding", str "base64");
                                    ("data", str "")]))].



Definition items_with_null : Object :=
  wire [("a", Var_empty);
        ("b", Var_object (wire [("type", str "int32"); ("value", Var_hold int32_t 7)]))].

Definition dictionary_with_null : Object :=
  wire [("type", str "dictionary"); ("items", Var_object items_with_null)].

(** A [StringArray({2, 2})] filled in row-major order. *)
Definition string_array_2_2 (s00 s01 s10 s11 : string) : Outcome (Array std_string) :=
  a ← Array_ctor std_string [2; 2];
  a ← subscript_assign (T := std_string) a 0 s00;
  a ← subscript_assign (T := std_string) a 1 s01;
  a ← subscript_assign (T := std_string) a 2 s10;
  subscript_assign (T := std_string) a 3 s11.

Definition dictionary_summary_wire : Object := wire [("type", str "dictionary")].

Definition dictionary_with_number : Object :=
  wire [("type", str "dictionary");
        ("items", Var_object (wire [("n", Var_hold int32_t 1)]))].

Definition signal_wire : Object := wire [("type", str "signal")].

(** The wire type names that the dispatcher routes. *)
Definition dispatched_names : list string :=
  [ TYPE_NAME_DICTIONARY; TYPE_NAME_ARRAY;
    TYPE_NAME_INT8; TYPE_NAME_INT16; TYPE_NAME_INT32; TYPE_NAME_INT64;
    TYPE_NAME_UINT8; TYPE_NAME_UINT16; TYPE_NAME_UINT32; TYPE_NAME_UINT64;
    TYPE_NAME_FLOAT32; TYPE_NAME_FLOAT64; TYPE_NAME_BOOL; TYPE_NAME_STRING ].

(** The array that [Int32Array({2, 3})] builds. *)
Definition array_2_3 : Array int32_t :=
  {| iarray := {| array_base := Attribute_ctor ATTR_ARRAY TYPE_NAME_ARRAY;
                  m_dimension := 2; m_shape := [2; 3]; m_strides := [3; 1] |};
     m_element_type := ATTR_INT32;
     m_element_type_name := "int32";
     data := replicate 6 (default_value int32_t) |}.

(** The children that [decode_items] hands to the dispatcher. *)
Definition child_of (json child : Object) : Prop :=
  ∃ (c : Object) (k : string),
    json !! "items" = Some (Var_object c) ∧ c !! k = Some (Var_object child).


(** What [decode_items] makes of the entries [m] of "items", starting from
    [container]: if it returns, every entry is null or an object that [dec]
    decodes, the null entries are skipped and each object is stored, decoded,
    under its key; if it does not return, some entry is neither. *)
Definition items_decoded (dec : Object -> Outcome Attribute) (container : Dictionary)
    (m : Object) (r : Outcome Dictionary) : Prop :=
  match r with
  | Return d =>
      dictionary_base d = dictionary_base container
      ∧ (∀ k, attributes d !! k =
              match m !! k with
              | Some (Var_object o) => match dec o with Return a => Some a | _ => None end
              | _ => attributes container !! k
              end)
      ∧ (∀ k v, m !! k = Some v → v = Var_empty ∨ ∃ o a, v = Var_object o ∧ dec o = Return a)
  | _ =>
      ∃ k v, m !! k = Some v ∧ v ≠ Var_empty ∧ ∀ o a, v = Var_object o → dec o ≠ Return a
  end.

(** ** Casts of an attribute pointer *)

(** [Ptr.cast<Atomic<T>>()]: the null pointer unless the instance is an
    [Atomic<T>]. *)
Definition cast_Atomic (T : NativeType) (a : Attribute) : option (Atomic T) :=
  match a with
  | A_Atomic T' x =>
      match decide (T' = T) with
      | left e => Some (eq_rect T' Atomic x T e)
      | right _ => None
      end
  | _ => None
  end.

(** [Ptr.cast<Array<T>>()] *)
Definition cast_Array (T : NativeType) (a : Attribute) : option (Array T) :=
  match a with
  | A_Array T' x =>
      match decide (T' = T) with
      | left e => Some (eq_rect T' Array x T e)
      | right _ => None
      end
  | _ => None
  end.

(** [Ptr.cast<Dictionary>()] *)
Definition cast_Dictionary (a : Attribute) : option Dictionary :=
  match a with
  | A_Dictionary b attrs => Some {| dictionary_base := b; attributes := attrs |}
  | _ => None
  end.

(** [decode_as<T>(json)]: [decode(json).cast<T>()], the null pointer if the
    cast is invalid. *)
Definition decode_as_Atomic `{Services} (T : NativeType) (json : Object) : Outcome (option (Atomic T)) :=
  a ← decode json; Return (cast_Atomic T a).

Definition decode_as_Array `{Services} (T : NativeType) (json : Object) : Outcome (option (Array T)) :=
  a ← decode json; Return (cast_Array T a).

Definition decode_as_Dictionary `{Services} (json : Object) : Outcome (option Dictionary) :=
  a ← decode json; Return (cast_Dictionary a).

(** [Dictionary::get_as<T>(key)] *)
Definition get_as_Atomic (T : NativeType) (d : Dictionary) (key : string) : Outcome (option (Atomic T)) :=
  a ← Dict.get d key; Return (cast_Atomic T a).

Definition get_as_Array (T : NativeType) (d : Dictionary) (key : string) : Outcome (option (Array T)) :=
  a ← Dict.get d key; Return (cast_Array T a).

Definition get_as_Dictionary (d : Dictionary) (key : string) : Outcome (option Dictionary) :=
  a ← Dict.get d key; Return (cast_Dictionary a).

(** What a checked cast of the result of [source] to a class, injected
    into the attributes by [inj], does: a pointer exactly for an instance of
    the class, the null pointer exactly for another instance, and the
    exceptions of [source]. *)
Definition checked_cast {A} (result : Outcome (option A)) (source : Outcome Attribute)
    (inj : A -> Attribute) : Prop :=
  (∀ x, result = Return (Some x) ↔ source = Return (inj x))
  ∧ (result = Return None ↔ ∃ a, source = Return a ∧ ∀ x, a ≠ inj x)
  ∧ (∀ e, result = Throw e ↔ source = Throw e).

(** The base-class members of an attribute. *)
Definition base_of (a : Attribute) : Attribute_base :=
  match a with
  | A_Null b => b
  | A_Atomic _ x => atomic_base x
  | A_Array _ x => array_base (iarray x)
  | A_Dictionary b _ => b
  end.

(** The native types of numbers. *)
Definition is_numeric (T : NativeType) : bool :=
  match T with
  | cpp_bool | std_string => false
  | _ => true
  end.

(** The number of elements of a shape, the strides as products of the
    extents that follow, and the row-major offset of a multi-index. *)
Definition extents_product (shape : ShapeType) : Z := foldr Z.mul 1 shape.

Fixpoint suffix_products (shape : ShapeType) : ShapeType :=
  match shape with
  | [] => []
  | _ :: rest => extents_product rest :: suffix_products rest
  end.

Fixpoint flat_index (shape idx : list Z) : Z :=
  match shape, idx with
  | _ :: shape', ix :: idx' => ix * extents_product shape' + flat_index shape' idx'
  | _, _ => 0
  end.

(** An index within its extent. *)
Definition within (ix e : Z) : Prop := 0 <= ix < e.

(** Arguments of [at] in the range of the parameters: an [int], then
    [int64_t]s. *)
Definition fits_parameters (supplied : list Z) : Prop :=
  match supplied with
  | [] => True
  | i0 :: rest =>
      - 2 ^ 31 <= i0 < 2 ^ 31 ∧ Forall (fun i => - 2 ^ 63 <= i < 2 ^ 63) rest
  end.

(** The values an element of type [T] takes: the range of an integer type,
    the bit patterns of a floating-point type. *)
Definition representable (T : NativeType) : native T -> bool :=
  match T return native T -> bool with
  | cpp_bool | std_string => fun _ => true
  | T' => fun z : Z =>
      if is_signed T'
      then Z.leb (- 2 ^ (8 * sizeof T' - 1)) z && Z.ltb z (2 ^ (8 * sizeof T' - 1))
      else Z.leb 0 z && Z.ltb z (2 ^ (8 * sizeof T'))
  end.

(** An attribute that survives the wire: its encoding decodes to itself. *)
Definition roundtrips `{Services} (a : Attribute) : Prop :=
  ∃ json, encode a = Return json ∧ decode json = Return a.

(** The loop of [Dictionary::encode], and what it leaves in "items" for a
    child. *)
Definition encode_items `{Services} (attrs : gmap string Attribute) : Outcome Object :=
  map_fold
    (fun key child acc =>
       value ← acc;
       j ← encode child;
       Return (JSON.set value key (Var_object j)))
    (Return ∅) attrs.

Definition encoded_child `{Services} (a : Attribute) : option Var :=
  match encode a with
  | Return j => Some (Var_object j)
  | _ => None
  end.

(** The number of elements of a shape, and the nested list that holds the
    elements [d] of an array of that shape in row-major order: one level of
    nesting per dimension. *)
Definition elements (shape : ShapeType) : nat := Z.to_nat (extents_product shape).

Fixpoint nested (T : NativeType) (shape : ShapeType) (d : list (native T)) : JSON_Array :=
  match shape with
  | [] => []
  | n :: rest =>
      match rest with
      | [] => Var_hold T <$> take (Z.to_nat n) d
      | _ :: _ =>
          (fun i => Var_array (nested T rest (drop (i * elements rest) d))) <$> seq 0 (Z.to_nat n)
      end
  end.

(** The list [l] with [chunk] written over it from position [off] on. *)
Definition splice {A} (off : nat) (chunk l : list A) : list A :=
  take off l ++ chunk ++ drop (off + length chunk) l.

(** The array that [Int32Array(ShapeType(257, 1))] builds: the 8-bit
    [m_dimension] holds 257 mod 256. *)
Definition array_of_rank_257 : Array int32_t :=
  {| iarray := {| array_base := Attribute_ctor ATTR_ARRAY TYPE_NAME_ARRAY;
                  m_dimension := 1; m_shape := replicate 257 1; m_strides := [1] |};
     m_element_type := ATTR_INT32; m_element_type_name := "int32";
     data := replicate 1 (default_value int32_t) |}.

(** Six numbers for an array of shape [2, 3]. *)
Definition six_numbers : list (native int32_t) := ([1; -2; 3; 4; 5; 2147483647] : list Z).

(** The array that [StringArray({2, 2})] builds, and four strings for it. *)
Definition string_array_blank_2_2 : Array std_string :=
  {| iarray := {| array_base := Attribute_ctor ATTR_ARRAY TYPE_NAME_ARRAY;
                  m_dimension := 2; m_shape := [2; 2]; m_strides := [2; 1] |};
     m_element_type := ATTR_STRING; m_element_type_name := "string";
     data := replicate 4 (default_value std_string) |}.

Definition four_strings : list (native std_string) := (["a"; "b"; "c"; "d"] : list string).

(** A wire array of the element type "float32" with the encoding "zip", and
    one of the element type "complex". *)
Definition float32_zip_definition : Object :=
  wire [("type", str "float32"); ("encoding", str "zip")].

Definition float32_zip_wire : Object :=
  wire [("type", str "array"); ("value", Var_object float32_zip_definition)].

Definition complex_definition : Object := wire [("type", str "complex")].

Definition complex_array_wire : Object :=
  wire [("type", str "array"); ("value", Var_object complex_definition)].

(** A dictionary of two scalars, a dictionary that holds it next to a
    flag, and a dictionary that holds a [Null]. *)
Definition int32_atom (v : native int32_t) : Atomic int32_t :=
  {| atomic_base := Attribute_ctor ATTR_INT32 "int32"; m_value := v |}.

Definition string_atom (s : native std_string) : Atomic std_string :=
  {| atomic_base := Attribute_ctor ATTR_STRING "string"; m_value := s |}.

Definition dictionary_of_scalars : Dictionary :=
  Dict.set (Dict.set Dictionary_ctor "count" (A_Atomic int32_t (int32_atom (7 : Z))))
    "name" (A_Atomic std_string (string_atom ("shot" : string))).

Definition dictionary_of_dictionary : Dictionary :=
  Dict.set (Dict.set Dictionary_ctor "inner" (as_Attribute dictionary_of_scalars))
    "number" (A_Atomic int32_t (int32_atom (42 : Z))).

Definition dictionary_of_null : Dictionary :=
  Dict.set Dictionary_ctor "nothing" (A_Null Null_ctor).

Definition dictionary_of_null_wire : Object :=
  wire [("type", str "dictionary");
        ("items", Var_object (wire [("nothing", Var_object (Null_encode Null_ctor))]))].

(** A wire array of two [int16] elements whose payload has a byte more
    than the buffer. *)
Definition two_int16 : list (native int16_t) := ([258; -1] : list Z).

Definition int16_array_blank_2 : Array int16_t :=
  {| iarray := {| array_base := Attribute_ctor ATTR_ARRAY TYPE_NAME_ARRAY;
                  m_dimension := 1; m_shape := [2]; m_strides := [1] |};
     m_element_type := ATTR_INT16; m_element_type_name := "int16";
     data := replicate 2 (default_value int16_t) |}.

Definition int16_long_payload : string :=
  String.string_of_list_byte (buffer_bytes two_int16 ++ [Byte.x07]).

Definition int16_long_definition : Object :=
  wire [("type", str "int16"); ("encoding", str "base64");
        ("shape", Var_array [extent 2]); ("data", str int16_long_payload)].

Definition int16_long_wire : Object :=
  wire [("type", str "array"); ("value", Var_object int16_long_definition)].

(** * Properties *)

Section Properties.

Context `{Services}.

Lemma to_dtype_native (T : NativeType) :
  ∃ ty name, to_dtype (Native T) = Return ty ∧ to_dtype_name (Native T) = Return name
             ∧ dtype_map !! name = Some ty.
Proof. destruct T; do 2 eexists; (split; [reflexivity|split; [reflexivity|]]); reflexivity. Qed.

Lemma convert_same (T : NativeType) (x : native T) :
  JSON.convert T (Var_hold T x) = Return x.
Proof. destruct T; reflexivity. Qed.

(** A call into the JSON library returns or throws. *)
Lemma convert_outcome (T : NativeType) (v : Var) :
  (∃ x, JSON.convert T v = Return x) ∨ (∃ e, JSON.convert T v = Throw e).
Proof.
  unfold JSON.convert.
  destruct v; [right; eauto| | |];
    repeat case_match; try destruct (holder_convert _ _); simpl; eauto.
Qed.

Lemma getValue_outcome (T : NativeType) (json : Object) (key : string) :
  (∃ x, JSON.getValue T json key = Return x) ∨ (∃ e, JSON.getValue T json key = Throw e).
Proof. apply convert_outcome. Qed.

(** C1: for every supported native type T and every value v of T, decoding
    the wire object that [Atomic<T>(v).encode()] produces returns an
    [Atomic<T>] holding v (through [Atomic<T>::decode] and through the
    dispatcher alike), and the tag and the wire type name of the instance
    are [to_dtype<T>()] and [to_dtype_name<T>()], which [dtype_map] relates. *)
Theorem atomic_roundtrip (T : NativeType) (v : native T) :
  ∃ a : Atomic T,
    Atomic_ctor T v = Return a
    ∧ Atomic_decode T (Atomic_encode a) = Return a
    ∧ decode (Atomic_encode a) = Return (A_Atomic T a)
    ∧ value a = v
    ∧ to_dtype (Native T) = Return (m_type (atomic_base a))
    ∧ to_dtype_name (Native T) = Return (m_type_name (atomic_base a))
    ∧ dtype_map !! m_type_name (atomic_base a) = Some (m_type (atomic_base a)).
Proof.
  destruct T; eexists; (split; [reflexivity|]); repeat split; reflexivity.
Qed.

(** C8: [Atomic<T>::decode] of a wire object whose "type" field is not
    exactly the wire name of T (another name such as "float32" for
    [Atomic<int32_t>], or no readable name at all) throws a [SALException]
    with the dump of the object; no value is returned, whatever the
    conversions of the JSON library would do with the "value" field. *)
Theorem atomic_decode_type_mismatch (T : NativeType) (json : Object) :
  JSON.getValue std_string json "type" ≠ to_dtype_name (Native T) →
  Atomic_decode T json = Throw (SALException (atomic_decode_message json)).
Proof.
  intros Hne. destruct (to_dtype_native T) as (? & name & _ & Hname & _).
  unfold Atomic_decode, Atomic_decode_try. rewrite Hname in *.
  destruct (JSON.getValue std_string json "type") as [ty| | | |] eqn:Hty;
    cbn [mbind Outcome_bind try_catch].
  - case_decide as Heq; [reflexivity|].
    exfalso. apply Hne. f_equal. by destruct (decide (ty = name)).
  - reflexivity.
  - exfalso. destruct (getValue_outcome std_string json "type") as [[? E]|[? E]]; congruence.
  - exfalso. destruct (getValue_outcome std_string json "type") as [[? E]|[? E]]; congruence.
  - exfalso. destruct (getValue_outcome std_string json "type") as [[? E]|[? E]]; congruence.
Qed.

(** *** Vectors and machine integers *)

Lemma uint64_small (z : Z) : 0 <= z < 2 ^ 64 → uint64 z = z.
Proof. apply Z.mod_small. Qed.

Lemma uint8_small (z : Z) : 0 <= z < 2 ^ 8 → uint8 z = z.
Proof. apply Z.mod_small. Qed.

Lemma int16_small (z : Z) : - 2 ^ 15 <= z < 2 ^ 15 → int16 z = z.
Proof. intros Hz. unfold int16. rewrite Z.mod_small; lia. Qed.

Lemma vec_get_lookup {A} (l : list A) (i : nat) (z : Z) (x : A) :
  l !! i = Some x → z = Z.of_nat i → z < 2 ^ 64 → vec_get l z = Return x.
Proof.
  intros Hl -> Hz. unfold vec_get.
  rewrite uint64_small by lia. apply lookup_lt_Some in Hl as Hlt.
  rewrite decide_True by lia. by rewrite Nat2Z.id, Hl.
Qed.

Lemma vec_set_insert {A} (l : list A) (i : nat) (z : Z) (x : A) :
  (i < length l)%nat → z = Z.of_nat i → z < 2 ^ 64 →
  vec_set l z x = Return (<[i := x]> l).
Proof.
  intros Hl -> Hz. unfold vec_set.
  rewrite uint64_small by lia. rewrite decide_True by lia. by rewrite Nat2Z.id.
Qed.

Lemma resize_nil {A} (n : Z) (d : A) : resize n d [] = replicate (Z.to_nat n) d.
Proof. unfold resize. rewrite take_nil. simpl. by rewrite Nat.sub_0_r. Qed.

(** *** The constructor and the stride law *)

Lemma row_major_length (shape : ShapeType) : length (row_major shape) = length shape.
Proof. induction shape; simpl; congruence. Qed.

Lemma strides_loop_spec (shape : ShapeType) (k : nat) (s : ShapeType) :
  (k < length shape)%nat → (length shape < 256)%nat → length s = length shape →
  drop k s = row_major (drop k shape) →
  strides_loop k shape s = Return (row_major shape).
Proof.
  revert s. induction k as [|k IH]; intros s Hk Hn Hlen Hdrop.
  - rewrite !drop_0 in Hdrop. simpl. by rewrite Hdrop.
  - simpl.
    destruct (lookup_lt_is_Some_2 shape (S k) Hk) as [d Hd].
    destruct (lookup_lt_is_Some_2 shape k ltac:(lia)) as [d0 Hd0].
    destruct (lookup_lt_is_Some_2 s (S k) ltac:(lia)) as [st Hst].
    rewrite (vec_get_lookup s (S k) _ st) by (done || lia).
    rewrite (vec_get_lookup shape (S k) _ d) by (done || lia).
    cbn [mbind Outcome_bind].
    rewrite (vec_set_insert s k) by (done || lia).
    cbn [mbind Outcome_bind].
    apply IH; [lia|done|by rewrite length_insert|].
    rewrite (drop_S shape d0 k Hd0).
    assert (is_Some (<[k:=uint64 (st * d)]> s !! k)) as [y Hy]
      by (apply lookup_lt_is_Some_2; rewrite length_insert; lia).
    rewrite (drop_S _ y k Hy).
    rewrite list_lookup_insert_eq in Hy by lia. injection Hy as <-.
    rewrite drop_insert_lt by lia.
    rewrite Hdrop. simpl.
    rewrite (drop_S shape d (S k) Hd). simpl.
    rewrite (drop_S shape d (S k) Hd) in Hdrop.
    rewrite (drop_S s st (S k) Hst) in Hdrop.
    simpl in Hdrop. injection Hdrop as Hst' _.
    f_equal. by rewrite <- Hst'.
Qed.

(** For a shape of 1 to 255 dimensions the constructor returns, and the
    strides it stores are the row-major ones. *)
Lemma IArray_ctor_spec (_shape : ShapeType) :
  (0 < length _shape < 256)%nat →
  IArray_ctor _shape =
    Return {| array_base := Attribute_ctor ATTR_ARRAY TYPE_NAME_ARRAY;
              m_dimension := Z.of_nat (length _shape);
              m_shape := _shape;
              m_strides := row_major _shape |}.
Proof.
  intros Hn. unfold IArray_ctor.
  set (n := length _shape) in *.
  rewrite uint8_small by (change (2 ^ 8) with 256; lia).
  rewrite resize_nil, Nat2Z.id.
  rewrite (int16_small (Z.of_nat n - 1)) by (change (2 ^ 15) with 32768; lia).
  rewrite int16_small by (change (2 ^ 15) with 32768; lia).
  rewrite (vec_set_insert _ (pred n)) by (rewrite ?length_replicate; lia).
  cbn [mbind Outcome_bind].
  replace (Z.to_nat (Z.of_nat n - 1 - 1 + 1)) with (pred n) by lia.
  rewrite (strides_loop_spec _shape);
    [done|fold n; lia|fold n; lia|by rewrite length_insert, length_replicate|].
  destruct (lookup_lt_is_Some_2 _shape (pred n) ltac:(fold n; lia)) as [d Hd].
  rewrite (drop_S _ d _ Hd).
  replace (S (pred n)) with n by lia.
  rewrite (drop_ge _shape n) by (fold n; lia). simpl.
  assert (is_Some (<[pred n:=1]> (replicate n 0) !! pred n))
    as [y Hy] by (apply lookup_lt_is_Some_2; rewrite length_insert, length_replicate; lia).
  rewrite (drop_S _ y _ Hy).
  rewrite list_lookup_insert_eq in Hy by (rewrite length_replicate; lia).
  injection Hy as <-.
  replace (S (pred n)) with n by lia.
  rewrite drop_ge; [done|]. rewrite length_insert, length_replicate. lia.
Qed.

(** The equations of the stride law that [row_major] satisfies. *)
Lemma row_major_last (shape : ShapeType) :
  shape ≠ [] → last (row_major shape) = Some 1.
Proof.
  induction shape as [|d [|d' rest] IH]; intros Hne; [done|done|].
  change (row_major (d :: d' :: rest)) with
    (match head (d' :: rest), head (row_major (d' :: rest)) with
     | Some x, Some s => uint64 (s * x) | _, _ => 1 end :: row_major (d' :: rest)).
  destruct (row_major (d' :: rest)) as [|s tl] eqn:E.
  - apply (f_equal length) in E. rewrite row_major_length in E. done.
  - rewrite last_cons. rewrite IH by done. done.
Qed.

Lemma row_major_step (shape : ShapeType) (i : nat) (s d : Z) :
  row_major shape !! S i = Some s → shape !! S i = Some d →
  row_major shape !! i = Some (uint64 (s * d)).
Proof.
  revert i. induction shape as [|d0 rest IH]; intros i Hs Hd; [done|].
  destruct i as [|i].
  - cbn [row_major]. change ((d0 :: rest) !! 1%nat) with (rest !! 0%nat) in Hd.
    change (row_major (d0 :: rest) !! 1%nat) with (row_major rest !! 0%nat) in Hs.
    rewrite <- head_lookup in Hs, Hd. by rewrite Hs, Hd.
  - change (row_major rest !! S i = Some s) in Hs.
    change (rest !! S i = Some d) in Hd.
    change (row_major rest !! i = Some (uint64 (s * d))). by apply IH.
Qed.

Lemma Array_ctor3_spec (T : NativeType) (_shape : ShapeType) (ty : AttributeType) (name : string) :
  (0 < length _shape < 256)%nat →
  Array_ctor3 T _shape ty name =
    Return {| iarray := {| array_base := Attribute_ctor ATTR_ARRAY TYPE_NAME_ARRAY;
                           m_dimension := Z.of_nat (length _shape);
                           m_shape := _shape;
                           m_strides := row_major _shape |};
              m_element_type := ty;
              m_element_type_name := name;
              data := replicate (Z.to_nat (foldl (fun acc d => uint64 (acc * d)) 1 _shape))
                        (default_value T) |}.
Proof.
  intros Hn. unfold Array_ctor3. rewrite IArray_ctor_spec by done.
  cbn [mbind Outcome_bind m_shape]. by rewrite resize_nil.
Qed.

Lemma Array_ctor_spec (T : NativeType) (_shape : ShapeType) :
  (0 < length _shape < 256)%nat →
  ∃ ty name,
    to_dtype (Native T) = Return ty ∧ to_dtype_name (Native T) = Return name
    ∧ Array_ctor T _shape =
      Return {| iarray := {| array_base := Attribute_ctor ATTR_ARRAY TYPE_NAME_ARRAY;
                             m_dimension := Z.of_nat (length _shape);
                             m_shape := _shape;
                             m_strides := row_major _shape |};
                m_element_type := ty;
                m_element_type_name := name;
                data := replicate (Z.to_nat (foldl (fun acc d => uint64 (acc * d)) 1 _shape))
                          (default_value T) |}.
Proof.
  intros Hn. destruct (to_dtype_native T) as (ty & name & Hty & Hname & _).
  exists ty, name. split; [done|]. split; [done|].
  unfold Array_ctor. rewrite Hty, Hname. cbn [mbind Outcome_bind].
  by apply Array_ctor3_spec.
Qed.

(** *** Bounds-checked access *)

Lemma at_too_many_dimensions_throws {T} (a : Array T) (supplied : list Z) :
  m_dimension (iarray a) > 10 →
  at_body a supplied =
    Throw (std_out_of_range "The at() method can only be used with arrays of 10 dimensions of less.")
  ∧ at_ a supplied = Terminate.
Proof. intros Hd. unfold at_, at_body. by rewrite decide_True. Qed.

Lemma int32_range (z : Z) : - 2 ^ 31 <= int32 z < 2 ^ 31.
Proof. unfold int32. pose proof (Z.mod_pos_bound (z + 2 ^ 31) (2 ^ 32)). lia. Qed.

Lemma int64_range (z : Z) : - 2 ^ 63 <= int64 z < 2 ^ 63.
Proof. unfold int64. pose proof (Z.mod_pos_bound (z + 2 ^ 63) (2 ^ 64)). lia. Qed.

Lemma int32_small (z : Z) : - 2 ^ 31 <= z < 2 ^ 31 → int32 z = z.
Proof. intros Hz. unfold int32. rewrite Z.mod_small; lia. Qed.

Lemma int64_small (z : Z) : - 2 ^ 63 <= z < 2 ^ 63 → int64 z = z.
Proof. intros Hz. unfold int64. rewrite Z.mod_small; lia. Qed.

(** What a parameter of [at] holds is an [int64_t]. *)
Lemma at_arguments_range (supplied : list Z) (d : nat) (ix : Z) :
  at_arguments supplied !! d = Some ix → - 2 ^ 63 <= ix < 2 ^ 63.
Proof.
  destruct supplied as [|i0 rest]; [done|]. unfold at_arguments.
  destruct d as [|d].
  - intros [= <-]. pose proof (int32_range i0). lia.
  - change ((int64 <$> rest) !! d = Some ix → - 2 ^ 63 <= ix < 2 ^ 63).
    rewrite list_lookup_fmap. destruct (rest !! d) as [i|]; [|done].
    intros [= <-]. apply int64_range.
Qed.

Lemma dim_index_of_range (supplied : list Z) (d : nat) (ix : Z) :
  dim_index_of supplied !! d = Some ix → - 2 ^ 63 <= ix < 2 ^ 63.
Proof.
  unfold dim_index_of. intros Hd. apply lookup_take_Some in Hd as [Hd _].
  apply lookup_app_Some in Hd as [Hd|[_ Hd]].
  - by apply (at_arguments_range supplied d).
  - apply lookup_replicate in Hd as [-> _]. lia.
Qed.

Lemma dim_index_of_length (supplied : list Z) : length (dim_index_of supplied) = 10%nat.
Proof.
  unfold dim_index_of. rewrite length_take, length_app, length_replicate. lia.
Qed.

(** The loop of [at] throws when one of the dimensions it visits has an
    extent of at least 1 and an index that is negative or not below it. *)
Lemma at_loop_throws {T} (a : Array T) (dim_index : list Z) (k i d : nat) (ix e acc : Z) :
  length dim_index = 10%nat →
  (length (m_shape (iarray a)) ≤ 10)%nat →
  length (m_strides (iarray a)) = length (m_shape (iarray a)) →
  (i ≤ d < i + k)%nat → (i + k ≤ length (m_shape (iarray a)))%nat →
  dim_index !! d = Some ix → m_shape (iarray a) !! d = Some e →
  1 <= e < 2 ^ 64 → ix < 2 ^ 64 → ix < 0 ∨ e <= ix →
  for_loop k (Z.of_nat i)
    (fun i element_index =>
       ix ← vec_get dim_index i;
       if decide (ix < 0)
       then Throw (std_out_of_range "An array index is missing or is out of bounds.")
       else
         d ← vec_get (m_shape (iarray a)) i;
         if decide (uint64 ix > uint64 (d - 1))
         then Throw (std_out_of_range "An array index is missing or is out of bounds.")
         else
           s ← vec_get (m_strides (iarray a)) i;
           Return (uint64 (element_index + ix * s)))
    acc
  = Throw (std_out_of_range "An array index is missing or is out of bounds.").
Proof.
  intros Hlen Hn Hst. revert i acc.
  induction k as [|k IH]; intros i acc Hid Hik Hix He Hrange Hixr Hbad; [lia|].
  cbn [for_loop].
  destruct (lookup_lt_is_Some_2 dim_index i ltac:(lia)) as [ix_i Hix_i].
  destruct (lookup_lt_is_Some_2 (m_shape (iarray a)) i ltac:(lia)) as [e_i He_i].
  destruct (lookup_lt_is_Some_2 (m_strides (iarray a)) i ltac:(lia)) as [s_i Hs_i].
  rewrite (vec_get_lookup dim_index i _ ix_i) by (done || lia).
  cbn [mbind Outcome_bind]. case_decide as Hneg; [done|].
  rewrite (vec_get_lookup (m_shape (iarray a)) i _ e_i) by (done || lia).
  cbn [mbind Outcome_bind]. case_decide as Hgt; [done|].
  rewrite (vec_get_lookup (m_strides (iarray a)) i _ s_i) by (done || lia).
  cbn [mbind Outcome_bind].
  destruct (decide (i = d)) as [->|Hne].
  - exfalso. rewrite Hix in Hix_i. rewrite He in He_i. simplify_eq.
    destruct Hbad as [|Hbad]; [lia|].
    rewrite !uint64_small in Hgt by lia. lia.
  - replace (Z.of_nat i + 1) with (Z.of_nat (S i)) by lia.
    apply IH; (done || lia).
Qed.

(** On an array built by the constructor with 1 to 10 dimensions, when
    the index that [at] receives for a dimension of extent at least 1 (the
    argument converted to the type of the parameter; -1 without an
    argument) is negative or not below the extent, the body of [at] raises
    [std::out_of_range] and the call, [at] being declared [throw()], ends
    in [std::terminate]: nothing is returned and no exception reaches the
    caller. *)
Lemma at_out_of_bounds_throws (T : NativeType) (_shape : ShapeType) (a : Array T)
    (supplied : list Z) (d : nat) (ix e : Z) :
  Array_ctor T _shape = Return a →
  (0 < length _shape ≤ 10)%nat →
  dim_index_of supplied !! d = Some ix → _shape !! d = Some e →
  1 <= e < 2 ^ 64 → ix < 0 ∨ e <= ix →
  at_body a supplied = Throw (std_out_of_range "An array index is missing or is out of bounds.")
  ∧ at_index a supplied = Terminate
  ∧ at_ a supplied = Terminate
  ∧ ¬ (∃ x, at_ a supplied = Return x)
  ∧ ¬ (∃ exn, at_ a supplied = Throw exn).
Proof.
  intros Hctor Hn Hix He Hrange Hbad.
  pose proof (dim_index_of_range supplied d ix Hix) as Hixr.
  destruct (Array_ctor_spec T _shape ltac:(lia)) as (ty & name & _ & _ & Ha).
  rewrite Ha in Hctor. injection Hctor as <-.
  assert (at_body
            {| iarray := {| array_base := Attribute_ctor ATTR_ARRAY TYPE_NAME_ARRAY;
                            m_dimension := Z.of_nat (length _shape);
                            m_shape := _shape;
                            m_strides := row_major _shape |};
               m_element_type := ty; m_element_type_name := name;
               data := replicate (Z.to_nat (foldl (fun acc d => uint64 (acc * d)) 1 _shape))
                         (default_value T) |} supplied
          = Throw (std_out_of_range "An array index is missing or is out of bounds.")) as Hbody.
  { unfold at_body. cbn [iarray m_dimension m_shape m_strides].
    rewrite decide_False by lia. rewrite Nat2Z.id.
    apply lookup_lt_Some in He as Hd.
    pose proof (at_loop_throws
      {| iarray := {| array_base := Attribute_ctor ATTR_ARRAY TYPE_NAME_ARRAY;
                      m_dimension := Z.of_nat (length _shape);
                      m_shape := _shape;
                      m_strides := row_major _shape |};
         m_element_type := ty; m_element_type_name := name;
         data := replicate (Z.to_nat (foldl (fun acc d => uint64 (acc * d)) 1 _shape))
                   (default_value T) |}
      (dim_index_of supplied) (length _shape) 0 d ix e 0) as Hloop.
    cbn [iarray m_shape m_strides] in Hloop. change (Z.of_nat 0) with 0 in Hloop.
    rewrite Hloop; [done|apply dim_index_of_length|lia|apply row_major_length|lia|lia|done|done|done|lia|done]. }
  unfold at_index, at_. rewrite Hbody. cbn [mbind Outcome_bind throw_none].
  repeat split; try done; by intros [? ?].
Qed.

(** C4: an array built with shape [3,4], by any of the constructors and
    for any element type, has the strides [4,1], which are the row-major
    strides of the shape, and the two-index access [(row = 1, column = 2)]
    addresses the buffer at 1*4+2 = 6 (as does the bounds-checked
    [at(1, 2)]). *)
Theorem strides_of_3_4 (T : NativeType) (_type : AttributeType) (_type_name : string) :
  ∃ a : Array T,
    Array_ctor3 T [3; 4] _type _type_name = Return a
    ∧ strides a = [4; 1]
    ∧ strides a = row_major [3; 4]
    ∧ call_index a 1 2 = Return (1 * 4 + 2)
    ∧ call_index a 1 2 = Return 6
    ∧ call a 1 2 = subscript a 6
    ∧ at_index a [1; 2] = Return 6
    ∧ (∃ ty name, Array_ctor T [3; 4] = Array_ctor3 T [3; 4] ty name)
    ∧ BoolArray_ctor [3; 4] = Array_ctor3 uint8_t [3; 4] ATTR_BOOL "bool".
Proof.
  destruct T; eexists; (split; [reflexivity|]); repeat split; try reflexivity;
    do 2 eexists; reflexivity.
Qed.

(** C5 (the code departs from the claim): the constructor run on the empty
    shape stores a stride at index -1 of the empty stride vector, which is
    undefined behaviour, before the buffer is allocated; so is decoding a
    wire array whose shape is empty. *)
Theorem empty_shape_undefined (T : NativeType) (_type : AttributeType) (_type_name : string) :
  IArray_ctor [] = Undefined
  ∧ Array_ctor3 T [] _type _type_name = Undefined
  ∧ Array_ctor T [] = Undefined
  ∧ BoolArray_ctor [] = Undefined
  ∧ Array_decode int32_t empty_shape_wire = Undefined
  ∧ decode empty_shape_wire = Undefined.
Proof. destruct T; repeat split; reflexivity. Qed.

(** C6 (the code departs from the claim): on an array of shape [0] the call
    [at(0)] passes the bounds check, although 0 is outside [0, 0), and
    reads the empty buffer; on an array of 257 dimensions, whose 8-bit
    dimension count is 1, [at(0)] returns the first element. *)
Theorem at_unchecked_cases :
  (∃ a : Array int32_t,
      Array_ctor int32_t [0] = Return a
      ∧ at_index a [0] = Return 0 ∧ size a = 0 ∧ at_ a [0] = Undefined)
  ∧ (∃ a : Array int32_t,
      Array_ctor int32_t (replicate 257 1) = Return a
      ∧ dimension a = 257 ∧ at_ a [0] = Return 0).
Proof. split; eexists; (split; [vm_compute; reflexivity|]); repeat split; vm_compute; reflexivity. Qed.

(** C2 (the code departs from the claim): on a wire array without "value"
    the decoder dereferences its still null array pointer to set the summary
    flag, so it throws Poco's [NullPointerException] and returns no array. *)
Theorem array_summary_decode_throws (T : NativeType) :
  JSON.has array_summary_3_4 "value" = false
  ∧ Array_decode T array_summary_3_4 = Throw NullPointerException.
Proof. split; reflexivity. Qed.

Lemma array_decode_without_value (T : NativeType) (json : Object) :
  JSON.getValue std_string json "type" = Return TYPE_NAME_ARRAY →
  JSON.has json "value" = false →
  Array_decode T json = Throw NullPointerException.
Proof. intros Hty Hv. unfold Array_decode. rewrite Hty. simpl. by rewrite Hv. Qed.

(** *** The shape on the wire *)

Lemma encode_shape_loop (sh : ShapeType) (k i : nat) (acc : JSON_Array) :
  (i + k ≤ length sh)%nat → Z.of_nat (length sh) < 2 ^ 64 →
  for_loop k (Z.of_nat i)
    (fun i shape => d ← vec_get sh i; Return (JSON.add shape (Var_hold uint64_t d))) acc
  = Return (acc ++ (extent <$> take k (drop i sh))).
Proof.
  revert i acc. induction k as [|k IH]; intros i acc Hik Hlen.
  - simpl. by rewrite app_nil_r.
  - destruct (lookup_lt_is_Some_2 sh i ltac:(lia)) as [d Hd].
    cbn [for_loop]. rewrite (vec_get_lookup sh i _ d) by (done || lia).
    cbn [mbind Outcome_bind].
    replace (Z.of_nat i + 1) with (Z.of_nat (S i)) by lia.
    rewrite IH by lia. rewrite (drop_S sh d i Hd). cbn [take fmap list_fmap].
    unfold JSON.add. by rewrite <- app_assoc.
Qed.

Lemma encode_shape_spec {T} (a : Array T) :
  (length (shape a) < 256)%nat →
  encode_shape a = Return (extent <$> shape a).
Proof.
  intros Hn. unfold encode_shape, for_uint8, shape in *.
  rewrite decide_True by lia. rewrite Nat2Z.id.
  pose proof (encode_shape_loop (m_shape (iarray a)) (length (m_shape (iarray a))) 0 []) as Hloop.
  change (Z.of_nat 0) with 0 in Hloop. cbn [app] in Hloop.
  rewrite Hloop by (simpl; lia || (change (2 ^ 64) with 18446744073709551616; lia)).
  by rewrite drop_0, firstn_all.
Qed.

(** With 256 dimensions or more the 8-bit counter of [encode_shape] never
    reaches the bound. *)
Lemma encode_shape_diverges {T} (a : Array T) :
  (256 ≤ length (shape a))%nat → Z.of_nat (length (shape a)) < 2 ^ 64 →
  encode_shape a = Diverge.
Proof.
  intros Hn Hlen. unfold encode_shape, for_uint8, shape in *.
  rewrite decide_False by lia.
  pose proof (encode_shape_loop (m_shape (iarray a)) 256 0 []) as Hloop.
  change (Z.of_nat 0) with 0 in Hloop. cbn [app] in Hloop.
  by rewrite Hloop by (simpl; lia).
Qed.

Lemma decode_shape_loop (dims : ShapeType) (k i : nat) :
  (i + k ≤ length dims)%nat → Z.of_nat (length dims) < 2 ^ 64 →
  for_loop k (Z.of_nat i)
    (fun i shape => x ← JSON.getElement uint64_t (extent <$> dims) i; vec_set shape i (x : Z))
    (take i dims ++ replicate (length dims - i) 0)
  = Return (take (i + k) dims ++ replicate (length dims - (i + k)) 0).
Proof.
  revert i. induction k as [|k IH]; intros i Hik Hlen.
  - simpl. by rewrite Nat.add_0_r.
  - destruct (lookup_lt_is_Some_2 dims i ltac:(lia)) as [d Hd].
    cbn [for_loop]. unfold JSON.getElement, JSON.Array_get.
    rewrite decide_True by lia. rewrite Nat2Z.id, list_lookup_fmap, Hd.
    cbn [fmap option_fmap option_map default].
    change (id (extent d)) with (Var_hold uint64_t d). rewrite convert_same.
    cbn [mbind Outcome_bind].
    rewrite (vec_set_insert _ i)
      by (rewrite ?length_app, ?length_take, ?length_replicate; lia).
    cbn [mbind Outcome_bind].
    replace (Z.of_nat i + 1) with (Z.of_nat (S i)) by lia.
    replace (<[i:=d]> (take i dims ++ replicate (length dims - i) 0))
      with (take (S i) dims ++ replicate (length dims - S i) 0).
    + rewrite IH by lia. do 3 f_equal; lia.
    + rewrite insert_app_r_alt by (rewrite length_take; lia).
      rewrite length_take, (take_S_r dims i d Hd), <- app_assoc.
      replace (i - i `min` length dims)%nat with 0%nat by lia.
      replace (length dims - i)%nat with (S (length dims - S i)) by lia.
      done.
Qed.

Lemma decode_shape_spec (dims : ShapeType) :
  (length dims < 256)%nat →
  decode_shape (Some (extent <$> dims)) = Return dims.
Proof.
  intros Hn. unfold decode_shape, for_uint8. cbn [deref mbind Outcome_bind].
  rewrite length_fmap. rewrite decide_True by lia.
  rewrite resize_nil, !Nat2Z.id.
  pose proof (decode_shape_loop dims (length dims) 0) as Hloop.
  rewrite take_0, Nat.sub_0_r in Hloop. change (Z.of_nat 0) with 0 in Hloop. cbn [app] in Hloop.
  rewrite Hloop by (simpl; lia || (change (2 ^ 64) with 18446744073709551616; lia)).
  cbn [Nat.add]. by rewrite firstn_all, Nat.sub_diag, app_nil_r.
Qed.

(** C9 (as the code has it): for an array of fewer than 256 dimensions
    [encode_summary()] is the object with the one key "shape", holding the
    extents: no "type", no "value", no "data"; for a dictionary it is the
    empty object: no "type", no "items". *)
Theorem encode_summary_shape_only {T} (a : Array T) (d : Dictionary) :
  (length (shape a) < 256)%nat →
  Array_encode_summary a = Return {[ "shape" := Var_array (extent <$> shape a) ]}
  ∧ encode_summary (A_Array T a) = Array_encode_summary a
  ∧ Dictionary_encode_summary d = ∅
  ∧ encode_summary (as_Attribute d) = Return ∅.
Proof.
  intros Hn. split; [|done].
  unfold Array_encode_summary. rewrite encode_shape_spec by done.
  cbn [mbind Outcome_bind]. unfold JSON.set. by rewrite insert_empty.
Qed.

(** *** Arrays of bytes and of booleans *)

Lemma getValue_string (json : Object) (key s : string) :
  json !! key = Some (str s) → JSON.getValue std_string json key = Return s.
Proof. intros Hk. unfold JSON.getValue, JSON.get. by rewrite Hk. Qed.



(** *** The dispatcher and its bound on the recursion *)

Lemma nesting_object (o : Object) :
  nesting (Var_object o) = S (map_fold (fun _ x acc => Nat.max (nesting x) acc) O o).
Proof. reflexivity. Qed.

Lemma nesting_lookup (o : Object) (k : string) (v : Var) :
  o !! k = Some v → (nesting v < nesting (Var_object o))%nat.
Proof.
  rewrite nesting_object. intros Hk. apply Nat.lt_succ_r. revert k v Hk.
  apply (map_fold_weak_ind (fun r m => ∀ k v, m !! k = Some v → (nesting v ≤ r)%nat)).
  - intros k v. by rewrite lookup_empty.
  - intros i x m r Hi IH k v. rewrite lookup_insert.
    case_decide; [intros [= <-]; lia | intros ?%IH; lia].
Qed.

Lemma getObject_lookup (json : Object) (key : string) (o : Object) :
  json !! key = Some (Var_object o) → JSON.getObject json key = Some o.
Proof. intros Hk. unfold JSON.getObject. by rewrite Hk. Qed.

Lemma getObject_Some (json : Object) (key : string) (o : Object) :
  JSON.getObject json key = Some o → json !! key = Some (Var_object o).
Proof. unfold JSON.getObject. intros Hk. repeat case_match; naive_solver. Qed.

Lemma foldr_ext_elem {A B} (f g : A → B → B) (b : B) (l : list A) :
  (∀ x acc, x ∈ l → f x acc = g x acc) → foldr f b l = foldr g b l.
Proof.
  induction l as [|x l IH]; intros Hfg; [done|]. simpl.
  rewrite IH by (intros; apply Hfg; by right). apply Hfg. by left.
Qed.

Lemma child_of_nesting (json child : Object) :
  child_of json child → (S (nesting (Var_object child)) < nesting (Var_object json))%nat.
Proof.
  intros (c & k & Hc & Hk).
  apply nesting_lookup in Hc, Hk. lia.
Qed.

Lemma decode_items_ext (dec1 dec2 : Object → Outcome Attribute) (json : Object) (container : Dictionary) :
  (∀ child, child_of json child → dec1 child = dec2 child) →
  decode_items dec1 json container = decode_items dec2 json container.
Proof.
  intros Hext. unfold decode_items.
  destruct (JSON.getObject json "items") as [c|] eqn:Hitems; [|done].
  apply getObject_Some in Hitems.
  cbn [deref mbind Outcome_bind]. rewrite !map_fold_foldr.
  apply foldr_ext_elem. intros [k v] acc _. cbn [uncurry].
  destruct acc as [d| | | |]; try done. cbn [mbind Outcome_bind].
  destruct (JSON.isNull c k); [done|].
  destruct (JSON.isObject c k); [|done]. cbn [negb].
  unfold JSON.getObject. destruct (c !! k) as [[| |o|]|] eqn:Hk; try done.
  cbn [deref mbind Outcome_bind]. rewrite (Hext o); [done|]. by exists c, k.
Qed.

Lemma decode_body_ext (dec1 dec2 : Object → Outcome Attribute) (json : Object) :
  (∀ child, child_of json child → dec1 child = dec2 child) →
  decode_body dec1 json = decode_body dec2 json.
Proof.
  intros Hext. unfold decode_body, Dictionary_decode_with, Dictionary_decode_try.
  by rewrite (decode_items_ext dec1 dec2 json _ Hext).
Qed.

Lemma decode_fuel_enough (n : nat) (json : Object) :
  (nesting (Var_object json) ≤ n)%nat → decode_fuel n json = decode json.
Proof.
  revert json. induction n as [n IH] using lt_wf_ind. intros json Hn.
  unfold decode. destruct (nesting (Var_object json)) as [|m] eqn:Hm; [done|].
  destruct n as [|n]; [lia|]. cbn [decode_fuel].
  apply decode_body_ext. intros child Hchild%child_of_nesting.
  rewrite (IH n), (IH m); (done || lia).
Qed.

(** The dispatcher satisfies the equation of the source: its body, with
    itself as the decoder of the children. *)
Lemma decode_unfold (json : Object) : decode json = decode_body decode json.
Proof.
  unfold decode at 1. destruct (nesting (Var_object json)) as [|m] eqn:Hm; [done|].
  cbn [decode_fuel]. apply decode_body_ext. intros child Hchild%child_of_nesting.
  apply decode_fuel_enough. lia.
Qed.

(** *** Dictionary::decode_items *)

Lemma decode_items_spec (dec : Object → Outcome Attribute) (json c : Object) (container : Dictionary) :
  json !! "items" = Some (Var_object c) →
  items_decoded dec container c (decode_items dec json container).
Proof.
  intros Hitems. unfold decode_items. rewrite (getObject_lookup json "items" c Hitems).
  cbn [deref mbind Outcome_bind].
  set (f := fun (key : string) (_ : Var) (acc : Outcome Dictionary) => _).
  cut (∀ m, m ⊆ c → items_decoded dec container m (map_fold f (Return container) m)).
  { intros Hcut. by apply (Hcut c). }
  intros m.
  apply (map_fold_weak_ind (fun r m => m ⊆ c → items_decoded dec container m r)).
  - intros _. split; [done|]. split; [intros k; by rewrite lookup_empty|].
    intros k v. by rewrite lookup_empty.
  - clear m. intros i x m r Hi IH Hsub.
    assert (c !! i = Some x) as Hci
      by (eapply lookup_weaken; [apply lookup_insert_eq|done]).
    assert (m ⊆ c) as Hm
      by (etrans; [by apply insert_subseteq|done]).
    specialize (IH Hm).
    assert (∀ k v, m !! k = Some v → <[i:=x]> m !! k = Some v) as Hkeep
      by (intros k v Hk; rewrite lookup_insert_ne; [done|congruence]).
    destruct r as [d| | | |]; subst f; cbn beta;
      cbn [mbind Outcome_bind];
      try (destruct IH as (k & v & Hk & Hv); exists k, v; split; [by apply Hkeep|done]).
    destruct IH as (Hbase & Hattr & Hok).
    unfold JSON.isNull, JSON.isObject, JSON.getObject. rewrite Hci.
    destruct x as [|T x|o|a]; cbn [negb deref mbind Outcome_bind].
    + split; [done|]. split.
      * intros k. rewrite lookup_insert. case_decide as Hk; [|apply Hattr].
        subst k. rewrite Hattr, Hi. done.
      * intros k v. rewrite lookup_insert. case_decide; [intros [= <-]; by left|apply Hok].
    + exists i, (Var_hold T x). rewrite lookup_insert_eq. done.
    + destruct (dec o) as [a| | | |] eqn:Hdec; cbn [mbind Outcome_bind];
        try (exists i, (Var_object o); rewrite lookup_insert_eq;
             split; [done|split; [done|intros ? ? [= <-]; congruence]]).
      split; [done|]. split.
      * intros k. cbn [Dict.set attributes]. rewrite !lookup_insert.
        case_decide as Hk; [by rewrite Hdec|apply Hattr].
      * intros k v. rewrite lookup_insert. case_decide; [intros [= <-]; right; eauto|apply Hok].
    + exists i, (Var_array a). rewrite lookup_insert_eq. done.
Qed.

Lemma has_lookup (json : Object) (key : string) (v : Var) :
  json !! key = Some v → JSON.has json key = true.
Proof. intros Hk. unfold JSON.has. rewrite bool_decide_true; eauto. Qed.

Lemma dictionary_decode_returns (json c : Object) (d : Dictionary) :
  JSON.getValue std_string json "type" = Return TYPE_NAME_DICTIONARY →
  json !! "items" = Some (Var_object c) →
  Dictionary_decode json = Return d →
  ∃ d0, decode_items decode json Dictionary_ctor = Return d0 ∧ d = Dict.set_is_summary false d0.
Proof.
  intros Hty Hitems. unfold Dictionary_decode, Dictionary_decode_with, Dictionary_decode_try. rewrite Hty.
  cbn [mbind Outcome_bind]. rewrite decide_False by (by intros []).
  rewrite (has_lookup json "items" _ Hitems).
  destruct (decode_items decode json Dictionary_ctor) as [d0| | | |];
    cbn [mbind Outcome_bind try_catch]; try done.
  intros [= <-]. eauto.
Qed.

(** C7: [Dictionary::decode] of a wire dictionary with "items".  When it
    returns, the dictionary is a full one, has no key whose entry is JSON
    null, and holds under the key of every entry that is a JSON object the
    attribute that the dispatcher decodes from that object.  And it returns
    (so does the dispatcher, with the same dictionary) whenever every entry is
    null or an object that the dispatcher decodes. *)
Theorem dictionary_null_entries_skipped (json c : Object) :
  JSON.getValue std_string json "type" = Return TYPE_NAME_DICTIONARY →
  json !! "items" = Some (Var_object c) →
  (∀ d, Dictionary_decode json = Return d →
        Dict.is_summary d = false
        ∧ (∀ k, c !! k = Some Var_empty → Dict.has d k = false)
        ∧ (∀ k o, c !! k = Some (Var_object o) →
                  ∃ a, decode o = Return a ∧ Dict.get d k = Return a))
  ∧ ((∀ k v, c !! k = Some v → v = Var_empty ∨ ∃ o a, v = Var_object o ∧ decode o = Return a) →
     ∃ d, Dictionary_decode json = Return d ∧ decode json = Return (as_Attribute d)).
Proof.
  intros Hty Hitems.
  assert (Dictionary_decode json =
          try_catch (container ← decode_items decode json Dictionary_ctor;
                     Return (Dict.set_is_summary false container))
            (fun e => SAL_REPORT_DECODE_ERROR "decode" e json)) as Hdec.
  { unfold Dictionary_decode, Dictionary_decode_with, Dictionary_decode_try. rewrite Hty.
    cbn [mbind Outcome_bind]. rewrite decide_False by (by intros []).
    by rewrite (has_lookup json "items" _ Hitems). }
  pose proof (decode_items_spec decode json c Dictionary_ctor Hitems) as Hspec.
  rewrite Hdec.
  destruct (decode_items decode json Dictionary_ctor) as [d0| | | |];
    cbn [items_decoded] in Hspec; cbn [mbind Outcome_bind try_catch] in *.
  - destruct Hspec as (Hbase & Hattr & Hok). split.
    + intros d [= <-]. split; [done|]. split.
      * intros k Hk. unfold Dict.has. cbn [Dict.set_is_summary attributes].
        rewrite Hattr, Hk. by rewrite bool_decide_false by (by intros [? ?]).
      * intros k o Hk. destruct (Hok k _ Hk) as [|(o' & a & [= <-] & Ha)]; [done|].
        exists a. split; [done|]. unfold Dict.get. cbn [Dict.set_is_summary attributes].
        by rewrite Hattr, Hk, Ha.
    + intros _. eexists. split; [done|].
      rewrite decode_unfold. unfold decode_body. rewrite Hty.
      cbn [try_catch mbind Outcome_bind]. rewrite decide_True by done.
      fold (Dictionary_decode json). by rewrite Hdec.
  - split; [done|]. intros Hall. exfalso.
    destruct Hspec as (k & v & Hk & Hne & Hbad).
    destruct (Hall k v Hk) as [|(o & a & -> & Ha)]; [done|]. by eapply Hbad.
  - split; [done|]. intros Hall. exfalso.
    destruct Hspec as (k & v & Hk & Hne & Hbad).
    destruct (Hall k v Hk) as [|(o & a & -> & Ha)]; [done|]. by eapply Hbad.
  - split; [done|]. intros Hall. exfalso.
    destruct Hspec as (k & v & Hk & Hne & Hbad).
    destruct (Hall k v Hk) as [|(o & a & -> & Ha)]; [done|]. by eapply Hbad.
  - split; [done|]. intros Hall. exfalso.
    destruct Hspec as (k & v & Hk & Hne & Hbad).
    destruct (Hall k v Hk) as [|(o & a & -> & Ha)]; [done|]. by eapply Hbad.
Qed.

(** *** What a failed decode surfaces *)

Lemma fmap_Throw {A B} (f : A → B) (c : Outcome A) (e : exception) :
  f <$> c = Throw e → c = Throw e.
Proof. destruct c; cbn; congruence. Qed.

Lemma atomic_decode_throws (T : NativeType) (json : Object) (e : exception) :
  Atomic_decode T json = Throw e → e = SALException (atomic_decode_message json).
Proof.
  unfold Atomic_decode, Atomic_decode_try, try_catch.
  destruct (_ ≫= _) as [a|e'| | |]; intros Heq; by simplify_eq.
Qed.

Lemma dictionary_decode_throws (dec : Object → Outcome Attribute) (json : Object) (e : exception) :
  Dictionary_decode_with dec json = Throw e →
  ∃ cause, e = SALException (decode_error_message "decode" cause json).
Proof.
  unfold Dictionary_decode_with, Dictionary_decode_try, try_catch.
  destruct (_ ≫= _) as [a|e'| | |]; intros Heq; simplify_eq.
  exists e'. unfold SAL_REPORT_DECODE_ERROR in Heq. by simplify_eq.
Qed.

Lemma decode_array_throws (json : Object) (e : exception) :
  decode_array json = Throw e →
  is_SALException e = true ∨ ∃ T, Array_decode T json = Throw e.
Proof.
  unfold decode_array. cbv zeta.
  destruct (mbind _ (deref (JSON.getObject json "value"))) as [name|e'| | |];
    cbn [try_catch mbind Outcome_bind]; try done.
  - repeat case_decide; unfold as_IArray;
      try (intros ?%fmap_Throw; right; eauto).
    intros [= <-]. by left.
  - unfold SAL_REPORT_DECODE_ERROR. intros [= <-]. by left.
Qed.

Lemma decode_throws (json : Object) (e : exception) :
  decode json = Throw e →
  is_SALException e = true ∨ ∃ T, Array_decode T json = Throw e.
Proof.
  rewrite decode_unfold. unfold decode_body.
  destruct (JSON.getValue std_string json "type") as [id|e'| | |];
    cbn [try_catch mbind Outcome_bind]; try done.
  - repeat case_decide.
    all: try (intros ->%fmap_Throw%atomic_decode_throws; by left).
    + intros (cause & ->)%fmap_Throw%dictionary_decode_throws. by left.
    + intros ?%fmap_Throw. by apply decode_array_throws.
    + intros [= <-]. by left.
  - intros [= <-]. by left.
Qed.

(** C3 (as the code has it).  [Atomic<T>::decode] and [Dictionary::decode]
    are their [try] block under a handler: the function throws exactly when
    the block throws, and what it throws is a [SALException] whose message
    ends with the dump of the wire object.  For each cause that the block of
    [Dictionary::decode] throws, the message names the function and carries
    the message of that cause, [what cause] (here for a type name other than
    "dictionary" and for a "type" that cannot be read); the message of
    [Atomic<T>::decode] is the same fixed text for every cause.  What the
    dispatcher surfaces is a [SALException] or, unwrapped, what
    [Array<T>::decode] threw. *)
Theorem decode_failures_surfaced (json : Object) (e : exception) :
  (∀ T, Atomic_decode T json = Throw e → e = SALException (atomic_decode_message json))
  ∧ (Dictionary_decode json = Throw e →
     ∃ cause, e = SALException (decode_error_message "decode" cause json))
  ∧ (decode json = Throw e →
     is_SALException e = true ∨ ∃ T, Array_decode T json = Throw e)
  ∧ (∀ T cause, Atomic_decode_try T json = Throw cause →
       Atomic_decode T json = Throw (SALException (atomic_decode_message json)))
  ∧ (∀ T, Atomic_decode T json = Throw e → ∃ cause, Atomic_decode_try T json = Throw cause)
  ∧ (∀ cause, Dictionary_decode_try decode json = Throw cause →
       Dictionary_decode json = Throw (SALException (decode_error_message "decode" cause json)))
  ∧ (Dictionary_decode json = Throw e →
     ∃ cause, Dictionary_decode_try decode json = Throw cause
              ∧ e = SALException (decode_error_message "decode" cause json))
  ∧ (∀ cause, decode_error_message "decode" cause json =
       "JSON object does not define a valid SAL object in function: decode" +:+ endl
       +:+ what cause +:+ endl +:+ " json object: " +:+ endl +:+ stringify json 2)
  ∧ atomic_decode_message json =
      "JSON object does not define a valid SAL scalar/atomic attribute. json obejct is "
      +:+ endl +:+ stringify json 2
  ∧ (∀ ty, JSON.getValue std_string json "type" = Return ty → ty ≠ "dictionary" →
       Dictionary_decode json =
         Throw (SALException (decode_error_message "decode"
                                (SALException "data type does not match") json)))
  ∧ (∀ cause, JSON.getValue std_string json "type" = Throw cause →
       Dictionary_decode json = Throw (SALException (decode_error_message "decode" cause json))).
Proof.
  split; [intros T; apply atomic_decode_throws|].
  split; [apply dictionary_decode_throws|].
  split; [apply decode_throws|].
  split; [intros T cause Hbody; unfold Atomic_decode; by rewrite Hbody|].
  split.
  { intros T. unfold Atomic_decode.
    destruct (Atomic_decode_try T json) as [a|cause| | |]; cbn [try_catch]; try done. eauto. }
  split.
  { intros cause Hbody. unfold Dictionary_decode, Dictionary_decode_with. by rewrite Hbody. }
  split.
  { unfold Dictionary_decode, Dictionary_decode_with.
    destruct (Dictionary_decode_try decode json) as [a|cause| | |]; cbn [try_catch]; try done.
    unfold SAL_REPORT_DECODE_ERROR. intros [= <-]. eauto. }
  split; [reflexivity|]. split; [reflexivity|].
  split.
  - intros ty Hty Hne. unfold Dictionary_decode, Dictionary_decode_with, Dictionary_decode_try.
    rewrite Hty. cbn [mbind Outcome_bind]. by rewrite decide_True.
  - intros cause Hty. unfold Dictionary_decode, Dictionary_decode_with, Dictionary_decode_try.
    by rewrite Hty.
Qed.

(** *** Further properties of the data model *)

(** The stride law: for a shape of 1 to 255 dimensions the constructor
    returns, the last stride is 1 and each other stride is the product, in
    64 bits, of the next stride and the next extent. *)
Theorem constructor_strides_row_major (_shape : ShapeType) :
  (0 < length _shape < 256)%nat →
  ∃ a : IArray,
    IArray_ctor _shape = Return a
    ∧ m_dimension a = Z.of_nat (length _shape)
    ∧ m_shape a = _shape
    ∧ length (m_strides a) = length _shape
    ∧ last (m_strides a) = Some 1
    ∧ ∀ (i : nat) (s d : Z),
        m_strides a !! S i = Some s → _shape !! S i = Some d →
        m_strides a !! i = Some (uint64 (s * d)).
Proof.
  intros Hn. eexists. split; [by apply IArray_ctor_spec|].
  cbn [m_dimension m_shape m_strides]. repeat split.
  - apply row_major_length.
  - apply row_major_last. intros ->. simpl in Hn. lia.
  - apply row_major_step.
Qed.

Lemma extents_product_range (_shape : ShapeType) :
  _shape ≠ [] → 0 <= foldl (fun acc d => uint64 (acc * d)) 1 _shape < 2 ^ 64.
Proof.
  destruct _shape as [|d rest _] using rev_ind; [done|]. intros _.
  rewrite foldl_app. cbn [foldl]. apply Z.mod_pos_bound. done.
Qed.

(** The buffer that the constructor allocates has as many elements as the
    product of the extents (in 64 bits), all value-initialised.  The
    statement is for buffers of at most 2^20 elements, an allocation of
    which is taken to succeed (for larger ones [data.resize] can throw
    [std::length_error] or [std::bad_alloc], which the model leaves out). *)
Theorem constructor_buffer_length (T : NativeType) (_shape : ShapeType) :
  (0 < length _shape < 256)%nat →
  foldl (fun acc d => uint64 (acc * d)) 1 _shape <= 2 ^ 20 →
  ∃ a : Array T,
    Array_ctor T _shape = Return a
    ∧ shape a = _shape
    ∧ size a = foldl (fun acc d => uint64 (acc * d)) 1 _shape
    ∧ is_summary a = false
    ∧ ∀ x, x ∈ data a → x = default_value T.
Proof.
  intros Hn _. destruct (Array_ctor_spec T _shape Hn) as (ty & name & _ & _ & ->).
  eexists. split; [done|]. unfold shape, size, is_summary.
  cbn [iarray m_shape data]. repeat split.
  - rewrite length_replicate, Z2Nat.id; [done|].
    apply extents_product_range. intros ->. simpl in Hn. lia.
  - intros x Hx. by apply elem_of_replicate in Hx as [? _].
Qed.

(** A wire dictionary without "items" decodes to a summary dictionary
    with no children. *)
Theorem dictionary_without_items_is_summary (json : Object) :
  JSON.getValue std_string json "type" = Return TYPE_NAME_DICTIONARY →
  JSON.has json "items" = false →
  Dictionary_decode json = Return (Dict.set_is_summary true Dictionary_ctor)
  ∧ decode json = Return (as_Attribute (Dict.set_is_summary true Dictionary_ctor))
  ∧ Dict.is_summary (Dict.set_is_summary true Dictionary_ctor) = true
  ∧ attributes (Dict.set_is_summary true Dictionary_ctor) = ∅.
Proof.
  intros Hty Hitems.
  assert (Dictionary_decode json = Return (Dict.set_is_summary true Dictionary_ctor)) as Hdec.
  { unfold Dictionary_decode, Dictionary_decode_with, Dictionary_decode_try. rewrite Hty.
    cbn [mbind Outcome_bind]. rewrite decide_False by (by intros []).
    by rewrite Hitems. }
  split; [done|]. split; [|done].
  rewrite decode_unfold. unfold decode_body. rewrite Hty.
  cbn [try_catch mbind Outcome_bind]. rewrite decide_True by done.
  fold (Dictionary_decode json). by rewrite Hdec.
Qed.

(** The summary of an atomic value is its full encoding: the type name and
    the value, inlined. *)
Theorem atomic_encode_summary_inlines_value (T : NativeType) (v : native T) :
  ∃ a : Atomic T,
    Atomic_ctor T v = Return a
    ∧ encode_summary (A_Atomic T a) = Return (Atomic_encode a)
    ∧ Atomic_encode a !! "value" = Some (Var_hold T v)
    ∧ JSON.getValue std_string (Atomic_encode a) "type" = to_dtype_name (Native T).
Proof. destruct T; eexists; (split; [reflexivity|]); repeat split; reflexivity. Qed.


(** A string array of shape [2,2] encodes to a two-level nested list of
    its four strings in row-major order, with the encoding "list", and the
    wire object decodes back to the same array. *)
Theorem string_array_roundtrip_2_2 (s00 s01 s10 s11 : string) :
  ∃ (a : Array std_string) (encoded definition : Object),
    string_array_2_2 s00 s01 s10 s11 = Return a
    ∧ Array_encode a = Return encoded
    ∧ encoded !! "value" = Some (Var_object definition)
    ∧ definition !! "encoding" = Some (str "list")
    ∧ definition !! "data" =
        Some (Var_array [Var_array [str s00; str s01]; Var_array [str s10; str s11]])
    ∧ Array_decode std_string encoded = Return a
    ∧ decode encoded = Return (A_Array std_string a).
Proof.
  eexists _, _, _. split; [reflexivity|]. split; [reflexivity|].
  repeat split; reflexivity.
Qed.

(** A dictionary entry that is neither null nor an object makes
    [Dictionary::decode] fail: it returns no dictionary. *)
Theorem dictionary_non_object_entry_fails (json c : Object) (k : string) (v : Var) :
  JSON.getValue std_string json "type" = Return TYPE_NAME_DICTIONARY →
  json !! "items" = Some (Var_object c) →
  c !! k = Some v → v ≠ Var_empty → (∀ o, v ≠ Var_object o) →
  ¬ ∃ d, Dictionary_decode json = Return d.
Proof.
  intros Hty Hitems Hk Hne Hobj [d Hd].
  destruct (dictionary_decode_returns json c d Hty Hitems Hd) as (d0 & Hd0 & _).
  pose proof (decode_items_spec decode json c Dictionary_ctor Hitems) as Hspec.
  rewrite Hd0 in Hspec. destruct Hspec as (_ & _ & Hok).
  destruct (Hok k v Hk) as [|(o & _ & -> & _)]; [done|]. by eapply Hobj.
Qed.

(** The dispatcher refuses an object without a readable "type" and an
    object whose type name is none of those it routes, with the same
    [SALException]. *)
Theorem decode_unknown_type_fails (json : Object) :
  (∀ id, JSON.getValue std_string json "type" = Return id → id ∉ dispatched_names) →
  decode json = Throw (SALException "JSON object does not define a valid SAL attribute.").
Proof.
  intros Hid. rewrite decode_unfold. unfold decode_body.
  destruct (getValue_outcome std_string json "type") as [[id Hty]|[e Hty]];
    [specialize (Hid id Hty)|]; rewrite Hty; cbn [try_catch mbind Outcome_bind]; [|done].
  unfold dispatched_names in Hid.
  repeat (case_decide; [exfalso; apply Hid; subst id; set_solver|]).
  done.
Qed.

(** *** The container, the registry and the predicates *)

(** [Dictionary]: [set] stores or overwrites, [get] returns what was stored
    and throws [std::out_of_range] for an absent key, [has] tells the two
    apart, [remove] drops the key, and none of them touches another key. *)
Theorem dictionary_set_get_remove (d : Dictionary) (k k' : string) (a a' : Attribute) :
  Dict.get (Dict.set d k a) k = Return a
  ∧ Dict.has (Dict.set d k a) k = true
  ∧ Dict.set (Dict.set d k a') k a = Dict.set d k a
  ∧ Dict.has (Dict.remove d k) k = false
  ∧ Dict.get (Dict.remove d k) k = Throw (std_out_of_range "map::at")
  ∧ Dict.remove (Dict.set d k a) k = Dict.remove d k
  ∧ (Dict.has d k = false ↔ Dict.get d k = Throw (std_out_of_range "map::at"))
  ∧ (Dict.has d k = true ↔ ∃ x, Dict.get d k = Return x)
  ∧ (k ≠ k' →
     Dict.get (Dict.set d k a) k' = Dict.get d k'
     ∧ Dict.has (Dict.set d k a) k' = Dict.has d k'
     ∧ Dict.get (Dict.remove d k) k' = Dict.get d k'
     ∧ Dict.has (Dict.remove d k) k' = Dict.has d k')
  ∧ dictionary_base (Dict.set d k a) = dictionary_base d
  ∧ dictionary_base (Dict.remove d k) = dictionary_base d.
Proof.
  unfold Dict.get, Dict.has, Dict.set, Dict.remove. cbn [attributes dictionary_base].
  repeat split.
  - by rewrite lookup_insert_eq.
  - rewrite lookup_insert_eq. by apply bool_decide_eq_true_2.
  - by rewrite insert_insert_eq.
  - rewrite lookup_delete_eq. apply bool_decide_eq_false_2. by intros [? ?].
  - by rewrite lookup_delete_eq.
  - by rewrite delete_insert_eq.
  - intros Hh%bool_decide_eq_false_1. destruct (attributes d !! k); [|done].
    exfalso. apply Hh. eauto.
  - destruct (attributes d !! k); [done|]. intros _. apply bool_decide_eq_false_2.
    by intros [? ?].
  - intros [x Hx]%bool_decide_eq_true_1. rewrite Hx. eauto.
  - intros [x Hx]. apply bool_decide_eq_true_2. destruct (attributes d !! k); [eauto|done].
  - by rewrite lookup_insert_ne.
  - by rewrite lookup_insert_ne.
  - by rewrite lookup_delete_ne.
  - by rewrite lookup_delete_ne.
Qed.

(** The type registry: [to_dtype] and [to_dtype_name] are one-to-one on the
    native types, [dtype_map] holds exactly the pairs (name, tag) of the
    native types, and [to_dtype_name] refuses every other type while
    [to_dtype] knows the three attribute classes. *)
Theorem type_registry_one_to_one (T1 T2 : NativeType) (name : string) (ty : AttributeType) :
  (to_dtype (Native T1) = to_dtype (Native T2) → T1 = T2)
  ∧ (to_dtype_name (Native T1) = to_dtype_name (Native T2) → T1 = T2)
  ∧ (dtype_map !! name = Some ty ↔
     ∃ T, to_dtype_name (Native T) = Return name ∧ to_dtype (Native T) = Return ty)
  ∧ to_dtype cpp_Dictionary = Return ATTR_DICTIONARY
  ∧ to_dtype cpp_IArray_derived = Return ATTR_ARRAY
  ∧ to_dtype cpp_Null = Return ATTR_NULL
  ∧ (∀ DT, (∃ e, to_dtype_name DT = Throw e) ↔ ∀ T, DT ≠ Native T)
  ∧ (∀ DT, (∃ e, to_dtype DT = Throw e) ↔ DT = cpp_other).
Proof.
  split; [destruct T1, T2; (done || discriminate)|].
  split; [destruct T1, T2; (done || discriminate)|].
  split.
  { split.
    - intros Hm. unfold dtype_map in Hm.
      apply elem_of_list_to_map_2 in Hm.
      repeat (apply elem_of_cons in Hm as [[= -> ->]|Hm];
              [first [ by exists int64_t | by exists int32_t | by exists int16_t | by exists int8_t
                     | by exists uint64_t | by exists uint32_t | by exists uint16_t | by exists uint8_t
                     | by exists double | by exists float | by exists cpp_bool | by exists std_string ]|]).
      by apply not_elem_of_nil in Hm.
    - intros [T [Hn Ht]]. destruct T; injection Hn as <-; injection Ht as <-; reflexivity. }
  repeat split.
  - intros [e He] T ->. by destruct T.
  - intros Hn. destruct DT as [T| | | |]; [by destruct (Hn T)|eauto..].
  - intros [e He]. destruct DT as [T| | | |]; try done. by destruct T.
  - intros ->. eauto.
Qed.

(** The predicates of an attribute: exactly one of null, array, object and
    atomic holds; a number is an atomic that is neither a string nor a
    boolean; and the instances the constructors build are what they should
    be ([Atomic<T>] is a number exactly for the numeric types). *)
Theorem attribute_kinds_partition (b : Attribute_base) (T : NativeType) (v : native T) :
  (is_null b = true ∧ is_array b = false ∧ is_object b = false ∧ is_atomic b = false
   ∨ is_null b = false ∧ is_array b = true ∧ is_object b = false ∧ is_atomic b = false
   ∨ is_null b = false ∧ is_array b = false ∧ is_object b = true ∧ is_atomic b = false
   ∨ is_null b = false ∧ is_array b = false ∧ is_object b = false ∧ is_atomic b = true)
  ∧ (is_number b = true → is_atomic b = true ∧ is_string b = false ∧ is_boolean b = false)
  ∧ is_null Null_ctor = true
  ∧ is_object (dictionary_base Dictionary_ctor) = true
  ∧ (∃ a, Atomic_ctor T v = Return a
          ∧ is_atomic (atomic_base a) = true
          ∧ is_number (atomic_base a) = is_numeric T
          ∧ is_string (atomic_base a) = bool_decide (T = std_string)
          ∧ is_boolean (atomic_base a) = bool_decide (T = cpp_bool)).
Proof.
  unfold is_number, is_atomic, is_null, is_array, is_object, is_string, is_boolean, is_data_object.
  split; [destruct (m_type b); cbn; tauto|].
  split; [destruct (m_type b); cbn; (done || tauto)|].
  split; [done|]. split; [done|].
  destruct T; eexists; (split; [reflexivity|]); repeat split; reflexivity.
Qed.

(** [Atomic<T>::decode] returns exactly when the "type" of the object reads
    as the wire name of T and its "value" converts to T; the instance is
    then the one the constructor builds from that value. *)
Theorem atomic_decode_returns_iff (T : NativeType) (json : Object) (a : Atomic T) :
  Atomic_decode T json = Return a
  ↔ JSON.getValue std_string json "type" = to_dtype_name (Native T)
    ∧ JSON.getValue T json "value" = Return (value a)
    ∧ Atomic_ctor T (value a) = Return a.
Proof.
  destruct (to_dtype_native T) as (ty & name & Hty & Hname & _).
  unfold Atomic_decode, Atomic_decode_try, Atomic_ctor. rewrite Hty, Hname.
  destruct (JSON.getValue std_string json "type") as [s| | | |];
    cbn [mbind Outcome_bind try_catch]; try (split; [done|by intros [? _]]).
  case_decide as Hs; cbn [try_catch].
  - split; [done|]. intros [[= ->] _]. done.
  - assert (s = name) as -> by (by destruct (decide (s = name))).
    destruct (JSON.getValue T json "value") as [v| | | |];
      cbn [mbind Outcome_bind try_catch]; try (split; [done|by intros (_ & ? & _)]).
    split.
    + intros [= <-]. done.
    + intros (_ & [= ->] & ?). done.
Qed.

Lemma cast_Atomic_Some (T : NativeType) (a : Attribute) (x : Atomic T) :
  cast_Atomic T a = Some x ↔ a = A_Atomic T x.
Proof.
  split.
  - destruct a as [|T' y| |]; cbn; try done.
    destruct (decide (T' = T)) as [->|]; [|done].
    intros [= <-]. done.
  - intros ->. cbn. destruct (decide (T = T)) as [e|]; [|done].
    by rewrite (proof_irrel e eq_refl).
Qed.

Lemma cast_Array_Some (T : NativeType) (a : Attribute) (x : Array T) :
  cast_Array T a = Some x ↔ a = A_Array T x.
Proof.
  split.
  - destruct a as [| |T' y|]; cbn; try done.
    destruct (decide (T' = T)) as [->|]; [|done].
    intros [= <-]. done.
  - intros ->. cbn. destruct (decide (T = T)) as [e|]; [|done].
    by rewrite (proof_irrel e eq_refl).
Qed.

Lemma cast_Dictionary_Some (a : Attribute) (d : Dictionary) :
  cast_Dictionary a = Some d ↔ a = as_Attribute d.
Proof.
  split.
  - destruct a; cbn; try done. intros [= <-]. done.
  - intros ->. by destruct d.
Qed.

Lemma cast_checked {A} (cast : Attribute → option A) (inj : A → Attribute)
    (source : Outcome Attribute) :
  (∀ a x, cast a = Some x ↔ a = inj x) →
  checked_cast (a ← source; Return (cast a)) source inj.
Proof.
  intros Hcast. unfold checked_cast.
  destruct source as [a|e0| | |]; cbn [mbind Outcome_bind].
  - split; [|split].
    + intros x. split.
      * intros [= Hc]. by apply Hcast in Hc as ->.
      * intros [= ->]. f_equal. by apply Hcast.
    + split.
      * intros [= Hc]. exists a. split; [done|]. intros x ->.
        by rewrite (proj2 (Hcast (inj x) x) eq_refl) in Hc.
      * intros (a' & [= <-] & Ha). f_equal.
        destruct (cast a) as [x|] eqn:Hc; [|done].
        apply Hcast in Hc. by destruct (Ha x).
    + intros e. split; intros Heq; by simplify_eq.
  - split; [|split].
    + intros x. split; intros Heq; by simplify_eq.
    + split; [done|]. by intros (a & Ha & _).
    + intros e. split; intros Heq; by simplify_eq.
  - split; [|split]; [intros x; split; intros Heq; by simplify_eq| |intros e; split; intros Heq; by simplify_eq].
    split; [done|]. by intros (a & Ha & _).
  - split; [|split]; [intros x; split; intros Heq; by simplify_eq| |intros e; split; intros Heq; by simplify_eq].
    split; [done|]. by intros (a & Ha & _).
  - split; [|split]; [intros x; split; intros Heq; by simplify_eq| |intros e; split; intros Heq; by simplify_eq].
    split; [done|]. by intros (a & Ha & _).
Qed.

(** [decode_as<T>] and [get_as<T>], for each of the classes [Atomic<T>],
    [Array<T>] and [Dictionary]: a pointer of class T is handed out exactly
    when the decoded, or stored, instance is of that class; the null pointer
    is returned exactly when it is an instance of another class; and the
    call throws exactly what [decode], or [get], throws, which for [get] is
    [std::out_of_range] exactly for an absent key. *)
Theorem decode_as_checks_class (T : NativeType) (json : Object) (d : Dictionary) (key : string) :
  checked_cast (decode_as_Atomic T json) (decode json) (A_Atomic T)
  ∧ checked_cast (decode_as_Array T json) (decode json) (A_Array T)
  ∧ checked_cast (decode_as_Dictionary json) (decode json) as_Attribute
  ∧ checked_cast (get_as_Atomic T d key) (Dict.get d key) (A_Atomic T)
  ∧ checked_cast (get_as_Array T d key) (Dict.get d key) (A_Array T)
  ∧ checked_cast (get_as_Dictionary d key) (Dict.get d key) as_Attribute
  ∧ (∀ a, Dict.get d key = Return a ↔ attributes d !! key = Some a)
  ∧ (∀ e, Dict.get d key = Throw e ↔ Dict.has d key = false ∧ e = std_out_of_range "map::at")
  ∧ (∀ x, get_as_Atomic T d key = Return (Some x) ↔ attributes d !! key = Some (A_Atomic T x))
  ∧ (∀ x, get_as_Array T d key = Return (Some x) ↔ attributes d !! key = Some (A_Array T x))
  ∧ (∀ x, get_as_Dictionary d key = Return (Some x) ↔ attributes d !! key = Some (as_Attribute x))
  ∧ (Dict.has d key = false →
     get_as_Atomic T d key = Throw (std_out_of_range "map::at")
     ∧ get_as_Array T d key = Throw (std_out_of_range "map::at")
     ∧ get_as_Dictionary d key = Throw (std_out_of_range "map::at")).
Proof.
  assert (∀ a, Dict.get d key = Return a ↔ attributes d !! key = Some a) as Hget.
  { intros a. unfold Dict.get. destruct (attributes d !! key); split; intros Heq; by simplify_eq. }
  assert (∀ e, Dict.get d key = Throw e
               ↔ Dict.has d key = false ∧ e = std_out_of_range "map::at") as Hthrow.
  { intros e. unfold Dict.get, Dict.has. destruct (attributes d !! key) as [a|].
    - rewrite bool_decide_true by eauto. split; [done|by intros [? _]].
    - rewrite bool_decide_false by (by intros [? ?]).
      split; [intros [= <-]; done|by intros [_ ->]]. }
  pose proof (cast_checked (cast_Atomic T) (A_Atomic T) (decode json) (cast_Atomic_Some T)) as H1.
  pose proof (cast_checked (cast_Array T) (A_Array T) (decode json) (cast_Array_Some T)) as H2.
  pose proof (cast_checked cast_Dictionary as_Attribute (decode json) cast_Dictionary_Some) as H3.
  pose proof (cast_checked (cast_Atomic T) (A_Atomic T) (Dict.get d key) (cast_Atomic_Some T)) as H4.
  pose proof (cast_checked (cast_Array T) (A_Array T) (Dict.get d key) (cast_Array_Some T)) as H5.
  pose proof (cast_checked cast_Dictionary as_Attribute (Dict.get d key) cast_Dictionary_Some) as H6.
  do 6 (split; [done|]). split; [done|]. split; [done|].
  split; [intros x; rewrite <- Hget; apply H4|].
  split; [intros x; rewrite <- Hget; apply H5|].
  split; [intros x; rewrite <- Hget; apply H6|].
  intros Hhas.
  assert (Dict.get d key = Throw (std_out_of_range "map::at")) as Hg by (by apply Hthrow).
  split; [by apply H4|]. split; [by apply H5|by apply H6].
Qed.

(** The shape on the wire: with fewer than 256 dimensions [encode_shape]
    writes one entry an extent and [decode_shape] reads the shape back. *)
Theorem shape_codec_roundtrip {T} (a : Array T) :
  (length (shape a) < 256)%nat →
  ∃ s, encode_shape a = Return s
       ∧ length s = length (shape a)
       ∧ decode_shape (Some s) = Return (shape a).
Proof.
  intros Hn. exists (extent <$> shape a). split; [by apply encode_shape_spec|].
  split; [by rewrite length_fmap|by apply decode_shape_spec].
Qed.

(** With 256 dimensions or more the 8-bit loop counters of [encode_shape]
    and [decode_shape] wrap before they reach the bound: neither returns. *)
Theorem shape_codec_wraps_at_256 {T} (a : Array T) (dims : ShapeType) :
  (256 ≤ length (shape a))%nat → (256 ≤ length dims)%nat →
  Z.of_nat (length (shape a)) < 2 ^ 64 → Z.of_nat (length dims) < 2 ^ 64 →
  encode_shape a = Diverge
  ∧ Array_encode_summary a = Diverge
  ∧ Array_encode a = Diverge
  ∧ decode_shape (Some (extent <$> dims)) = Diverge.
Proof.
  intros Ha Hd Hla Hld.
  assert (encode_shape a = Diverge) as He by (by apply encode_shape_diverges).
  unfold Array_encode_summary, Array_encode. rewrite He. repeat split.
  unfold decode_shape, for_uint8. cbn [deref mbind Outcome_bind].
  rewrite length_fmap. rewrite decide_False by lia.
  rewrite resize_nil, Nat2Z.id.
  pose proof (decode_shape_loop dims 256 0) as Hloop.
  rewrite take_0, Nat.sub_0_r in Hloop. change (Z.of_nat 0) with 0 in Hloop.
  cbn [app] in Hloop. by rewrite Hloop by (simpl; lia).
Qed.

(** *** Bounds-checked access within the bounds *)

Lemma extents_product_pos (shape : ShapeType) :
  Forall (fun e => 1 <= e) shape → 1 <= extents_product shape.
Proof.
  unfold extents_product. induction 1 as [|e rest He _ IH]; cbn [foldr]; [lia|nia].
Qed.

Lemma within_extents (idx shape : list Z) :
  Forall2 within idx shape → Forall (fun e => 1 <= e) shape.
Proof. induction 1 as [|ix e idx shape Hw _ IH]; constructor; [unfold within in Hw; lia|done]. Qed.

Lemma row_major_suffix_products (shape : ShapeType) :
  Forall (fun e => 1 <= e) shape → extents_product shape < 2 ^ 64 →
  row_major shape = suffix_products shape.
Proof.
  induction 1 as [|e rest He Hrest IH]; intros Hp; [done|].
  pose proof (extents_product_pos rest Hrest) as Hpos.
  cbn [extents_product foldr] in Hp. fold (extents_product rest) in Hp.
  cbn [row_major suffix_products]. rewrite IH by nia. f_equal.
  destruct rest as [|e' rest']; [done|].
  cbn [head suffix_products]. apply Forall_cons in Hrest as [He' Hrest'].
  pose proof (extents_product_pos rest' Hrest') as Hpos'.
  cbn [extents_product foldr] in *. fold (extents_product rest') in *.
  rewrite uint64_small by nia. lia.
Qed.

Lemma suffix_products_lookup (shape : ShapeType) (i : nat) (e : Z) :
  shape !! i = Some e →
  suffix_products shape !! i = Some (extents_product (drop (S i) shape)).
Proof.
  revert i. induction shape as [|e0 rest IH]; intros [|i] Hi; try done.
  cbn in Hi. cbn [suffix_products]. by apply IH.
Qed.

Lemma foldl_extents_product (shape : ShapeType) (acc : Z) :
  Forall (fun e => 1 <= e) shape → 0 <= acc → acc * extents_product shape < 2 ^ 64 →
  foldl (fun acc d => uint64 (acc * d)) acc shape = acc * extents_product shape.
Proof.
  intros Hs. revert acc. induction Hs as [|e rest He Hrest IH]; intros acc Hacc Hp.
  - cbn. lia.
  - pose proof (extents_product_pos rest Hrest) as Hpos.
    cbn [foldl extents_product foldr] in *. fold (extents_product rest) in *.
    rewrite uint64_small by nia. rewrite IH by nia. lia.
Qed.

Lemma flat_index_bound (idx shape : list Z) :
  Forall2 within idx shape →
  0 <= flat_index shape idx ∧ flat_index shape idx + 1 <= extents_product shape.
Proof.
  induction 1 as [|ix e idx shape Hw Hrest IH]; [cbn; lia|].
  pose proof (extents_product_pos shape (within_extents _ _ Hrest)) as Hpos.
  unfold within in Hw.
  cbn [flat_index extents_product foldr]. fold (extents_product shape). nia.
Qed.

Lemma at_arguments_length (idx : list Z) : length (at_arguments idx) = length idx.
Proof. destruct idx as [|i0 rest]; [done|]. cbn. by rewrite length_fmap. Qed.

Lemma at_arguments_fit (idx : list Z) : fits_parameters idx → at_arguments idx = idx.
Proof.
  destruct idx as [|i0 rest]; [done|]. intros [H0 Hrest]. unfold at_arguments.
  rewrite int32_small by done. f_equal.
  induction Hrest as [|i rest Hi _ IH]; [done|].
  cbn [fmap list_fmap]. rewrite int64_small by done. f_equal. apply IH.
Qed.

Lemma dim_index_of_lookup (idx : list Z) (i : nat) (ix : Z) :
  (length idx ≤ 10)%nat → at_arguments idx !! i = Some ix → dim_index_of idx !! i = Some ix.
Proof.
  intros Hlen Hi. apply lookup_lt_Some in Hi as Hlt. rewrite at_arguments_length in Hlt.
  unfold dim_index_of.
  rewrite lookup_take_lt by lia. by rewrite lookup_app_l by (rewrite at_arguments_length; lia).
Qed.

Lemma at_loop_in_bounds {T} (a : Array T) (idx : list Z) (k i : nat) (acc : Z) :
  m_strides (iarray a) = suffix_products (m_shape (iarray a)) →
  (length idx ≤ 10)%nat →
  (length (m_shape (iarray a)) ≤ 10)%nat →
  (i + k = length (m_shape (iarray a)))%nat →
  Forall2 within (drop i (at_arguments idx)) (drop i (m_shape (iarray a))) →
  0 <= acc → acc + extents_product (drop i (m_shape (iarray a))) <= 2 ^ 64 →
  for_loop k (Z.of_nat i)
    (fun i element_index =>
       ix ← vec_get (dim_index_of idx) i;
       if decide (ix < 0)
       then Throw (std_out_of_range "An array index is missing or is out of bounds.")
       else
         d ← vec_get (m_shape (iarray a)) i;
         if decide (uint64 ix > uint64 (d - 1))
         then Throw (std_out_of_range "An array index is missing or is out of bounds.")
         else
           s ← vec_get (m_strides (iarray a)) i;
           Return (uint64 (element_index + ix * s)))
    acc
  = Return (acc + flat_index (drop i (m_shape (iarray a))) (drop i (at_arguments idx))).
Proof.
  intros Hst Hlen Hlen'. revert i acc.
  induction k as [|k IH]; intros i acc Hik Hw Hacc Hp.
  - cbn [for_loop]. rewrite (drop_ge (m_shape _)) by lia. cbn. f_equal. lia.
  - destruct (lookup_lt_is_Some_2 (m_shape (iarray a)) i ltac:(lia)) as [e He].
    rewrite (drop_S _ e i He) in Hw, Hp |- *.
    destruct (drop i (at_arguments idx)) as [|ix rest] eqn:Hdrop; [by inversion Hw|].
    assert (at_arguments idx !! i = Some ix) as Hix.
    { rewrite <- (Nat.add_0_r i), <- lookup_drop, Hdrop. done. }
    assert (drop (S i) (at_arguments idx) = rest) as Hrest.
    { rewrite (drop_S _ ix i Hix) in Hdrop. by injection Hdrop. }
    apply Forall2_cons in Hw as [Hwi Hw]. unfold within in Hwi.
    pose proof (extents_product_pos _ (within_extents _ _ Hw)) as Hpos.
    cbn [extents_product foldr] in Hp. fold (extents_product (drop (S i) (m_shape (iarray a)))) in Hp.
    cbn [for_loop].
    rewrite (vec_get_lookup (dim_index_of idx) i _ ix)
      by (by apply dim_index_of_lookup || done || lia).
    cbn [mbind Outcome_bind]. rewrite decide_False by lia.
    rewrite (vec_get_lookup (m_shape (iarray a)) i _ e) by (done || lia).
    cbn [mbind Outcome_bind]. rewrite !uint64_small by nia.
    rewrite decide_False by lia.
    rewrite Hst.
    rewrite (vec_get_lookup (suffix_products (m_shape (iarray a))) i _
               (extents_product (drop (S i) (m_shape (iarray a)))))
      by (by apply (suffix_products_lookup _ _ e) || done || lia).
    cbn [mbind Outcome_bind]. rewrite uint64_small by nia.
    replace (Z.of_nat i + 1) with (Z.of_nat (S i)) by lia.
    rewrite <- Hst. rewrite IH; [|lia|by rewrite Hrest|nia|nia].
    rewrite Hrest. cbn [flat_index]. f_equal. lia.
Qed.

(** What [at] does on an array of 1 to 10 dimensions, built by the
    constructor and then filled with [d], when every index, as its
    parameter receives it, is within its extent. *)
Lemma at_in_bounds_spec (T : NativeType) (_shape : ShapeType) (ty : AttributeType) (name : string)
    (a : Array T) (d : list (native T)) (idx : list Z) :
  Array_ctor3 T _shape ty name = Return a →
  (0 < length _shape ≤ 10)%nat →
  extents_product _shape < 2 ^ 64 →
  length d = length (data a) →
  Forall2 within (at_arguments idx) _shape →
  size (set_data d a) = extents_product _shape
  ∧ 0 <= flat_index _shape (at_arguments idx) < size (set_data d a)
  ∧ at_body (set_data d a) idx = Return (flat_index _shape (at_arguments idx))
  ∧ ∃ x, d !! Z.to_nat (flat_index _shape (at_arguments idx)) = Some x
         ∧ at_ (set_data d a) idx = Return x.
Proof.
  intros Hctor Hn Hp Hd Hw.
  rewrite Array_ctor3_spec in Hctor by lia. injection Hctor as <-.
  pose proof (within_extents _ _ Hw) as Hext.
  pose proof (flat_index_bound _ _ Hw) as [Hf0 Hf1].
  pose proof (extents_product_pos _ Hext) as Hpos.
  cbn [data] in Hd. rewrite length_replicate in Hd.
  rewrite foldl_extents_product in Hd by (done || lia).
  rewrite Z.mul_1_l in Hd.
  assert (size (set_data d
            {| iarray := {| array_base := Attribute_ctor ATTR_ARRAY TYPE_NAME_ARRAY;
                            m_dimension := Z.of_nat (length _shape);
                            m_shape := _shape; m_strides := row_major _shape |};
               m_element_type := ty; m_element_type_name := name;
               data := replicate (Z.to_nat (foldl (fun acc d => uint64 (acc * d)) 1 _shape))
                         (default_value T) |}) = extents_product _shape) as Hsize.
  { unfold size, set_data. cbn [data]. lia. }
  split; [done|]. split; [lia|].
  assert (at_body (set_data d
            {| iarray := {| array_base := Attribute_ctor ATTR_ARRAY TYPE_NAME_ARRAY;
                            m_dimension := Z.of_nat (length _shape);
                            m_shape := _shape; m_strides := row_major _shape |};
               m_element_type := ty; m_element_type_name := name;
               data := replicate (Z.to_nat (foldl (fun acc d => uint64 (acc * d)) 1 _shape))
                         (default_value T) |}) idx
          = Return (flat_index _shape (at_arguments idx))) as Hat.
  { unfold at_body, set_data. cbn [iarray m_dimension m_shape m_strides].
    rewrite decide_False by lia. rewrite Nat2Z.id.
    apply Forall2_length in Hw as Hlen. rewrite at_arguments_length in Hlen.
    pose proof (at_loop_in_bounds
      {| iarray := {| array_base := Attribute_ctor ATTR_ARRAY TYPE_NAME_ARRAY;
                      m_dimension := Z.of_nat (length _shape);
                      m_shape := _shape; m_strides := row_major _shape |};
         m_element_type := ty; m_element_type_name := name; data := d |}
      idx (length _shape) 0 0) as Hloop.
    cbn [iarray m_shape m_strides] in Hloop. rewrite !drop_0 in Hloop.
    change (Z.of_nat 0) with 0 in Hloop.
    rewrite Hloop; [f_equal; lia|by apply row_major_suffix_products|lia|lia|lia|done|lia|lia]. }
  split; [done|].
  destruct (lookup_lt_is_Some_2 d (Z.to_nat (flat_index _shape (at_arguments idx))) ltac:(lia))
    as [x Hx].
  exists x. split; [done|]. unfold at_. rewrite Hat. cbn [mbind Outcome_bind].
  unfold vec_get, set_data. cbn [data]. rewrite uint64_small by lia.
  rewrite decide_True by lia. by rewrite Hx.
Qed.

(** Memory safety of the bounds-checked access: on an array of 1 to 10
    dimensions whose element count fits 64 bits, [at] with every index, as
    its parameter receives it (the first argument converted to [int], the
    others to [int64_t]), within its extent returns the element at the
    row-major offset of the received indices, which lies inside the buffer.
    Arguments in the range of their parameter types are received as they
    are. *)
Theorem at_in_bounds_returns_element (T : NativeType) (_shape : ShapeType) (ty : AttributeType)
    (name : string) (a : Array T) (d : list (native T)) (idx : list Z) :
  Array_ctor3 T _shape ty name = Return a →
  (0 < length _shape ≤ 10)%nat →
  extents_product _shape < 2 ^ 64 →
  length d = length (data a) →
  Forall2 within (at_arguments idx) _shape →
  size (set_data d a) = extents_product _shape
  ∧ 0 <= flat_index _shape (at_arguments idx) < size (set_data d a)
  ∧ at_index (set_data d a) idx = Return (flat_index _shape (at_arguments idx))
  ∧ at_ (set_data d a) idx = subscript (set_data d a) (flat_index _shape (at_arguments idx))
  ∧ (∃ x, d !! Z.to_nat (flat_index _shape (at_arguments idx)) = Some x
          ∧ at_ (set_data d a) idx = Return x)
  ∧ (fits_parameters idx → at_arguments idx = idx).
Proof.
  intros Hctor Hn Hp Hd Hw.
  destruct (at_in_bounds_spec T _shape ty name a d idx Hctor Hn Hp Hd Hw)
    as (Hsize & Hrange & Hat & x & Hx & Hret).
  split; [done|]. split; [done|]. split; [unfold at_index; by rewrite Hat|].
  split; [|split; [eauto|apply at_arguments_fit]].
  rewrite Hret. unfold subscript, vec_get, set_data. cbn [data].
  apply lookup_lt_Some in Hx as Hlt.
  rewrite uint64_small by lia. rewrite decide_True by lia. by rewrite Hx.
Qed.

(** On a matrix the unchecked [operator()(row, column)] and the checked
    [at(row, column)] address the same element, [row * columns + column],
    when the indices are within the extents and in the range of the
    parameters of [at] (an [int] and an [int64_t]). *)
Theorem call_agrees_with_at (T : NativeType) (rows columns : Z) (ty : AttributeType)
    (name : string) (a : Array T) (d : list (native T)) (row column : Z) :
  Array_ctor3 T [rows; columns] ty name = Return a →
  rows * columns < 2 ^ 64 →
  length d = length (data a) →
  0 <= row < rows → 0 <= column < columns →
  row < 2 ^ 31 → column < 2 ^ 63 →
  call_index (set_data d a) row column = Return (row * columns + column)
  ∧ at_index (set_data d a) [row; column] = Return (row * columns + column)
  ∧ call (set_data d a) row column = at_ (set_data d a) [row; column]
  ∧ ∃ x, call (set_data d a) row column = Return x.
Proof.
  intros Hctor Hp Hd Hr Hc Hrow Hcolumn.
  assert (at_arguments [row; column] = [row; column]) as Hargs.
  { apply at_arguments_fit. split; [lia|]. apply Forall_cons_2; [lia|apply Forall_nil_2]. }
  assert (Forall2 within (at_arguments [row; column]) [rows; columns]) as Hw.
  { rewrite Hargs. repeat first [apply Forall2_cons_2 | apply Forall2_nil_2]; done. }
  destruct (at_in_bounds_spec T [rows; columns] ty name a d [row; column] Hctor
              ltac:(simpl; lia) ltac:(cbn; lia) Hd Hw) as (Hsize & Hrange & Hat & x & Hx & Hret).
  rewrite Hargs in *.
  assert (flat_index [rows; columns] [row; column] = row * columns + column) as Hf
    by (cbn; lia).
  rewrite Hf in *.
  assert (call_index (set_data d a) row column = Return (row * columns + column)) as Hcall.
  { rewrite Array_ctor3_spec in Hctor by (simpl; lia). injection Hctor as <-.
    unfold call_index, set_data. cbn [iarray m_strides row_major head].
    rewrite (vec_get_lookup _ 0 _ (uint64 (1 * columns))) by (done || lia).
    cbn [mbind Outcome_bind]. rewrite (uint64_small (1 * columns)) by nia.
    rewrite uint64_small by nia. f_equal. lia. }
  split; [done|]. split; [unfold at_index; by rewrite Hat|].
  assert (call (set_data d a) row column = Return x) as Hcallx.
  { unfold call. rewrite Hcall. cbn [mbind Outcome_bind].
    unfold at_ in Hret. rewrite Hat in Hret. cbn [mbind Outcome_bind] in Hret.
    by destruct (vec_get (data (set_data d a)) (row * columns + column)). }
  split; [by rewrite Hcallx, Hret|eauto].
Qed.

(** *** The binary encoding of numeric arrays *)

Lemma Z_of_byte_of_Z (z : Z) : Z_of_byte (byte_of_Z z) = z mod 256.
Proof.
  unfold Z_of_byte, byte_of_Z.
  pose proof (Z.mod_pos_bound z 256 ltac:(lia)) as Hz.
  destruct (Byte.of_N (Z.to_N (z mod 256))) as [b|] eqn:Hb.
  - apply Byte.to_of_N in Hb. change (Z.of_N (Byte.to_N b) = z mod 256). rewrite Hb. lia.
  - apply Byte.of_N_None_iff in Hb. lia.
Qed.

Lemma le_value_bytes (z : Z) (n i : nat) :
  le_value ((fun k => byte_of_Z (z / 2 ^ (8 * Z.of_nat k))) <$> seq i n)
  = (z / 2 ^ (8 * Z.of_nat i)) mod 2 ^ (8 * Z.of_nat n).
Proof.
  revert i. induction n as [|n IH]; intros i.
  - cbn [seq fmap list_fmap le_value foldr]. change (8 * Z.of_nat 0) with 0.
    by rewrite Z.pow_0_r, Z.mod_1_r.
  - cbn [seq fmap list_fmap le_value foldr]. fold (le_value ((fun k => byte_of_Z (z / 2 ^ (8 * Z.of_nat k))) <$> seq (S i) n)).
    rewrite IH, Z_of_byte_of_Z.
    replace (8 * Z.of_nat (S n)) with (8 + 8 * Z.of_nat n) by lia.
    replace (8 * Z.of_nat (S i)) with (8 * Z.of_nat i + 8) by lia.
    rewrite !Z.pow_add_r by lia. change (2 ^ 8) with 256.
    rewrite <- Z.div_div by lia.
    by rewrite Z.rem_mul_r by lia.
Qed.

Lemma unpack_pack (T : NativeType) (x : native T) :
  is_numeric T = true → representable T x = true → unpack T (pack T x) = x.
Proof.
  intros HT Hx.
  destruct T; try discriminate HT; cbn [native] in x;
    unfold unpack, pack;
    rewrite (le_value_bytes x _ 0);
    cbn [sizeof is_signed andb representable] in *;
    change (8 * Z.of_nat 0) with 0; rewrite Z.pow_0_r, Z.div_1_r;
    apply andb_prop in Hx as [?%Z.leb_le ?%Z.ltb_lt].
  all: match goal with
       | |- context [2 ^ (8 * Z.of_nat ?n)] =>
           let v := eval vm_compute in (2 ^ (8 * Z.of_nat n)) in
           change (2 ^ (8 * Z.of_nat n)) with v
       end.
  all: repeat match goal with
       | H : context [2 ^ ?n] |- _ =>
           let v := eval vm_compute in (2 ^ n) in change (2 ^ n) with v in H
       | |- context [2 ^ ?n] =>
           let v := eval vm_compute in (2 ^ n) in change (2 ^ n) with v
       end.
  all: try (rewrite Z.mod_small by lia; reflexivity).
  all: match goal with |- context [Z.leb ?a ?b] => destruct (Z.leb_spec0 a b) end;
       Z.to_euclidean_division_equations; lia.
Qed.

Lemma pack_length (T : NativeType) (x : native T) :
  is_numeric T = true → length (pack T x) = Z.to_nat (sizeof T).
Proof.
  intros HT. destruct T; try discriminate HT; unfold pack; by rewrite length_fmap, length_seq.
Qed.

Lemma buffer_bytes_length (T : NativeType) (d : list (native T)) :
  is_numeric T = true → length (buffer_bytes d) = (length d * Z.to_nat (sizeof T))%nat.
Proof.
  intros HT. unfold buffer_bytes. induction d as [|x d IH]; [done|].
  cbn [mbind list_bind]. change (foldr _ _ _) with (pack T x ++ (d ≫= pack T)).
  rewrite length_app, pack_length by done. cbn [length]. rewrite IH. lia.
Qed.

Lemma buffer_of_bytes_buffer_bytes (T : NativeType) (d : list (native T)) :
  is_numeric T = true → forallb (representable T) d = true →
  buffer_of_bytes T (length d) (buffer_bytes d) = d.
Proof.
  intros HT. unfold buffer_of_bytes, buffer_bytes.
  induction d as [|x d IH]; intros Hd; [done|].
  cbn [forallb] in Hd. apply andb_prop in Hd as [Hx Hd].
  cbn [length seq fmap list_fmap].
  change ((x :: d) ≫= pack T) with (pack T x ++ (d ≫= pack T)).
  f_equal.
  - cbn [Nat.mul]. rewrite drop_0. rewrite take_app_length' by (by rewrite pack_length).
    by apply unpack_pack.
  - rewrite <- fmap_S_seq, <- list_fmap_compose. rewrite <- (IH Hd) at 2.
    apply list_fmap_ext. intros _ k _. cbn [compose]. f_equal. f_equal.
    replace (S k * Z.to_nat (sizeof T))%nat with (Z.to_nat (sizeof T) + k * Z.to_nat (sizeof T))%nat by lia.
    by rewrite drop_app_add' by (by rewrite pack_length).
Qed.

Lemma getArray_lookup (json : Object) (key : string) (a : JSON_Array) :
  json !! key = Some (Var_array a) → JSON.getArray json key = Some a.
Proof. intros Hk. unfold JSON.getArray. by rewrite Hk. Qed.

Lemma array_decode_full (T : NativeType) (json ad : Object) (ty enc name : string) (dims : ShapeType) :
  json !! "type" = Some (str "array") →
  json !! "value" = Some (Var_object ad) →
  to_dtype_name (Native T) = Return name →
  ad !! "type" = Some (str ty) → ty = "bool" ∨ ty = name →
  ad !! "encoding" = Some (str enc) → enc = "base64" ∨ enc = "list" →
  ad !! "shape" = Some (Var_array (extent <$> dims)) → (length dims < 256)%nat →
  Array_decode T json =
    a ← Array_ctor T dims;
    if decide (element_type_name (Array_set_is_summary false a) = "string")
    then decode_data_from_json_array (Array_set_is_summary false a) (JSON.getArray ad "data") 0 0
    else data_str ← JSON.getValue std_string ad "data";
         decode_data (Array_set_is_summary false a) data_str.
Proof.
  intros Hjt Hjv Hname Hty Hty' Henc Henc' Hsh Hn.
  unfold Array_decode.
  rewrite (getValue_string json "type" "array") by done.
  cbn [mbind Outcome_bind]. rewrite decide_False by (by intros []).
  unfold JSON.has, JSON.getObject. rewrite Hjv.
  rewrite bool_decide_true by eauto. cbn [negb deref mbind Outcome_bind].
  rewrite (getValue_string ad "type" ty) by done.
  rewrite Hname. cbn [mbind Outcome_bind].
  rewrite decide_False by (destruct Hty' as [-> | ->]; intros []; congruence).
  rewrite (getValue_string ad "encoding" enc) by done.
  cbn [mbind Outcome_bind].
  replace (bool_decide (enc = "base64") || bool_decide (enc = "list")) with true
    by (by destruct Henc' as [-> | ->]).
  cbn [negb]. rewrite (getArray_lookup ad "shape" _ Hsh).
  rewrite decode_shape_spec by lia. cbn [mbind Outcome_bind]. reflexivity.
Qed.

Lemma numeric_name (T : NativeType) (name : string) :
  is_numeric T = true → to_dtype_name (Native T) = Return name →
  name ≠ "string" ∧ name ≠ "bool".
Proof. intros HT. destruct T; try discriminate HT; intros [= <-]; split; congruence. Qed.

Lemma decode_array_routes (T : NativeType) (json ad : Object) (name : string) :
  json !! "value" = Some (Var_object ad) →
  ad !! "type" = Some (str name) →
  to_dtype_name (Native T) = Return name → T ≠ cpp_bool →
  decode_array json = as_IArray T (Array_decode T json).
Proof.
  intros Hjv Hty Hname HT. unfold decode_array, JSON.getObject. rewrite Hjv.
  cbn [deref mbind Outcome_bind]. rewrite (getValue_string ad "type" name) by done.
  cbn [try_catch mbind Outcome_bind].
  destruct T; try done; injection Hname as <-; reflexivity.
Qed.

Lemma decode_routes_array (json : Object) :
  json !! "type" = Some (str "array") →
  decode json = (fun p : IArray_Ptr => A_Array (projT1 p) (projT2 p)) <$> decode_array json.
Proof.
  intros Hjt. rewrite decode_unfold. unfold decode_body.
  rewrite (getValue_string json "type" "array") by done. reflexivity.
Qed.

(** A numeric array, filled with values of its element type, encodes to
    the wire object with encoding "base64" and decodes from it to the same
    array through [Array<T>::decode], [decode_array] and the dispatcher,
    provided the base64 codec returns the bytes it was given and the byte
    size of the buffer fits 64 bits. *)
Theorem numeric_array_roundtrip (T : NativeType) (dims : ShapeType) (a : Array T)
    (d : list (native T)) :
  is_numeric T = true →
  (0 < length dims < 256)%nat →
  Array_ctor T dims = Return a →
  length d = length (data a) →
  Z.of_nat (length d) * sizeof T < 2 ^ 64 →
  forallb (representable T) d = true →
  base64_decode (base64_encode (buffer_bytes d)) = buffer_bytes d →
  ∃ encoded ad,
    Array_encode (set_data d a) = Return encoded
    ∧ encoded !! "value" = Some (Var_object ad)
    ∧ ad !! "encoding" = Some (str "base64")
    ∧ ad !! "data" = Some (str (base64_encode (buffer_bytes d)))
    ∧ Array_decode T encoded = Return (set_data d a)
    ∧ decode_array encoded = Return (existT T (set_data d a))
    ∧ decode encoded = Return (A_Array T (set_data d a)).
Proof.
  intros HT Hn Hctor Hlen Hsize Hrep Hcodec.
  destruct (Array_ctor_spec T dims Hn) as (ty & name & Hty & Hname & Hspec).
  destruct (numeric_name T name HT Hname) as [Hstring Hbool].
  rewrite Hspec in Hctor. injection Hctor as <-.
  cbn [data] in Hlen. rewrite length_replicate in Hlen.
  unfold Array_encode. rewrite encode_shape_spec by (cbn; lia).
  cbn [mbind Outcome_bind is_summary set_data iarray array_base Attribute_ctor m_is_summary
       m_element_type_name shape m_shape].
  unfold element_type_name, encoding, element_type_name, encode_data.
  cbn [m_element_type_name data type_name iarray array_base Attribute_ctor m_type_name].
  rewrite !decide_False by done. cbn [mbind Outcome_bind].
  eexists _, _. split; [reflexivity|].
  split; [unfold JSON.set; by simplify_map_eq|].
  split; [unfold JSON.set; by simplify_map_eq|].
  split; [unfold JSON.set; by simplify_map_eq|].
  match goal with |- context [Array_decode T ?j] => set (encoded := j) end.
  assert (Array_decode T encoded =
    Return {| iarray := {| array_base := Attribute_ctor ATTR_ARRAY TYPE_NAME_ARRAY;
                           m_dimension := Z.of_nat (length dims);
                           m_shape := dims; m_strides := row_major dims |};
              m_element_type := ty; m_element_type_name := name; data := d |}) as Hdec.
  { erewrite (array_decode_full T encoded _ name "base64" name dims);
      [ | unfold encoded, JSON.set; by simplify_map_eq
        | unfold encoded, JSON.set; by simplify_map_eq
        | done
        | unfold JSON.set; by simplify_map_eq
        | by right
        | unfold JSON.set; by simplify_map_eq
        | by left
        | unfold JSON.set; by simplify_map_eq
        | lia ].
    rewrite Hspec. cbn [mbind Outcome_bind].
    unfold element_type_name, Array_set_is_summary.
    cbn [m_element_type_name iarray array_base m_dimension m_shape m_strides m_element_type data].
    rewrite decide_False by done.
    rewrite (getValue_string _ "data" (base64_encode (buffer_bytes d)))
      by (unfold JSON.set; by simplify_map_eq).
    cbn [mbind Outcome_bind]. unfold decode_data, data_pointer, element_type_name.
    cbn [m_element_type_name]. rewrite decide_True by done.
    cbn [mbind Outcome_bind]. unfold set_data, size.
    cbn [data iarray m_element_type m_element_type_name].
    rewrite Hcodec. rewrite <- Hlen, !length_replicate.
    assert (0 < sizeof T) as Hs by (by destruct T).
    rewrite uint64_small by lia.
    rewrite take_ge by (rewrite buffer_bytes_length by done; lia).
    rewrite drop_ge
      by (rewrite !buffer_bytes_length by done; rewrite length_replicate; lia).
    rewrite app_nil_r.
    rewrite buffer_of_bytes_buffer_bytes by done.
    unfold Attribute_ctor, set_is_summary. reflexivity. }
  split; [done|].
  assert (decode_array encoded =
    Return (existT T {| iarray := {| array_base := Attribute_ctor ATTR_ARRAY TYPE_NAME_ARRAY;
                           m_dimension := Z.of_nat (length dims);
                           m_shape := dims; m_strides := row_major dims |};
              m_element_type := ty; m_element_type_name := name; data := d |})) as Hdec'.
  { erewrite (decode_array_routes T encoded _ name);
      [ | unfold encoded, JSON.set; by simplify_map_eq
        | unfold JSON.set; by simplify_map_eq
        | done
        | by intros -> ].
    by rewrite Hdec. }
  split; [done|].
  rewrite decode_routes_array by (unfold encoded, JSON.set; by simplify_map_eq).
  by rewrite Hdec'.
Qed.

(** *** What [Array<T>::decode] and [decode_array] refuse *)

(** [Array<T>::decode] checks, in this order, the type of the object, the
    element type of the definition (where "bool" passes for every [T]) and
    the encoding; each failed check throws its own [SALException], whatever
    the rest of the object holds. *)
Theorem array_decode_validation (T : NativeType) (json ad : Object) (outer ty name : string) :
  json !! "type" = Some (str outer) →
  json !! "value" = Some (Var_object ad) →
  ad !! "type" = Some (str ty) →
  to_dtype_name (Native T) = Return name →
  (outer ≠ "array" →
     Array_decode T json = Throw (SALException "type does not match, `array` is expected here"))
  ∧ (outer = "array" → ty ≠ "bool" → ty ≠ name →
     Array_decode T json
     = Throw (SALException "internal element type and input json data type does not match"))
  ∧ (∀ enc, outer = "array" → ty = "bool" ∨ ty = name →
     ad !! "encoding" = Some (str enc) → enc ≠ "base64" → enc ≠ "list" →
     Array_decode T json = Throw (SALException "encoding is not supported")).
Proof.
  intros Hjt Hjv Hty Hname.
  split; [|split].
  - intros Houter. unfold Array_decode.
    rewrite (getValue_string json "type" outer) by done.
    cbn [mbind Outcome_bind]. by rewrite decide_True.
  - intros -> Hbool Hother. unfold Array_decode.
    rewrite (getValue_string json "type" "array") by done.
    cbn [mbind Outcome_bind]. rewrite decide_False by (by intros []).
    unfold JSON.has. rewrite Hjv, bool_decide_true by eauto.
    rewrite (getObject_lookup json "value" ad Hjv).
    cbn [negb deref mbind Outcome_bind].
    rewrite (getValue_string ad "type" ty) by done.
    rewrite Hname. cbn [mbind Outcome_bind]. by rewrite decide_True.
  - intros enc -> Hok Henc Hb64 Hlist. unfold Array_decode.
    rewrite (getValue_string json "type" "array") by done.
    cbn [mbind Outcome_bind]. rewrite decide_False by (by intros []).
    unfold JSON.has. rewrite Hjv, bool_decide_true by eauto.
    rewrite (getObject_lookup json "value" ad Hjv).
    cbn [negb deref mbind Outcome_bind].
    rewrite (getValue_string ad "type" ty) by done.
    rewrite Hname. cbn [mbind Outcome_bind].
    rewrite decide_False by (destruct Hok as [-> | ->]; intros []; congruence).
    rewrite (getValue_string ad "encoding" enc) by done.
    cbn [mbind Outcome_bind].
    by rewrite !bool_decide_false by done.
Qed.

(** [decode_array] and, through it, the dispatcher refuse an array whose
    element type name is not in the registry [dtype_map], naming the
    offending string in the message. *)
Theorem decode_array_unsupported_element_type (json ad : Object) (ty : string) :
  json !! "type" = Some (str "array") →
  json !! "value" = Some (Var_object ad) →
  ad !! "type" = Some (str ty) →
  dtype_map !! ty = None →
  decode_array json = Throw (SALException ("data type string `" +:+ ty +:+ "` is not supported"))
  ∧ decode json = Throw (SALException ("data type string `" +:+ ty +:+ "` is not supported")).
Proof.
  intros Hjt Hjv Hty Hmap.
  assert (decode_array json
          = Throw (SALException ("data type string `" +:+ ty +:+ "` is not supported"))) as Hdec.
  { unfold decode_array. rewrite (getObject_lookup json "value" ad Hjv).
    cbn [deref mbind Outcome_bind]. rewrite (getValue_string ad "type" ty) by done.
    cbn [try_catch mbind Outcome_bind].
    repeat (case_decide; [subst ty; vm_compute in Hmap; discriminate|]).
    reflexivity. }
  split; [done|].
  rewrite decode_routes_array by done. by rewrite Hdec.
Qed.

(** *** Dictionaries on the wire *)

Lemma encode_dictionary (b : Attribute_base) (attrs : gmap string Attribute) :
  encode (A_Dictionary b attrs) =
    value ← encode_items attrs;
    Return (JSON.set (JSON.set ∅ "type" (Var_hold std_string (m_type_name b)))
              "items" (Var_object value)).
Proof. reflexivity. Qed.

Lemma encode_items_returns (attrs : gmap string Attribute) :
  (∀ k a, attrs !! k = Some a → ∃ j, encode a = Return j) →
  ∃ value, encode_items attrs = Return value
           ∧ ∀ k, value !! k = attrs !! k ≫= encoded_child.
Proof.
  unfold encode_items.
  apply (map_fold_weak_ind (fun r m =>
    (∀ k a, m !! k = Some a → ∃ j, encode a = Return j) →
    ∃ value, r = Return value ∧ ∀ k, value !! k = m !! k ≫= encoded_child)).
  - intros _. exists ∅. split; [done|]. intros k. by rewrite !lookup_empty.
  - intros i x m r Hi IH Hall.
    destruct IH as (value & -> & Hvalue).
    { intros k a Hk. apply (Hall k a). rewrite lookup_insert_ne; [done|]. by intros ->; simplify_eq. }
    destruct (Hall i x) as [j Hj]; [by rewrite lookup_insert_eq|].
    cbn [mbind Outcome_bind]. rewrite Hj. cbn [mbind Outcome_bind].
    eexists. split; [done|]. intros k. unfold JSON.set.
    destruct (decide (k = i)) as [->|Hne].
    + rewrite !lookup_insert_eq. change (Some x ≫= encoded_child) with (encoded_child x).
      unfold encoded_child. by rewrite Hj.
    + by rewrite !lookup_insert_ne.
Qed.

Lemma dictionary_decode_items (json c : Object) :
  json !! "type" = Some (str "dictionary") →
  json !! "items" = Some (Var_object c) →
  Dictionary_decode json =
    try_catch (container ← decode_items decode json Dictionary_ctor;
               Return (Dict.set_is_summary false container))
      (fun e => SAL_REPORT_DECODE_ERROR "decode" e json).
Proof.
  intros Hty Hitems. unfold Dictionary_decode, Dictionary_decode_with, Dictionary_decode_try.
  rewrite (getValue_string json "type" "dictionary") by done.
  cbn [mbind Outcome_bind]. rewrite decide_False by (by intros []).
  by rewrite (has_lookup json "items" _ Hitems).
Qed.

Lemma decode_routes_dictionary (json : Object) :
  json !! "type" = Some (str "dictionary") →
  decode json = as_Attribute <$> Dictionary_decode json.
Proof.
  intros Hjt. rewrite decode_unfold. unfold decode_body.
  rewrite (getValue_string json "type" "dictionary") by done. reflexivity.
Qed.

(** A dictionary built by [Dictionary()] whose children all survive the
    wire survives it too: [encode] returns an object that
    [Dictionary::decode] and the dispatcher decode to the same dictionary. *)
Theorem dictionary_roundtrip (d : Dictionary) :
  dictionary_base d = dictionary_base Dictionary_ctor →
  (∀ k a, attributes d !! k = Some a → roundtrips a) →
  ∃ json,
    encode (as_Attribute d) = Return json
    ∧ Dictionary_decode json = Return d
    ∧ decode json = Return (as_Attribute d).
Proof.
  intros Hbase Hall. destruct d as [b attrs]. cbn [dictionary_base attributes] in *.
  subst b. unfold as_Attribute. cbn [dictionary_base attributes].
  destruct (encode_items_returns attrs) as (value & Henc & Hvalue).
  { intros k a Hk. destruct (Hall k a Hk) as (j & Hj & _). eauto. }
  rewrite encode_dictionary, Henc. cbn [mbind Outcome_bind].
  eexists. split; [reflexivity|].
  match goal with |- Dictionary_decode ?j = _ ∧ _ => set (json := j) end.
  assert (json !! "type" = Some (str "dictionary")) as Hty
    by (unfold json, JSON.set; by simplify_map_eq).
  assert (json !! "items" = Some (Var_object value)) as Hitems
    by (unfold json, JSON.set; by simplify_map_eq).
  assert (Dictionary_decode json
          = Return {| dictionary_base := dictionary_base Dictionary_ctor; attributes := attrs |})
    as Hdec.
  { rewrite (dictionary_decode_items json value Hty Hitems).
    pose proof (decode_items_spec decode json value Dictionary_ctor Hitems) as Hspec.
    destruct (decode_items decode json Dictionary_ctor) as [d0|e| | |];
      cbn [items_decoded] in Hspec.
    - destruct Hspec as (Hb & Hattrs & _). cbn [mbind Outcome_bind try_catch].
      destruct d0 as [b0 attrs0]. cbn [dictionary_base attributes] in *.
      unfold Dict.set_is_summary. cbn [dictionary_base attributes].
      rewrite Hb. f_equal. f_equal. apply map_eq. intros k.
      rewrite Hattrs, Hvalue. destruct (attrs !! k) as [a|] eqn:Hk; [|done].
      destruct (Hall k a Hk) as (j & Hj & Hjdec).
      change (Some a ≫= encoded_child) with (encoded_child a).
      unfold encoded_child. by rewrite Hj, Hjdec.
    - exfalso. destruct Hspec as (k & v & Hk & Hv & Hbad).
      rewrite Hvalue in Hk. destruct (attrs !! k) as [a|] eqn:Hak; [|done].
      destruct (Hall k a Hak) as (j & Hj & Hjdec).
      change (Some a ≫= encoded_child) with (encoded_child a) in Hk.
      unfold encoded_child in Hk. rewrite Hj in Hk. injection Hk as <-.
      by apply (Hbad j a).
    - exfalso. destruct Hspec as (k & v & Hk & Hv & Hbad).
      rewrite Hvalue in Hk. destruct (attrs !! k) as [a|] eqn:Hak; [|done].
      destruct (Hall k a Hak) as (j & Hj & Hjdec).
      change (Some a ≫= encoded_child) with (encoded_child a) in Hk.
      unfold encoded_child in Hk. rewrite Hj in Hk. injection Hk as <-.
      by apply (Hbad j a).
    - exfalso. destruct Hspec as (k & v & Hk & Hv & Hbad).
      rewrite Hvalue in Hk. destruct (attrs !! k) as [a|] eqn:Hak; [|done].
      destruct (Hall k a Hak) as (j & Hj & Hjdec).
      change (Some a ≫= encoded_child) with (encoded_child a) in Hk.
      unfold encoded_child in Hk. rewrite Hj in Hk. injection Hk as <-.
      by apply (Hbad j a).
    - exfalso. destruct Hspec as (k & v & Hk & Hv & Hbad).
      rewrite Hvalue in Hk. destruct (attrs !! k) as [a|] eqn:Hak; [|done].
      destruct (Hall k a Hak) as (j & Hj & Hjdec).
      change (Some a ≫= encoded_child) with (encoded_child a) in Hk.
      unfold encoded_child in Hk. rewrite Hj in Hk. injection Hk as <-.
      by apply (Hbad j a). }
  split; [done|].
  rewrite (decode_routes_dictionary json Hty), Hdec. reflexivity.
Qed.

Lemma encode_items_spec (attrs : gmap string Attribute) (value : Object) :
  encode_items attrs = Return value →
  ∀ k, value !! k = attrs !! k ≫= encoded_child.
Proof.
  unfold encode_items. revert value.
  apply (map_fold_weak_ind (fun r m =>
    ∀ value, r = Return value → ∀ k, value !! k = m !! k ≫= encoded_child)).
  - intros value [= <-] k. by rewrite !lookup_empty.
  - intros i x m r Hi IH value Hr.
    destruct r as [v0| | | |]; cbn [mbind Outcome_bind] in Hr; try done.
    destruct (encode x) as [j| | | |] eqn:Hj; cbn [mbind Outcome_bind] in Hr; try done.
    injection Hr as <-. intros k. unfold JSON.set.
    destruct (decide (k = i)) as [->|Hne].
    + rewrite !lookup_insert_eq. change (Some x ≫= encoded_child) with (encoded_child x).
      unfold encoded_child. by rewrite Hj.
    + rewrite !lookup_insert_ne by done. by apply IH.
Qed.

(** [Null] has an [encode] and no [decode]: the dispatcher refuses the
    object a [Null] encodes to, and so a dictionary that holds a [Null]
    under some key, once encoded, is decoded by no call of
    [Dictionary::decode] (while a JSON null entry would be skipped). *)
Theorem null_child_not_decodable (d : Dictionary) (k : string) (json : Object) :
  attributes d !! k = Some (A_Null Null_ctor) →
  encode (as_Attribute d) = Return json →
  decode (Null_encode Null_ctor)
  = Throw (SALException "JSON object does not define a valid SAL attribute.")
  ∧ ¬ ∃ d', Dictionary_decode json = Return d'.
Proof.
  intros Hk Henc.
  assert (decode (Null_encode Null_ctor)
          = Throw (SALException "JSON object does not define a valid SAL attribute.")) as Hnull.
  { rewrite decode_unfold. reflexivity. }
  split; [done|]. intros [d' Hdec].
  unfold as_Attribute in Henc. rewrite encode_dictionary in Henc.
  destruct (encode_items (attributes d)) as [value| | | |] eqn:Hvalue;
    cbn [mbind Outcome_bind] in Henc; try done.
  injection Henc as <-.
  pose proof (encode_items_spec _ _ Hvalue k) as Hvk. rewrite Hk in Hvk.
  change (Some (A_Null Null_ctor) ≫= encoded_child)
    with (Some (Var_object (Null_encode Null_ctor))) in Hvk.
  match type of Hdec with Dictionary_decode ?j = _ => set (json := j) in * end.
  assert (json !! "type" = Some (str (m_type_name (dictionary_base d)))) as Hty
    by (unfold json, JSON.set; by simplify_map_eq).
  assert (json !! "items" = Some (Var_object value)) as Hitems
    by (unfold json, JSON.set; by simplify_map_eq).
  destruct (decide (m_type_name (dictionary_base d) = "dictionary")) as [Heq|Hne].
  - rewrite Heq in Hty.
    destruct (dictionary_decode_returns json value d') as (d0 & Hd0 & _);
      [by apply getValue_string|done|done|].
    pose proof (decode_items_spec decode json value Dictionary_ctor Hitems) as Hspec.
    rewrite Hd0 in Hspec. destruct Hspec as (_ & _ & Hok).
    destruct (Hok k _ Hvk) as [|(o & a & [= <-] & Ha)]; [done|].
    rewrite Hnull in Ha. discriminate.
  - unfold Dictionary_decode, Dictionary_decode_with, Dictionary_decode_try in Hdec.
    rewrite (getValue_string json "type" _ Hty) in Hdec.
    cbn [mbind Outcome_bind] in Hdec. rewrite decide_True in Hdec by done.
    discriminate.
Qed.

(** *** Arrays as nested lists *)

Lemma splice_nil {A} (off : nat) (l : list A) : splice off [] l = l.
Proof. unfold splice. cbn [length app]. by rewrite Nat.add_0_r, take_drop. Qed.

Lemma splice_length {A} (off : nat) (chunk l : list A) :
  (off + length chunk ≤ length l)%nat → length (splice off chunk l) = length l.
Proof.
  intros Hle. unfold splice. rewrite !length_app, length_take, length_drop. lia.
Qed.

Lemma splice_splice {A} (off : nat) (c1 c2 l : list A) :
  (off + length c1 + length c2 ≤ length l)%nat →
  splice (off + length c1) c2 (splice off c1 l) = splice off (c1 ++ c2) l.
Proof.
  intros Hle. unfold splice.
  assert (length (take off l) = off) as Hoff by (rewrite length_take; lia).
  rewrite (app_assoc (take off l) c1).
  rewrite take_app_length' by (rewrite length_app; lia).
  rewrite drop_app_ge by (rewrite length_app; lia).
  rewrite !length_app, Hoff.
  replace (off + length c1 + length c2 - (off + length c1))%nat with (length c2) by lia.
  rewrite drop_drop.
  rewrite <- !app_assoc. do 3 f_equal. f_equal. lia.
Qed.

Lemma splice_insert {A} (off : nat) (x : A) (l : list A) :
  (off < length l)%nat → <[off := x]> l = splice off [x] l.
Proof.
  intros Hlt. unfold splice. rewrite insert_take_drop by done.
  cbn [length app]. by replace (off + 1)%nat with (S off) by lia.
Qed.

Lemma splice_all {A} (chunk l : list A) :
  length chunk = length l → splice 0 chunk l = chunk.
Proof.
  intros Hlen. unfold splice. rewrite take_0, drop_ge by lia. cbn [app]. by rewrite app_nil_r.
Qed.

Lemma elements_cons (n : Z) (rest : ShapeType) :
  0 <= n → Forall (fun e => 1 <= e) rest →
  elements (n :: rest) = (Z.to_nat n * elements rest)%nat.
Proof.
  intros Hn Hrest. pose proof (extents_product_pos rest Hrest).
  unfold elements. cbn [extents_product foldr]. fold (extents_product rest).
  rewrite Z2Nat.inj_mul by lia. reflexivity.
Qed.

Lemma nested_cons (T : NativeType) (n : Z) (rest : ShapeType) (d : list (native T)) :
  rest ≠ [] →
  nested T (n :: rest) d
  = (fun i => Var_array (nested T rest (drop (i * elements rest) d))) <$> seq 0 (Z.to_nat n).
Proof. intros Hne. by destruct rest. Qed.

Lemma encode_leaf_loop (T : NativeType) (d : list (native T)) (off j i : nat) (acc : JSON_Array) :
  (off + i + j ≤ length d)%nat → Z.of_nat (length d) < 2 ^ 64 →
  for_loop j (Z.of_nat i)
    (fun i json => x ← vec_get d (Z.of_nat off + i); Return (JSON.add json (Var_hold T x))) acc
  = Return (acc ++ (Var_hold T <$> take j (drop (off + i) d))).
Proof.
  revert i acc. induction j as [|j IH]; intros i acc Hle Hlen.
  - cbn [for_loop take fmap list_fmap]. by rewrite app_nil_r.
  - destruct (lookup_lt_is_Some_2 d (off + i) ltac:(lia)) as [x Hx].
    cbn [for_loop]. rewrite (vec_get_lookup d (off + i) _ x) by (done || lia).
    cbn [mbind Outcome_bind].
    replace (Z.of_nat i + 1) with (Z.of_nat (S i)) by lia.
    rewrite IH by lia. unfold JSON.add.
    rewrite (drop_S d x (off + i) Hx). cbn [take fmap list_fmap].
    rewrite <- app_assoc. cbn [app].
    by replace (off + S i)%nat with (S (off + i)) by lia.
Qed.

Lemma getElement_hold (T : NativeType) (l : JSON_Array) (i : nat) (x : native T) :
  l !! i = Some (Var_hold T x) → JSON.getElement T l (Z.of_nat i) = Return x.
Proof.
  intros Hl. unfold JSON.getElement, JSON.Array_get.
  rewrite decide_True by lia. rewrite Nat2Z.id, Hl. apply convert_same.
Qed.

Lemma getArray_nested (l : JSON_Array) (i : nat) (sub : JSON_Array) :
  l !! i = Some (Var_array sub) → JSON.Array_getArray l (Z.of_nat i) = Some sub.
Proof.
  intros Hl. unfold JSON.Array_getArray, JSON.Array_get.
  rewrite decide_True by lia. by rewrite Nat2Z.id, Hl.
Qed.

Lemma decode_leaf_loop (T : NativeType) (a : Array T) (src : list (native T)) (n off j i : nat)
    (dcur : list (native T)) :
  (i + j ≤ n)%nat → (n ≤ length src)%nat →
  (off + i + j ≤ length dcur)%nat → Z.of_nat (length dcur) < 2 ^ 64 →
  for_loop j (Z.of_nat i)
    (fun i array =>
       j ← deref (Some (Var_hold T <$> take n src));
       x ← JSON.getElement T j i;
       d ← vec_set (data array) (Z.of_nat off + i) x;
       Return (set_data d array))
    (set_data dcur a)
  = Return (set_data (splice (off + i) (take j (drop i src)) dcur) a).
Proof.
  revert i dcur. induction j as [|j IH]; intros i dcur Hij Hn Hle Hlen.
  - cbn [for_loop]. by rewrite take_0, splice_nil.
  - destruct (lookup_lt_is_Some_2 src i ltac:(lia)) as [x Hx].
    set (body := fun (i : Z) (array : Array T) => _).
    cbn [for_loop].
    assert (body (Z.of_nat i) (set_data dcur a)
            = Return (set_data (<[(off + i)%nat := x]> dcur) a)) as Hstep.
    { unfold body. cbn [deref mbind Outcome_bind].
      rewrite (getElement_hold T _ i x)
        by (by rewrite list_lookup_fmap, lookup_take_lt, Hx by lia).
      cbn [mbind Outcome_bind set_data data].
      rewrite (vec_set_insert dcur (off + i)) by lia. reflexivity. }
    rewrite Hstep. cbn [mbind Outcome_bind]. unfold body.
    replace (Z.of_nat i + 1) with (Z.of_nat (S i)) by lia.
    rewrite IH by (rewrite ?length_insert; lia).
    f_equal. f_equal. rewrite splice_insert by lia.
    replace (off + S i)%nat with (off + i + length [x])%nat by (simpl; lia).
    rewrite splice_splice
      by (rewrite length_take, length_drop; simpl; lia).
    by rewrite (drop_S src x i Hx).
Qed.

Section nested_lists.
Context (T : NativeType) (a : Array T).
Hypothesis Hdim : m_dimension (iarray a) = Z.of_nat (length (m_shape (iarray a))).
Hypothesis Hst : m_strides (iarray a) = suffix_products (m_shape (iarray a)).
Hypothesis Hrank : (length (m_shape (iarray a)) < 256)%nat.
Hypothesis Hext : Forall (fun e => 1 <= e) (m_shape (iarray a)).

Lemma extents_drop (k : nat) : Forall (fun e => 1 <= e) (drop k (m_shape (iarray a))).
Proof. by apply Forall_drop. Qed.

Lemma elements_drop (k : nat) (n : Z) :
  m_shape (iarray a) !! k = Some n →
  1 <= n
  ∧ elements (drop k (m_shape (iarray a)))
    = (Z.to_nat n * elements (drop (S k) (m_shape (iarray a))))%nat
  ∧ extents_product (drop (S k) (m_shape (iarray a)))
    = Z.of_nat (elements (drop (S k) (m_shape (iarray a)))).
Proof.
  intros Hk. pose proof (extents_drop k) as Hd. rewrite (drop_S _ n k Hk) in Hd.
  apply Forall_cons in Hd as [Hn Hd]. split; [done|]. split.
  - rewrite (drop_S _ n k Hk). apply elements_cons; [lia|done].
  - pose proof (extents_product_pos _ Hd). unfold elements. lia.
Qed.

Lemma encode_nested (fuel k off : nat) :
  (k < length (m_shape (iarray a)))%nat →
  (length (m_shape (iarray a)) ≤ k + fuel)%nat →
  (off + elements (drop k (m_shape (iarray a))) ≤ length (data a))%nat →
  Z.of_nat (length (data a)) < 2 ^ 64 →
  encode_data_to_json_array_rec fuel a (Z.of_nat k) (Z.of_nat off)
  = Return (nested T (drop k (m_shape (iarray a))) (drop off (data a))).
Proof.
  revert k off. induction fuel as [|fuel IH]; intros k off Hk Hfuel Hoff Hlen; [lia|].
  destruct (lookup_lt_is_Some_2 (m_shape (iarray a)) k Hk) as [n Hn].
  destruct (elements_drop k n Hn) as (Hn1 & Hel & Hprod).
  cbn [encode_data_to_json_array_rec]. rewrite Hdim. unfold shape.
  rewrite (vec_get_lookup (m_shape (iarray a)) k _ n) by (done || lia).
  cbn [mbind Outcome_bind]. unfold for_uint64. change 0 with (Z.of_nat 0).
  case_decide as Hlast.
  - rewrite Hel in Hoff. rewrite (drop_S _ n k Hn).
    rewrite (drop_ge _ (S k)) in Hoff |- * by lia.
    change (elements []) with 1%nat in Hoff.
    rewrite (encode_leaf_loop T (data a) off (Z.to_nat n) 0 []) by lia.
    cbn [app nested]. by rewrite Nat.add_0_r.
  - rewrite Hel in Hoff.
    set (rest := drop (S k) (m_shape (iarray a))) in *.
    set (body := fun (i : Z) (json : JSON_Array) => _).
    assert (∀ j i acc, (i + j ≤ Z.to_nat n)%nat →
              for_loop j (Z.of_nat i) body acc
              = Return (acc ++ ((fun i' => Var_array (nested T rest
                                   (drop (off + i' * elements rest) (data a)))) <$> seq i j)))
      as Hloop.
    { induction j as [|j IHj]; intros i acc Hij.
      - cbn [for_loop seq fmap list_fmap]. by rewrite app_nil_r.
      - cbn [for_loop].
        assert (body (Z.of_nat i) acc
                = Return (acc ++ [Var_array (nested T rest
                                    (drop (off + i * elements rest) (data a)))])) as Hstep.
        { unfold body. rewrite Hst.
          rewrite (vec_get_lookup _ k _ (extents_product rest))
            by (by apply (suffix_products_lookup _ _ n) || done || lia).
          cbn [mbind Outcome_bind].
          replace (Z.of_nat k + 1) with (Z.of_nat (S k)) by lia.
          rewrite uint8_small by lia.
          rewrite Hprod.
          replace (Z.of_nat off + Z.of_nat i * Z.of_nat (elements rest))
            with (Z.of_nat (off + i * elements rest)) by lia.
          rewrite uint64_small by nia.
          rewrite IH; [reflexivity|lia|lia| |lia].
          fold rest. nia. }
        rewrite Hstep. cbn [mbind Outcome_bind].
        replace (Z.of_nat i + 1) with (Z.of_nat (S i)) by lia.
        rewrite IHj by lia. cbn [seq fmap list_fmap].
        by rewrite <- app_assoc. }
    rewrite (Hloop (Z.to_nat n) 0%nat []) by lia. cbn [app].
    rewrite (drop_S _ n k Hn). fold rest.
    rewrite nested_cons.
    + f_equal. apply list_fmap_ext. intros _ i _. by rewrite drop_drop.
    + intros Hnil. apply (f_equal length) in Hnil. unfold rest in Hnil.
      rewrite length_drop in Hnil. simpl in Hnil. lia.
Qed.

Lemma decode_nested (fuel k off : nat) (src d0 : list (native T)) :
  (k < length (m_shape (iarray a)))%nat →
  (length (m_shape (iarray a)) ≤ k + fuel)%nat →
  (off + elements (drop k (m_shape (iarray a))) ≤ length d0)%nat →
  Z.of_nat (length d0) < 2 ^ 64 →
  (elements (drop k (m_shape (iarray a))) ≤ length src)%nat →
  decode_data_from_json_array_rec fuel (set_data d0 a)
    (Some (nested T (drop k (m_shape (iarray a))) src)) (Z.of_nat k) (Z.of_nat off)
  = Return (set_data (splice off (take (elements (drop k (m_shape (iarray a)))) src) d0) a).
Proof.
  revert k off src d0.
  induction fuel as [|fuel IH]; intros k off src d0 Hk Hfuel Hoff Hlen Hsrc; [lia|].
  destruct (lookup_lt_is_Some_2 (m_shape (iarray a)) k Hk) as [n Hn].
  destruct (elements_drop k n Hn) as (Hn1 & Hel & Hprod).
  cbn [decode_data_from_json_array_rec]. unfold shape, strides.
  cbn [set_data iarray].
  rewrite (uint64_small (Z.of_nat (length (m_shape (iarray a))) - 1)) by lia.
  rewrite (vec_get_lookup (m_shape (iarray a)) k _ n) by (done || lia).
  cbn [mbind Outcome_bind]. unfold for_uint64. change 0 with (Z.of_nat 0).
  change {| iarray := iarray a; m_element_type := m_element_type a;
            m_element_type_name := m_element_type_name a; data := d0 |}
    with (set_data d0 a).
  case_decide as Hlast.
  - rewrite Hel in Hoff, Hsrc |- *. rewrite (drop_S _ n k Hn).
    rewrite (drop_ge _ (S k)) in Hoff, Hsrc |- * by lia.
    change (elements []) with 1%nat in *. cbn [nested].
    rewrite (decode_leaf_loop T a src (Z.to_nat n) off (Z.to_nat n) 0 d0) by lia.
    by rewrite drop_0, Nat.add_0_r, Nat.mul_1_r.
  - rewrite Hel in Hoff, Hsrc |- *.
    set (rest := drop (S k) (m_shape (iarray a))) in *.
    rewrite (drop_S _ n k Hn). fold rest.
    rewrite nested_cons.
    2:{ intros Hnil. apply (f_equal length) in Hnil. unfold rest in Hnil.
        rewrite length_drop in Hnil. simpl in Hnil. lia. }
    set (body := fun (i : Z) (array : Array T) => _).
    assert (∀ j i dcur, (i + j ≤ Z.to_nat n)%nat → length dcur = length d0 →
              for_loop j (Z.of_nat i) body (set_data dcur a)
              = Return (set_data (splice (off + i * elements rest)
                                    (take (j * elements rest) (drop (i * elements rest) src))
                                    dcur) a))
      as Hloop.
    { induction j as [|j IHj]; intros i dcur Hij Hdcur.
      - cbn [for_loop Nat.mul]. by rewrite take_0, splice_nil.
      - cbn [for_loop].
        assert (body (Z.of_nat i) (set_data dcur a)
                = Return (set_data (splice (off + i * elements rest)
                                      (take (elements rest) (drop (i * elements rest) src))
                                      dcur) a)) as Hstep.
        { unfold body. cbn [deref mbind Outcome_bind].
          unfold strides. cbn [set_data iarray]. rewrite Hst.
          rewrite (vec_get_lookup _ k _ (extents_product rest))
            by (by apply (suffix_products_lookup _ _ n) || done || lia).
          cbn [mbind Outcome_bind].
          rewrite (getArray_nested _ i (nested T rest (drop (i * elements rest) src))).
          2:{ rewrite list_lookup_fmap, lookup_seq_lt by lia. reflexivity. }
          replace (Z.of_nat k + 1) with (Z.of_nat (S k)) by lia.
          rewrite uint8_small by lia.
          rewrite Hprod.
          replace (Z.of_nat off + Z.of_nat i * Z.of_nat (elements rest))
            with (Z.of_nat (off + i * elements rest)) by lia.
          rewrite uint64_small by nia.
          change {| iarray := iarray a; m_element_type := m_element_type a;
                    m_element_type_name := m_element_type_name a; data := dcur |}
            with (set_data dcur a).
          unfold rest.
          rewrite IH; [reflexivity|lia|lia| |lia| ].
          - fold rest. nia.
          - fold rest. rewrite length_drop. nia. }
        rewrite Hstep. cbn [mbind Outcome_bind].
        replace (Z.of_nat i + 1) with (Z.of_nat (S i)) by lia.
        assert (length (take (elements rest) (drop (i * elements rest) src)) = elements rest)
          as Hchunk by (rewrite length_take, length_drop; nia).
        rewrite IHj; [|lia|rewrite splice_length; [done|rewrite Hchunk; nia]].
        f_equal. f_equal.
        replace (off + S i * elements rest)%nat
          with (off + i * elements rest
                + length (take (elements rest) (drop (i * elements rest) src)))%nat
          by (rewrite Hchunk; lia).
        rewrite splice_splice by (rewrite Hchunk, length_take, length_drop; nia).
        f_equal.
        replace (S i * elements rest)%nat with (i * elements rest + elements rest)%nat by lia.
        rewrite <- (drop_drop src). by rewrite take_take_drop. }
    rewrite (Hloop (Z.to_nat n) 0%nat d0) by (done || lia).
    cbn [Nat.mul]. by rewrite drop_0, Nat.add_0_r.
Qed.

End nested_lists.

(** A lookup in a wire object written as a sequence of [set]. *)
Ltac wire_lookup :=
  unfold JSON.set;
  repeat first [rewrite lookup_insert_eq | rewrite lookup_insert_ne by done];
  reflexivity.

(** A string array of any shape of 1 to 255 extents, each at least 1, is
    encoded with the encoding "list" as the nested list of its elements in
    row-major order, one level per dimension, and [Array<std::string>::decode],
    [decode_array] and the dispatcher decode that wire object to the same
    array. *)
Theorem string_array_roundtrip (dims : ShapeType) (a : Array std_string)
    (d : list (native std_string)) :
  (0 < length dims < 256)%nat →
  Forall (fun e => 1 <= e) dims →
  extents_product dims < 2 ^ 64 →
  Array_ctor std_string dims = Return a →
  length d = length (data a) →
  ∃ encoded ad,
    Array_encode (set_data d a) = Return encoded
    ∧ encoded !! "value" = Some (Var_object ad)
    ∧ ad !! "encoding" = Some (str "list")
    ∧ ad !! "data" = Some (Var_array (nested std_string dims d))
    ∧ Array_decode std_string encoded = Return (set_data d a)
    ∧ decode_array encoded = Return (existT std_string (set_data d a))
    ∧ decode encoded = Return (A_Array std_string (set_data d a)).
Proof.
  intros Hn Hext Hp Hctor Hlen.
  unfold Array_ctor in Hctor. cbn [to_dtype to_dtype_name mbind Outcome_bind] in Hctor.
  pose proof (Array_ctor3_spec std_string dims ATTR_STRING "string" Hn) as Hspec.
  rewrite Hspec in Hctor. injection Hctor as <-.
  pose proof (extents_product_pos dims Hext) as Hpos.
  cbn [data] in Hlen. rewrite length_replicate in Hlen.
  rewrite foldl_extents_product in Hlen, Hspec |- * by (done || lia).
  rewrite Z.mul_1_l in Hlen, Hspec |- *.
  rewrite (row_major_suffix_products dims Hext Hp) in Hspec |- *.
  set (a0 := {| iarray := {| array_base := Attribute_ctor ATTR_ARRAY TYPE_NAME_ARRAY;
                             m_dimension := Z.of_nat (length dims);
                             m_shape := dims; m_strides := suffix_products dims |};
                m_element_type := ATTR_STRING; m_element_type_name := "string";
                data := replicate (Z.to_nat (extents_product dims)) (default_value std_string) |})
    in *.
  pose proof (encode_nested std_string (set_data d a0) eq_refl eq_refl
                ltac:(cbn; lia) Hext 256 0 0) as Henc.
  unfold a0 in Henc. cbn [set_data iarray m_shape data] in Henc. rewrite !drop_0 in Henc.
  change (Z.of_nat 0) with 0 in Henc.
  specialize (Henc ltac:(lia) ltac:(lia) ltac:(unfold elements; lia) ltac:(lia)).
  unfold Array_encode. rewrite encode_shape_spec by (cbn; lia).
  cbn [mbind Outcome_bind is_summary set_data iarray array_base Attribute_ctor m_is_summary
       m_element_type_name shape m_shape a0].
  unfold element_type_name, encoding, element_type_name, encode_data_to_json_array.
  cbn [m_element_type_name data type_name iarray array_base Attribute_ctor m_type_name].
  rewrite !decide_True by done.
  match goal with
  | |- context [encode_data_to_json_array_rec 256 ?x 0 0] =>
      replace (encode_data_to_json_array_rec 256 x 0 0)
        with (Return (nested std_string dims d) : Outcome JSON_Array)
        by (symmetry; exact Henc)
  end. cbn [mbind Outcome_bind].
  eexists _, _. split; [reflexivity|].
  split; [wire_lookup|].
  split; [wire_lookup|].
  split; [wire_lookup|].
  match goal with |- context [Array_decode std_string ?j] => set (encoded := j) end.
  assert (Array_decode std_string encoded = Return (set_data d a0)) as Hdec.
  { erewrite (array_decode_full std_string encoded _ "string" "list" "string" dims);
      [ | unfold encoded; wire_lookup
        | unfold encoded; wire_lookup
        | done
        | wire_lookup
        | by right
        | wire_lookup
        | by right
        | wire_lookup
        | lia ].
    unfold Array_ctor. cbn [to_dtype to_dtype_name mbind Outcome_bind].
    rewrite Hspec. cbn [mbind Outcome_bind].
    rewrite decide_True by done.
    erewrite getArray_lookup by (wire_lookup).
    pose proof (decode_nested std_string a0 eq_refl ltac:(cbn; lia) Hext
                  256 0 0 d (data a0)) as Hd.
    unfold a0 in Hd. cbn [iarray m_shape data] in Hd. fold a0 in Hd. rewrite !drop_0 in Hd.
    change (Z.of_nat 0) with 0 in Hd. rewrite length_replicate in Hd.
    specialize (Hd ltac:(lia) ltac:(lia) ltac:(unfold elements; lia) ltac:(lia)
                   ltac:(unfold elements; lia)).
    unfold decode_data_from_json_array.
    etransitivity; [exact Hd|]. fold a0.
    rewrite take_ge by (unfold elements; lia).
    by rewrite splice_all by (rewrite length_replicate; lia). }
  split; [done|].
  assert (decode_array encoded = Return (existT std_string (set_data d a0))) as Hdec'.
  { erewrite (decode_array_routes std_string encoded _ "string");
      [ | unfold encoded; wire_lookup
        | wire_lookup
        | done
        | done ].
    by rewrite Hdec. }
  split; [done|].
  rewrite decode_routes_array by (unfold encoded; wire_lookup).
  by rewrite Hdec'.
Qed.

(** *** The payload of a binary array *)

Lemma default_representable (T : NativeType) : representable T (default_value T) = true.
Proof. by destruct T. Qed.

Lemma forallb_replicate {A} (f : A → bool) (n : nat) (x : A) :
  f x = true → forallb f (replicate n x) = true.
Proof. intros Hx. induction n as [|n IH]; [done|]. cbn. by rewrite Hx, IH. Qed.

(** [Array<T>::decode] never compares the length of the binary payload
    with the size of the buffer.  For a numeric element type and a wire
    array with a well-formed definition: bytes beyond the buffer are
    ignored, and a payload of no bytes leaves the array as the constructor
    built it; in both cases an array is returned. *)
Theorem array_decode_payload_unchecked (T : NativeType) (json ad : Object) (name data_str : string)
    (dims : ShapeType) (a : Array T) (d : list (native T)) (extra : list Byte.byte) :
  is_numeric T = true →
  json !! "type" = Some (str "array") →
  json !! "value" = Some (Var_object ad) →
  to_dtype_name (Native T) = Return name →
  ad !! "type" = Some (str name) →
  ad !! "encoding" = Some (str "base64") →
  ad !! "shape" = Some (Var_array (extent <$> dims)) →
  ad !! "data" = Some (str data_str) →
  (0 < length dims < 256)%nat →
  Array_ctor T dims = Return a →
  length d = length (data a) →
  Z.of_nat (length d) * sizeof T < 2 ^ 64 →
  forallb (representable T) d = true →
  (base64_decode data_str = buffer_bytes d ++ extra → Array_decode T json = Return (set_data d a))
  ∧ (base64_decode data_str = [] → Array_decode T json = Return a).
Proof.
  intros HT Hjt Hjv Hname Hty Henc Hsh Hdata Hn Hctor Hlen Hsize Hrep.
  destruct (Array_ctor_spec T dims Hn) as (ty & name' & Hty' & Hname' & Hspec).
  rewrite Hname in Hname'. injection Hname' as <-.
  destruct (numeric_name T name HT Hname) as [Hstring Hbool].
  assert (0 < sizeof T) as Hs by (by destruct T).
  assert (Array_decode T json = decode_data a data_str) as Hdec.
  { rewrite (array_decode_full T json ad name "base64" name dims)
      by (done || (by right) || (by left) || lia).
    rewrite Hctor. cbn [mbind Outcome_bind].
    rewrite Hspec in Hctor. injection Hctor as <-.
    unfold element_type_name, Array_set_is_summary.
    cbn [m_element_type_name iarray array_base m_dimension m_shape m_strides m_element_type data].
    rewrite decide_False by done.
    rewrite (getValue_string ad "data" data_str) by done.
    reflexivity. }
  rewrite Hdec. rewrite Hspec in Hctor. injection Hctor as <-.
  cbn [data] in Hlen. rewrite length_replicate in Hlen.
  unfold decode_data, data_pointer, element_type_name.
  cbn [m_element_type_name]. rewrite decide_True by done.
  cbn [mbind Outcome_bind]. unfold set_data, size.
  cbn [data iarray m_element_type m_element_type_name].
  rewrite !length_replicate, <- Hlen.
  rewrite uint64_small by lia.
  split; intros ->.
  - rewrite take_app_le by (rewrite buffer_bytes_length by done; lia).
    rewrite take_ge by (rewrite buffer_bytes_length by done; lia).
    rewrite drop_ge
      by (rewrite !buffer_bytes_length by done; rewrite length_replicate; lia).
    rewrite app_nil_r.
    by rewrite buffer_of_bytes_buffer_bytes.
  - rewrite take_nil. cbn [app length]. rewrite drop_0.
    rewrite <- (length_replicate (length d) (default_value T)) at 1.
    rewrite buffer_of_bytes_buffer_bytes
      by (done || apply forallb_replicate, default_representable).
    reflexivity.
Qed.

(** *** Encoding a dictionary *)

Lemma encode_items_children (attrs : gmap string Attribute) (value : Object) :
  encode_items attrs = Return value →
  ∀ k a, attrs !! k = Some a → ∃ j, encode a = Return j.
Proof.
  unfold encode_items. revert value.
  apply (map_fold_weak_ind (fun r m =>
    ∀ value, r = Return value → ∀ k a, m !! k = Some a → ∃ j, encode a = Return j)).
  - intros value _ k a. by rewrite lookup_empty.
  - intros i x m r Hi IH value Hr k a.
    destruct r as [v0| | | |]; cbn [mbind Outcome_bind] in Hr; try done.
    destruct (encode x) as [j| | | |] eqn:Hj; cbn [mbind Outcome_bind] in Hr; try done.
    destruct (decide (k = i)) as [->|Hne].
    + rewrite lookup_insert_eq. intros [= <-]. eauto.
    + rewrite lookup_insert_ne by done. by apply (IH v0).
Qed.

(** [Dictionary::encode] returns exactly when the [encode] of every child
    returns (one summary array among the children makes it fail); the
    object it returns has the type name of the dictionary and, under
    "items", the encoding of each child under the child's key. *)
Theorem dictionary_encode_returns_iff (b : Attribute_base) (attrs : gmap string Attribute) :
  ((∃ json, encode (A_Dictionary b attrs) = Return json)
   ↔ ∀ k a, attrs !! k = Some a → ∃ j, encode a = Return j)
  ∧ ∀ json, encode (A_Dictionary b attrs) = Return json →
      json !! "type" = Some (str (m_type_name b))
      ∧ ∃ value, json !! "items" = Some (Var_object value)
                 ∧ ∀ k, value !! k = attrs !! k ≫= encoded_child.
Proof.
  split; [split|].
  - intros [json Henc]. rewrite encode_dictionary in Henc.
    destruct (encode_items attrs) as [value| | | |] eqn:Hvalue;
      cbn [mbind Outcome_bind] in Henc; try done.
    by apply (encode_items_children attrs value).
  - intros Hall. destruct (encode_items_returns attrs Hall) as (value & Hvalue & _).
    rewrite encode_dictionary, Hvalue. cbn [mbind Outcome_bind]. eauto.
  - intros json Henc. rewrite encode_dictionary in Henc.
    destruct (encode_items attrs) as [value| | | |] eqn:Hvalue;
      cbn [mbind Outcome_bind] in Henc; try done.
    injection Henc as <-. split; [unfold JSON.set; by simplify_map_eq|].
    exists value. split; [unfold JSON.set; by simplify_map_eq|].
    by apply encode_items_spec.
Qed.

End Properties.

(** * The statements on concrete inputs *)

Example array_2_3_built : Array_ctor int32_t [2; 3] = Return array_2_3.
Proof. reflexivity. Qed.

(** C8 at [Atomic<int32_t>::decode] and the object of type "float32", with a
    JSON library that would convert the float to an integer. *)
Lemma atomic_decode_type_mismatch_witness :
  @JSON.getValue coercing_services std_string float32_scalar "type" ≠ to_dtype_name (Native int32_t)
  ∧ @Atomic_decode coercing_services int32_t float32_scalar
    = Throw (SALException (@atomic_decode_message coercing_services float32_scalar)).
Proof.
  assert (@JSON.getValue coercing_services std_string float32_scalar "type"
          ≠ to_dtype_name (Native int32_t)) as Hne by (vm_compute; discriminate).
  split; [exact Hne|].
  exact (@atomic_decode_type_mismatch coercing_services int32_t float32_scalar Hne).
Defined.

(** C7 at a dictionary whose items are a null and an [int32]. *)
Lemma dictionary_null_entries_skipped_witness :
  (∀ d, @Dictionary_decode coercing_services dictionary_with_null = Return d →
        Dict.is_summary d = false
        ∧ (∀ k, items_with_null !! k = Some Var_empty → Dict.has d k = false)
        ∧ (∀ k o, items_with_null !! k = Some (Var_object o) →
                  ∃ a, @decode coercing_services o = Return a ∧ Dict.get d k = Return a))
  ∧ ((∀ k v, items_with_null !! k = Some v →
             v = Var_empty ∨ ∃ o a, v = Var_object o ∧ @decode coercing_services o = Return a) →
     ∃ d, @Dictionary_decode coercing_services dictionary_with_null = Return d
          ∧ @decode coercing_services dictionary_with_null = Return (as_Attribute d)).
Proof.
  apply (@dictionary_null_entries_skipped coercing_services dictionary_with_null items_with_null).
  - vm_compute. reflexivity.
  - vm_compute. reflexivity.
Defined.

(** C9 at the array of shape [2,3] and the empty dictionary. *)
Lemma encode_summary_shape_only_witness :
  Array_encode_summary array_2_3 = Return {[ "shape" := Var_array (extent <$> shape array_2_3) ]}
  ∧ @encode_summary coercing_services (A_Array int32_t array_2_3) = Array_encode_summary array_2_3
  ∧ Dictionary_encode_summary Dictionary_ctor = ∅
  ∧ @encode_summary coercing_services (as_Attribute Dictionary_ctor) = Return ∅.
Proof.
  apply (@encode_summary_shape_only coercing_services int32_t array_2_3 Dictionary_ctor).
  vm_compute. lia.
Defined.

(** C9, the claim as stated, fails: the summary of the array of shape [3,4]
    has no "type" field, nor has the summary of a dictionary. *)
Lemma encode_summary_has_no_type :
  ∃ (a : Array int32_t) (j : Object),
    Array_ctor int32_t [3; 4] = Return a
    ∧ Array_encode_summary a = Return j
    ∧ JSON.has j "type" = false
    ∧ JSON.has j "shape" = true
    ∧ JSON.has (Dictionary_encode_summary Dictionary_ctor) "type" = false.
Proof. do 2 eexists. split; [reflexivity|]. split; [reflexivity|]. repeat split. Qed.


(** C3, the claim as stated, fails: for a wire array without "encoding"
    the [InvalidAccessException] of the JSON library leaves
    [Array<int32_t>::decode], and the dispatcher, unwrapped. *)
Lemma array_decode_error_escapes :
  @Array_decode coercing_services int32_t array_without_encoding = Throw InvalidAccessException
  ∧ @decode coercing_services array_without_encoding = Throw InvalidAccessException
  ∧ is_SALException InvalidAccessException = false.
Proof. repeat split; vm_compute; reflexivity. Qed.

(** The stride law at the shape [3,4,5]. *)
Lemma constructor_strides_row_major_witness :
  ∃ a : IArray,
    IArray_ctor [3; 4; 5] = Return a
    ∧ m_dimension a = Z.of_nat (length [3; 4; 5])
    ∧ m_shape a = [3; 4; 5]
    ∧ length (m_strides a) = length [3; 4; 5]
    ∧ last (m_strides a) = Some 1
    ∧ ∀ (i : nat) (s d : Z),
        m_strides a !! S i = Some s → [3; 4; 5] !! S i = Some d →
        m_strides a !! i = Some (uint64 (s * d)).
Proof. apply (constructor_strides_row_major [3; 4; 5]). simpl. lia. Defined.

(** The buffer length at the shape [2,3]. *)
Lemma constructor_buffer_length_witness :
  ∃ a : Array int32_t,
    Array_ctor int32_t [2; 3] = Return a
    ∧ shape a = [2; 3]
    ∧ size a = foldl (fun acc d => uint64 (acc * d)) 1 [2; 3]
    ∧ is_summary a = false
    ∧ ∀ x, x ∈ data a → x = default_value int32_t.
Proof.
  apply (constructor_buffer_length int32_t [2; 3]).
  - simpl. lia.
  - vm_compute. discriminate.
Defined.

(** [at(1, 3)] on the array of shape [2,3]: the column index is the extent. *)
Lemma at_out_of_bounds_throws_witness :
  at_body array_2_3 [1; 3]
  = Throw (std_out_of_range "An array index is missing or is out of bounds.")
  ∧ at_index array_2_3 [1; 3] = Terminate
  ∧ at_ array_2_3 [1; 3] = Terminate
  ∧ ¬ (∃ x, at_ array_2_3 [1; 3] = Return x)
  ∧ ¬ (∃ exn, at_ array_2_3 [1; 3] = Throw exn).
Proof.
  apply (at_out_of_bounds_throws int32_t [2; 3] array_2_3 [1; 3] 1 3 3).
  - reflexivity.
  - simpl. lia.
  - reflexivity.
  - reflexivity.
  - lia.
  - right. lia.
Defined.

(** The dictionary summary {type: "dictionary"}. *)
Lemma dictionary_without_items_is_summary_witness :
  @Dictionary_decode coercing_services dictionary_summary_wire
    = Return (Dict.set_is_summary true Dictionary_ctor)
  ∧ @decode coercing_services dictionary_summary_wire
    = Return (as_Attribute (Dict.set_is_summary true Dictionary_ctor))
  ∧ Dict.is_summary (Dict.set_is_summary true Dictionary_ctor) = true
  ∧ attributes (Dict.set_is_summary true Dictionary_ctor) = ∅.
Proof.
  apply (@dictionary_without_items_is_summary coercing_services dictionary_summary_wire).
  - vm_compute. reflexivity.
  - vm_compute. reflexivity.
Defined.


(** A dictionary with a number among its items. *)
Lemma dictionary_non_object_entry_fails_witness :
  ¬ ∃ d, @Dictionary_decode coercing_services dictionary_with_number = Return d.
Proof.
  apply (@dictionary_non_object_entry_fails coercing_services dictionary_with_number
           (wire [("n", Var_hold int32_t 1)]) "n" (Var_hold int32_t 1)).
  - vm_compute. reflexivity.
  - vm_compute. reflexivity.
  - vm_compute. reflexivity.
  - discriminate.
  - discriminate.
Defined.

(** An object of the type "signal", which the dispatcher does not route. *)
Lemma decode_unknown_type_fails_witness :
  @decode coercing_services signal_wire
  = Throw (SALException "JSON object does not define a valid SAL attribute.").
Proof.
  apply (@decode_unknown_type_fails coercing_services signal_wire).
  intros id Hid. vm_compute in Hid. injection Hid as <-.
  unfold dispatched_names. vm_compute. intros Hin.
  repeat (apply elem_of_cons in Hin as [Hin|Hin]; [discriminate|]).
  by apply not_elem_of_nil in Hin.
Defined.

(** The shape of [Int32Array({2, 3})] on the wire and back. *)
Lemma shape_codec_roundtrip_witness :
  ∃ s, encode_shape array_2_3 = Return s
       ∧ length s = length (shape array_2_3)
       ∧ @decode_shape coercing_services (Some s) = Return (shape array_2_3).
Proof.
  apply (@shape_codec_roundtrip coercing_services int32_t array_2_3). simpl. lia.
Defined.

(** An array of 257 dimensions, which the constructor builds, has no
    encoding. *)
Lemma shape_codec_wraps_at_256_witness :
  encode_shape array_of_rank_257 = Diverge
  ∧ Array_encode_summary array_of_rank_257 = Diverge
  ∧ @Array_encode coercing_services int32_t array_of_rank_257 = Diverge
  ∧ @decode_shape coercing_services (Some (extent <$> replicate 257 1)) = Diverge.
Proof.
  apply (@shape_codec_wraps_at_256 coercing_services int32_t array_of_rank_257 (replicate 257 1)).
  - vm_compute. lia.
  - vm_compute. lia.
  - vm_compute. reflexivity.
  - vm_compute. reflexivity.
Defined.

(** Element (1, 2) of an [Int32Array({2, 3})] holding six numbers is the
    sixth. *)
Lemma at_in_bounds_returns_element_witness :
  size (set_data six_numbers array_2_3) = extents_product [2; 3]
  ∧ 0 <= flat_index [2; 3] (at_arguments [1; 2]) < size (set_data six_numbers array_2_3)
  ∧ at_index (set_data six_numbers array_2_3) [1; 2]
    = Return (flat_index [2; 3] (at_arguments [1; 2]))
  ∧ at_ (set_data six_numbers array_2_3) [1; 2]
    = subscript (set_data six_numbers array_2_3) (flat_index [2; 3] (at_arguments [1; 2]))
  ∧ (∃ x, six_numbers !! Z.to_nat (flat_index [2; 3] (at_arguments [1; 2])) = Some x
          ∧ at_ (set_data six_numbers array_2_3) [1; 2] = Return x)
  ∧ (fits_parameters [1; 2] → at_arguments [1; 2] = [1; 2]).
Proof.
  apply (at_in_bounds_returns_element int32_t [2; 3] ATTR_INT32 "int32" array_2_3
           six_numbers [1; 2]).
  - reflexivity.
  - simpl. lia.
  - vm_compute. reflexivity.
  - reflexivity.
  - assert (at_arguments [1; 2] = [1; 2]) as -> by (vm_compute; reflexivity).
    repeat first [apply Forall2_cons_2 | apply Forall2_nil_2]; unfold within; lia.
Defined.

Lemma call_agrees_with_at_witness :
  call_index (set_data six_numbers array_2_3) 1 2 = Return (1 * 3 + 2)
  ∧ at_index (set_data six_numbers array_2_3) [1; 2] = Return (1 * 3 + 2)
  ∧ call (set_data six_numbers array_2_3) 1 2 = at_ (set_data six_numbers array_2_3) [1; 2]
  ∧ ∃ x, call (set_data six_numbers array_2_3) 1 2 = Return x.
Proof.
  apply (call_agrees_with_at int32_t 2 3 ATTR_INT32 "int32" array_2_3 six_numbers 1 2).
  - reflexivity.
  - lia.
  - reflexivity.
  - lia.
  - lia.
  - lia.
  - lia.
Defined.

(** An [Int32Array({2, 3})] holding six numbers, with a codec that writes
    the bytes as they are. *)
Lemma numeric_array_roundtrip_witness :
  ∃ encoded ad,
    @Array_encode coercing_services int32_t (set_data six_numbers array_2_3) = Return encoded
    ∧ encoded !! "value" = Some (Var_object ad)
    ∧ ad !! "encoding" = Some (str "base64")
    ∧ ad !! "data" = Some (str (@base64_encode coercing_services (buffer_bytes six_numbers)))
    ∧ @Array_decode coercing_services int32_t encoded = Return (set_data six_numbers array_2_3)
    ∧ @decode_array coercing_services encoded
      = Return (existT int32_t (set_data six_numbers array_2_3))
    ∧ @decode coercing_services encoded = Return (A_Array int32_t (set_data six_numbers array_2_3)).
Proof.
  apply (@numeric_array_roundtrip coercing_services int32_t [2; 3] array_2_3 six_numbers).
  - reflexivity.
  - simpl. lia.
  - reflexivity.
  - reflexivity.
  - vm_compute. reflexivity.
  - reflexivity.
  - vm_compute. reflexivity.
Defined.

(** [Array<int32_t>::decode] on an array of "float32", and
    [Array<float>::decode] on its encoding "zip". *)
Lemma array_decode_validation_witness :
  @Array_decode coercing_services int32_t float32_zip_wire
  = Throw (SALException "internal element type and input json data type does not match")
  ∧ @Array_decode coercing_services float float32_zip_wire
    = Throw (SALException "encoding is not supported").
Proof.
  split.
  - apply (proj1 (proj2 (@array_decode_validation coercing_services int32_t float32_zip_wire
                           float32_zip_definition "array" "float32" "int32"
                           eq_refl eq_refl eq_refl eq_refl))); done.
  - apply (proj2 (proj2 (@array_decode_validation coercing_services float float32_zip_wire
                           float32_zip_definition "array" "float32" "float32"
                           eq_refl eq_refl eq_refl eq_refl)) "zip"); try done.
    by right.
Defined.

Lemma decode_array_unsupported_element_type_witness :
  @decode_array coercing_services complex_array_wire
  = Throw (SALException "data type string `complex` is not supported")
  ∧ @decode coercing_services complex_array_wire
    = Throw (SALException "data type string `complex` is not supported").
Proof.
  apply (@decode_array_unsupported_element_type coercing_services complex_array_wire
           complex_definition "complex"); reflexivity.
Defined.

(** A dictionary that holds a dictionary of two scalars and a number. *)
Lemma dictionary_roundtrip_witness :
  ∃ json,
    @encode coercing_services (as_Attribute dictionary_of_dictionary) = Return json
    ∧ @Dictionary_decode coercing_services json = Return dictionary_of_dictionary
    ∧ @decode coercing_services json = Return (as_Attribute dictionary_of_dictionary).
Proof.
  apply (@dictionary_roundtrip coercing_services dictionary_of_dictionary).
  - reflexivity.
  - intros k a Hk. unfold dictionary_of_dictionary, Dict.set in Hk.
    cbn [attributes Dictionary_ctor] in Hk.
    apply lookup_insert_Some in Hk as [[_ <-]|[_ Hk]].
    + eexists. split; [vm_compute; reflexivity|vm_compute; reflexivity].
    + apply lookup_insert_Some in Hk as [[_ <-]|[_ Hk]].
      * eexists. split; [vm_compute; reflexivity|vm_compute; reflexivity].
      * by rewrite lookup_empty in Hk.
Defined.

Lemma null_child_not_decodable_witness :
  @decode coercing_services (Null_encode Null_ctor)
  = Throw (SALException "JSON object does not define a valid SAL attribute.")
  ∧ ¬ ∃ d', @Dictionary_decode coercing_services dictionary_of_null_wire = Return d'.
Proof.
  apply (@null_child_not_decodable coercing_services dictionary_of_null "nothing"
           dictionary_of_null_wire).
  - reflexivity.
  - vm_compute. reflexivity.
Defined.

(** A [StringArray({2, 2})] holding four strings. *)
Lemma string_array_roundtrip_witness :
  ∃ encoded ad,
    @Array_encode coercing_services std_string (set_data four_strings string_array_blank_2_2)
    = Return encoded
    ∧ encoded !! "value" = Some (Var_object ad)
    ∧ ad !! "encoding" = Some (str "list")
    ∧ ad !! "data" = Some (Var_array (nested std_string [2; 2] four_strings))
    ∧ @Array_decode coercing_services std_string encoded
      = Return (set_data four_strings string_array_blank_2_2)
    ∧ @decode_array coercing_services encoded
      = Return (existT std_string (set_data four_strings string_array_blank_2_2))
    ∧ @decode coercing_services encoded
      = Return (A_Array std_string (set_data four_strings string_array_blank_2_2)).
Proof.
  apply (@string_array_roundtrip coercing_services [2; 2] string_array_blank_2_2 four_strings).
  - simpl. lia.
  - repeat first [apply Forall_cons_2 | apply Forall_nil_2]; lia.
  - vm_compute. reflexivity.
  - reflexivity.
  - reflexivity.
Defined.

(** Two [int16] elements and a fifth byte in the payload. *)
Lemma array_decode_payload_unchecked_witness :
  @Array_decode coercing_services int16_t int16_long_wire
  = Return (set_data two_int16 int16_array_blank_2).
Proof.
  apply (proj1 (@array_decode_payload_unchecked coercing_services int16_t int16_long_wire
                  int16_long_definition "int16" int16_long_payload [2] int16_array_blank_2
                  two_int16 [Byte.x07]
                  eq_refl eq_refl eq_refl eq_refl eq_refl eq_refl eq_refl eq_refl
                  ltac:(simpl; lia) eq_refl eq_refl ltac:(vm_compute; reflexivity) eq_refl)).
  vm_compute. reflexivity.
Defined.
